(** * is-the-port-open: a verification development for [main.py]

    The program is a small Tk application that probes a list of named
    TCP endpoints.  This file embeds the parts of [main.py] that carry
    behaviour (the probe, the INI persistence, the target list, the scan
    orchestration and the auto-refresh timer) and proves properties of them.

    Conventions of the embedding:
    - a Python [str] is a [string]; [str(n)] for an integer is stdpp's
      [pretty], which prints the same decimal text;
    - a Python [float] is an IEEE binary64 value, [spec_float] with the
      operations of [SpecFloat] at precision 53;
    - Python objects that are shared and mutated ([Target], [TargetRow]) live
      in a store indexed by their identity; lists hold identities;
    - a call that may raise returns a [py_result]. *)

From Stdlib Require Import ZArith String Ascii SpecFloat.
From stdpp Require Import base option numbers list gmap strings pretty sets fin_maps.

Open Scope Z_scope.

(** ** Python exceptions *)

(** The exception classes that the calls made by [main.py] can raise, with
    the part of the built-in hierarchy above them. *)
Inductive exc_class :=
  | Exception
  | OSError
  | gaierror                (* socket.gaierror *)
  | herror                  (* socket.herror *)
  | TimeoutError
  | ConnectionError
  | ConnectionRefusedError
  | ConnectionResetError
  | ValueError
  | UnicodeError
  | RuntimeError
  | CancelledError          (* concurrent.futures.CancelledError *)
  | TclError.

#[global] Instance exc_class_eq_dec : EqDecision exc_class.
Proof. solve_decision. Defined.

(** The direct base class; [Exception] is the root of what is modelled. *)
Definition exc_base (c : exc_class) : option exc_class :=
  match c with
  | Exception => None
  | OSError => Some Exception
  | gaierror => Some OSError
  | herror => Some OSError
  | TimeoutError => Some OSError
  | ConnectionError => Some OSError
  | ConnectionRefusedError => Some ConnectionError
  | ConnectionResetError => Some ConnectionError
  | ValueError => Some Exception
  | UnicodeError => Some ValueError
  | RuntimeError => Some Exception
  | CancelledError => Some Exception
  | TclError => Some Exception
  end.

(** The class followed by its ancestors. *)
Fixpoint mro_from (fuel : nat) (c : exc_class) : list exc_class :=
  match fuel with
  | O => [c]
  | S fuel' =>
      match exc_base c with
      | None => [c]
      | Some b => c :: mro_from fuel' b
      end
  end.

Definition mro (c : exc_class) : list exc_class := mro_from 4 c.

(** [isinstance(e, cls)] for an exception [e] whose class is [c]; this is
    also the test an [except cls:] clause performs. *)
Definition isinstance (c cls : exc_class) : bool := bool_decide (cls ∈ mro c).

(** The outcome of a call: a value, or a raised exception. *)
Inductive py_result (A : Type) :=
  | Return (a : A)
  | Raise (e : exc_class).
Arguments Return {A} a.
Arguments Raise {A} e.

(** ** Floats *)

Definition float := spec_float.

#[global] Instance float_inhabited : Inhabited float := populate (S754_zero false).
#[global] Instance float_eq_dec : EqDecision float.
Proof. solve_decision. Defined.

Definition prec : Z := 53.
Definition emax : Z := 1024.

Definition float_sub : float → float → float := SFsub prec emax.
Definition float_mul : float → float → float := SFmul prec emax.
Definition float_leb : float → float → bool := SFleb.

Definition float_of_Z (z : Z) : float := binary_normalize prec emax z 0 false.

Definition float_zero : float := S754_zero false.
(** The literal [1000.0]. *)
Definition float_1000 : float := Eval vm_compute in float_of_Z 1000.
(** The literal [5.0]. *)
Definition float_5 : float := Eval vm_compute in float_of_Z 5.

(** A float that is neither an infinity nor a NaN. *)
Definition is_finite (x : float) : bool :=
  match x with
  | S754_zero _ | S754_finite _ _ _ => true
  | _ => false
  end.

(** A float that can be stored in a binary64. *)
Definition is_binary64 (x : float) : bool := valid_binary prec emax x.

(** Not below zero and not a NaN: a zero of either sign, or positive. *)
Definition not_negative (x : float) : Prop :=
  match x with
  | S754_zero _ => True
  | S754_finite s _ _ | S754_infinity s => s = false
  | S754_nan => False
  end.

(** ** The probe: [check_tcp_open] *)

Module Probe.

(** What [socket.create_connection] does: it yields a connected socket or
    raises. *)
Inductive connect_outcome :=
  | Connected
  | ConnectRaises (e : exc_class).

(** What one invocation of [check_tcp_open] sees of the outside world: the
    two readings of [time.perf_counter] and the answer of the network. *)
Record World := mkWorld {
  perf_counter_start : float;
  create_connection : string → Z → float → connect_outcome;
  perf_counter_connected : float
}.

Definition check_tcp_open (w : World) (host : string) (port : Z)
    (timeout_seconds : float) : py_result (string * option float) :=
  let start := perf_counter_start w in
  match create_connection w host port timeout_seconds with
  | Connected =>
      let latency_ms :=
        float_mul (float_sub (perf_counter_connected w) start) float_1000 in
      Return ("OPEN", Some latency_ms)
  | ConnectRaises e =>
      if isinstance e gaierror then Return ("DNS_FAIL", None)
      else if isinstance e TimeoutError then Return ("TIMEOUT", None)
      else if isinstance e OSError then
        if isinstance e ConnectionRefusedError then Return ("CLOSED", None)
        else Return ("ERROR", None)
      else Raise e
  end.

Definition outcomes : list string :=
  ["OPEN"; "CLOSED"; "TIMEOUT"; "DNS_FAIL"; "ERROR"].

(** A world in which the host name [a..b] cannot be encoded for the
    resolver: CPython encodes a host name with its [idna] codec before it
    resolves it, and that codec raises [UnicodeError] for an empty label.
    Other names do not resolve. *)
Definition idna_world : World :=
  mkWorld (float_of_Z 0)
          (λ host _ _, if bool_decide (host = "a..b")
                       then ConnectRaises UnicodeError
                       else ConnectRaises gaierror)
          (float_of_Z 0).

(** A world in which every connection is accepted, one second after the
    clock read one. *)
Definition accepting_world : World :=
  mkWorld (float_of_Z 1) (λ _ _ _, Connected) (float_of_Z 2).

End Probe.

(** ** Python string operations used by the program *)

(** [c.isspace()] for the characters below 256. *)
Definition isspace (c : ascii) : bool :=
  let n := N_of_ascii c in
  ((9 <=? n) && (n <=? 13) || (28 <=? n) && (n <=? 32)
   || (n =? 133) || (n =? 160))%N.

Fixpoint lstrip (s : string) : string :=
  match s with
  | String c s' => if isspace c then lstrip s' else s
  | EmptyString => EmptyString
  end.

Fixpoint rstrip (s : string) : string :=
  match s with
  | EmptyString => EmptyString
  | String c s' =>
      match rstrip s' with
      | EmptyString => if isspace c then EmptyString else String c EmptyString
      | r => String c r
      end
  end.

(** [s.strip()] *)
Definition strip (s : string) : string := rstrip (lstrip s).

(** [c in s] for a one-character string [c]. *)
Fixpoint contains (c : ascii) (s : string) : bool :=
  match s with
  | EmptyString => false
  | String d s' => bool_decide (d = c) || contains c s'
  end.

(** [s.rsplit(c, 1)] when [c] occurs in [s]: the text before the last
    occurrence and the text after it.  [None] when [c] does not occur
    (Python then returns a one-element list). *)
Fixpoint rsplit1 (c : ascii) (s : string) : option (string * string) :=
  match s with
  | EmptyString => None
  | String d s' =>
      match rsplit1 c s' with
      | Some (a, b) => Some (String d a, b)
      | None => if bool_decide (d = c) then Some (EmptyString, s') else None
      end
  end.

Fixpoint string_forall (P : ascii → bool) (s : string) : bool :=
  match s with
  | EmptyString => true
  | String c s' => P c && string_forall P s'
  end.

Definition digit_of (c : ascii) : option Z :=
  let n := N_of_ascii c in
  if ((48 <=? n) && (n <=? 57))%N then Some (Z.of_N n - 48) else None.

Definition isdigit (c : ascii) : bool :=
  match digit_of c with Some _ => true | None => false end.

Fixpoint parse_digits (s : string) (acc : Z) : option Z :=
  match s with
  | EmptyString => Some acc
  | String c s' =>
      match digit_of c with
      | Some d => parse_digits s' (acc * 10 + d)
      | None => None
      end
  end.

(** [int(s)] takes decimal text: blanks at both ends, then a sign, then
    digits, where one underscore may stand between two digits.  The blanks
    that [int] skips are those of C's [isspace] and, above 127, the Unicode
    blanks; unlike [str.strip] it does not skip the separators 28 to 31. *)
Definition int_space (c : ascii) : bool :=
  let n := N_of_ascii c in
  ((9 <=? n) && (n <=? 13) || (n =? 32) || (n =? 133) || (n =? 160))%N.

Fixpoint skip_space (s : string) : string :=
  match s with
  | String c s' => if int_space c then skip_space s' else s
  | EmptyString => EmptyString
  end.

(** Where the scan of the digits stands. *)
Inductive int_scan :=
  | NoDigit           (* nothing read yet: a digit must follow *)
  | AfterDigit        (* a digit was read last *)
  | AfterUnderscore.  (* an underscore was read last: a digit must follow *)

(** The digits, then only blanks up to the end. *)
Fixpoint int_digits (st : int_scan) (s : string) (acc : Z) : option Z :=
  match s with
  | EmptyString => match st with AfterDigit => Some acc | _ => None end
  | String c s' =>
      match digit_of c with
      | Some d => int_digits AfterDigit s' (acc * 10 + d)
      | None =>
          match st with
          | AfterDigit =>
              if bool_decide (c = "_"%char) then int_digits AfterUnderscore s' acc
              else if string_forall int_space s then Some acc else None
          | _ => None
          end
      end
  end.

(** [int(s)] for text of characters below 256; [None] stands for
    [ValueError]. *)
Definition py_int (s : string) : option Z :=
  match skip_space s with
  | EmptyString => None
  | String c s' =>
      if bool_decide (c = "-"%char) then Z.opp <$> int_digits NoDigit s' 0
      else if bool_decide (c = "+"%char) then int_digits NoDigit s' 0
      else int_digits NoDigit (String c s') 0
  end.

(** [str(n)] for an [int]. *)
Definition str_int (n : Z) : string := pretty n.

(** ** The data model *)

Record Target := mkTarget {
  name : string;
  host : string;
  port : Z
}.

#[global] Instance Target_eq_dec : EqDecision Target.
Proof. solve_decision. Defined.

#[global] Instance Target_inhabited : Inhabited Target :=
  populate (mkTarget "" "" 0).

(** ** Dictionaries and [ConfigParser] objects *)

(** A Python [dict] with string keys, in insertion order. *)
Definition dict (V : Type) := list (string * V).

(** [d[k] = v]: an existing key keeps its place and takes the new value, a
    new key goes to the end. *)
Fixpoint dict_set {V} (k : string) (v : V) (d : dict V) : dict V :=
  match d with
  | [] => [(k, v)]
  | (k', v') :: d' =>
      if bool_decide (k' = k) then (k, v) :: d' else (k', v') :: dict_set k v d'
  end.

Fixpoint dict_get {V} (k : string) (d : dict V) : option V :=
  match d with
  | [] => None
  | (k', v') :: d' => if bool_decide (k' = k) then Some v' else dict_get k d'
  end.

Definition dict_keys {V} (d : dict V) : list string := d.*1.

(** The sections of a [ConfigParser], each a dictionary of options. *)
Definition config := dict (dict string).

(** A printable ASCII character (so neither a line break nor a character
    whose bytes depend on the encoding the file is read with). *)
Definition printable (c : ascii) : bool :=
  let n := N_of_ascii c in ((32 <=? n) && (n <=? 126))%N.

(** Text that the INI syntax carries unchanged as an option name: not empty,
    no blank at either end, printable, none of the characters that delimit,
    comment or open a section. *)
Definition ini_key_char (c : ascii) : bool :=
  printable c && negb (bool_decide (c ∈ ["="; ":"; "#"; ";"; "["; "]"]%char)).
Definition ini_plain_key (k : string) : bool :=
  negb (bool_decide (k = "")) && bool_decide (strip k = k) && string_forall ini_key_char k.

(** Text that the INI syntax carries unchanged as an option value. *)
Definition ini_value_char (c : ascii) : bool :=
  printable c && negb (bool_decide (c ∈ ["%"; "#"; ";"]%char)).
Definition ini_plain_value (v : string) : bool :=
  bool_decide (strip v = v) && string_forall ini_value_char v.

Definition section_plain (sec : dict string) : bool :=
  bool_decide (NoDup (dict_keys sec))
  && forallb (λ kv, ini_plain_key kv.1 && ini_plain_value kv.2) sec.

Definition config_plain (cfg : config) : bool :=
  bool_decide (NoDup (dict_keys cfg))
  && forallb (λ s, ini_plain_key s.1 && negb (bool_decide (s.1 = "DEFAULT"))
                   && section_plain s.2) cfg.

(** ** What the program takes from Python's library

    [str] and [float] on floats, and the text format of [configparser], are
    library code.  They enter the model as operations with the laws the
    program relies on: the text of a float is plain, an option value free
    of [%] passes the interpolation check of [ConfigParser.set], and a plain
    configuration that is written is read back unchanged. *)
Class PythonLib := {
  str_float : float → string;
  float_of_str : string → option float;
  ini_text : Type;
  ini_write : config → ini_text;
  ini_read : ini_text → py_result config;
  before_set : string → bool;
  str_float_plain x : ini_plain_value (str_float x) = true;
  before_set_plain v : string_forall ini_value_char v = true → before_set v = true;
  ini_read_write cfg : config_plain cfg = true → ini_read (ini_write cfg) = Return cfg
}.

(** ** Persistence: [save_state] and [load_state] *)

(** [f"{t.host}:{t.port}"] *)
Definition target_value (t : Target) : string :=
  host t +:+ ":" +:+ str_int (port t).

(** The files of the configuration directory, by path. *)
Abbreviation Disk := (gmap string ini_text).

Section Persistence.
Context `{!PythonLib}.


(** [Path(src).replace(dst)] *)
Definition path_replace (src dst : string) (disk : Disk) : Disk :=
  match disk !! src with
  | Some text => <[dst := text]> (delete src disk)
  | None => disk
  end.

(** The loop [for t in targets: cfg["TARGETS"][t.name] = f"{t.host}:{t.port}"].
    [ConfigParser] refuses a value with a stray [%] by [ValueError]. *)
Fixpoint set_targets (targets : list Target) (sec : dict string)
    : py_result (dict string) :=
  match targets with
  | [] => Return sec
  | t :: ts =>
      let value := target_value t in
      if before_set value then set_targets ts (dict_set (name t) value sec)
      else Raise ValueError
  end.

(** The result is the disk after the call; a raised exception leaves the
    disk as it was, since nothing is written before the configuration is
    complete. *)
Definition save_state (timeout : float) (max_workers auto_refresh : Z)
    (targets : list Target) (path : string) (disk : Disk) : py_result Disk :=
  let cfg : config :=
    dict_set "SETTINGS"
      [("TIMEOUT_SECONDS", str_float timeout);
       ("MAX_WORKERS", str_int max_workers);
       ("AUTO_REFRESH_SECONDS", str_int auto_refresh)] [] in
  let cfg := dict_set "TARGETS" [] cfg in
  match set_targets targets [] with
  | Raise e => Raise e
  | Return sec =>
      let cfg := dict_set "TARGETS" sec cfg in
      let tmp_path := path +:+ ".tmp" in
      let disk := <[tmp_path := ini_write cfg]> disk in
      Return (path_replace tmp_path path disk)
  end.

Definition _read_ini (path : string) (disk : Disk) : py_result config :=
  match disk !! path with
  | Some text => ini_read text
  | None => Return []
  end.

(** [cfg.get(section, key)], [None] when either is missing.  Values
    are returned as stored, which is what [get] does for text free of [%]. *)
Definition cfg_get (cfg : config) (section key : string) : option string :=
  match dict_get section cfg with
  | Some sec => dict_get key sec
  | None => None
  end.

Definition getfloat (cfg : config) (section key : string) (fallback : float)
    : py_result float :=
  match cfg_get cfg section key with
  | None => Return fallback
  | Some v =>
      match float_of_str v with
      | Some x => Return x
      | None => Raise ValueError
      end
  end.

Definition getint (cfg : config) (section key : string) (fallback : Z)
    : py_result Z :=
  match cfg_get cfg section key with
  | None => Return fallback
  | Some v =>
      match py_int v with
      | Some x => Return x
      | None => Raise ValueError
      end
  end.

(** The body of the loop over [cfg["TARGETS"].items()]: [None] where the
    code reaches [continue] or the final test fails. *)
Definition parse_target (name value : string) : option Target :=
  let raw := strip value in
  if negb (contains ":" raw) then None
  else
    match rsplit1 ":" raw with
    | None => None
    | Some (host, port_str) =>
        let host := strip host in
        let port_str := strip port_str in
        match py_int port_str with
        | None => None
        | Some port =>
            if negb ((1 <=? port)%Z && (port <=? 65535)%Z) then None
            else if negb (bool_decide (host = "")) && negb (bool_decide (strip name = ""))
            then Some (mkTarget (strip name) host port)
            else None
        end
    end.

Definition load_targets (cfg : config) : list Target :=
  match dict_get "TARGETS" cfg with
  | Some sec => omap (λ kv, parse_target kv.1 kv.2) sec
  | None => []
  end.

Definition load_state (path : string) (disk : Disk)
    : py_result (float * Z * Z * list Target) :=
  match _read_ini path disk with
  | Raise e => Raise e
  | Return cfg =>
      match getfloat cfg "SETTINGS" "TIMEOUT_SECONDS" float_5 with
      | Raise e => Raise e
      | Return timeout =>
          match getint cfg "SETTINGS" "MAX_WORKERS" 10 with
          | Raise e => Raise e
          | Return max_workers =>
              match getint cfg "SETTINGS" "AUTO_REFRESH_SECONDS" 0 with
              | Raise e => Raise e
              | Return auto_refresh =>
                  Return (timeout, max_workers, auto_refresh, load_targets cfg)
              end
          end
      end
  end.

End Persistence.

(** ** The application *)

(** The text of a row's status label. *)
Inductive status_text :=
  | Dash                                            (* the initial text *)
  | Checking                                        (* "Checking..." *)
  | Shown (status : string) (latency : option float). (* set by [set_result] *)

(** A [TargetRow]: the target it refers to, the texts of its labels (fixed
    when the row is built), its status label and its delete button. *)
Record TargetRow := mkRow {
  target : nat;
  name_label : string;
  host_label : string;
  port_label : string;
  status_label : status_text;
  delete_btn : bool;
  alive : bool
}.

#[global] Instance TargetRow_inhabited : Inhabited TargetRow :=
  populate (mkRow 0 "" "" "" Dash false false).

(** One entry of the batch that [_refresh_worker] hands to [apply_results]:
    the row, the status and the latency. *)
Definition result : Type := nat * string * option float.

(** The callables handed to [self.after]. *)
Inductive callback :=
  | auto_refresh_tick_cb
  | apply_results_cb (results : list result)
  | recover_cb.

Section Program.
Context `{!PythonLib}.
Variable INI_PATH : string.

Record App := mkApp {
  heap : gmap nat Target;    (* the [Target] objects, by identity *)
  row_heap : gmap nat TargetRow;    (* the [TargetRow] objects, by identity *)
  submitted : gmap nat (string * Z * float);    (* the arguments each future was submitted with *)
  next_future : nat;    (* identity of the next future *)
  timeout : float;    (* [self.timeout] *)
  max_workers : Z;    (* [self.max_workers] *)
  auto_refresh_seconds : Z;    (* [self.auto_refresh_seconds] *)
  targets : list nat;    (* [self.targets] *)
  rows : list nat;    (* [self.rows] *)
  executor : Z;    (* [self.executor]: a pool of that many workers *)
  refresh_in_progress : bool;    (* [self.refresh_in_progress] *)
  _auto_after_id : option nat;    (* [self._auto_after_id] *)
  meta_label : option Z;    (* time shown as last checked *)
  add_btn : bool;    (* state of the add button: enabled? *)
  settings_button : bool;    (* state of the settings button *)
  refresh_button : bool;    (* state of the refresh button *)
  add_dialog : bool;    (* an [AddTargetDialog] is open *)
  tk_now : Z;    (* Tk's clock, in milliseconds *)
  tk_next_id : nat;    (* identity of the next timer *)
  tk_pending : gmap nat (Z * callback);    (* timers set by [after]: due time and callback *)
  disk : Disk;    (* the configuration directory *)
  workers : nat    (* [_refresh_worker] threads started and not finished *)
}.

Definition with_heap (v : gmap nat Target) (a : App) : App :=
  {| heap := v; row_heap := row_heap a; submitted := submitted a; next_future := next_future a; timeout := timeout a; max_workers := max_workers a; auto_refresh_seconds := auto_refresh_seconds a; targets := targets a; rows := rows a; executor := executor a; refresh_in_progress := refresh_in_progress a; _auto_after_id := _auto_after_id a; meta_label := meta_label a; add_btn := add_btn a; settings_button := settings_button a; refresh_button := refresh_button a; add_dialog := add_dialog a; tk_now := tk_now a; tk_next_id := tk_next_id a; tk_pending := tk_pending a; disk := disk a; workers := workers a |}.
Definition with_row_heap (v : gmap nat TargetRow) (a : App) : App :=
  {| heap := heap a; row_heap := v; submitted := submitted a; next_future := next_future a; timeout := timeout a; max_workers := max_workers a; auto_refresh_seconds := auto_refresh_seconds a; targets := targets a; rows := rows a; executor := executor a; refresh_in_progress := refresh_in_progress a; _auto_after_id := _auto_after_id a; meta_label := meta_label a; add_btn := add_btn a; settings_button := settings_button a; refresh_button := refresh_button a; add_dialog := add_dialog a; tk_now := tk_now a; tk_next_id := tk_next_id a; tk_pending := tk_pending a; disk := disk a; workers := workers a |}.
Definition with_submitted (v : gmap nat (string * Z * float)) (a : App) : App :=
  {| heap := heap a; row_heap := row_heap a; submitted := v; next_future := next_future a; timeout := timeout a; max_workers := max_workers a; auto_refresh_seconds := auto_refresh_seconds a; targets := targets a; rows := rows a; executor := executor a; refresh_in_progress := refresh_in_progress a; _auto_after_id := _auto_after_id a; meta_label := meta_label a; add_btn := add_btn a; settings_button := settings_button a; refresh_button := refresh_button a; add_dialog := add_dialog a; tk_now := tk_now a; tk_next_id := tk_next_id a; tk_pending := tk_pending a; disk := disk a; workers := workers a |}.
Definition with_next_future (v : nat) (a : App) : App :=
  {| heap := heap a; row_heap := row_heap a; submitted := submitted a; next_future := v; timeout := timeout a; max_workers := max_workers a; auto_refresh_seconds := auto_refresh_seconds a; targets := targets a; rows := rows a; executor := executor a; refresh_in_progress := refresh_in_progress a; _auto_after_id := _auto_after_id a; meta_label := meta_label a; add_btn := add_btn a; settings_button := settings_button a; refresh_button := refresh_button a; add_dialog := add_dialog a; tk_now := tk_now a; tk_next_id := tk_next_id a; tk_pending := tk_pending a; disk := disk a; workers := workers a |}.
Definition with_timeout (v : float) (a : App) : App :=
  {| heap := heap a; row_heap := row_heap a; submitted := submitted a; next_future := next_future a; timeout := v; max_workers := max_workers a; auto_refresh_seconds := auto_refresh_seconds a; targets := targets a; rows := rows a; executor := executor a; refresh_in_progress := refresh_in_progress a; _auto_after_id := _auto_after_id a; meta_label := meta_label a; add_btn := add_btn a; settings_button := settings_button a; refresh_button := refresh_button a; add_dialog := add_dialog a; tk_now := tk_now a; tk_next_id := tk_next_id a; tk_pending := tk_pending a; disk := disk a; workers := workers a |}.
Definition with_max_workers (v : Z) (a : App) : App :=
  {| heap := heap a; row_heap := row_heap a; submitted := submitted a; next_future := next_future a; timeout := timeout a; max_workers := v; auto_refresh_seconds := auto_refresh_seconds a; targets := targets a; rows := rows a; executor := executor a; refresh_in_progress := refresh_in_progress a; _auto_after_id := _auto_after_id a; meta_label := meta_label a; add_btn := add_btn a; settings_button := settings_button a; refresh_button := refresh_button a; add_dialog := add_dialog a; tk_now := tk_now a; tk_next_id := tk_next_id a; tk_pending := tk_pending a; disk := disk a; workers := workers a |}.
Definition with_auto_refresh_seconds (v : Z) (a : App) : App :=
  {| heap := heap a; row_heap := row_heap a; submitted := submitted a; next_future := next_future a; timeout := timeout a; max_workers := max_workers a; auto_refresh_seconds := v; targets := targets a; rows := rows a; executor := executor a; refresh_in_progress := refresh_in_progress a; _auto_after_id := _auto_after_id a; meta_label := meta_label a; add_btn := add_btn a; settings_button := settings_button a; refresh_button := refresh_button a; add_dialog := add_dialog a; tk_now := tk_now a; tk_next_id := tk_next_id a; tk_pending := tk_pending a; disk := disk a; workers := workers a |}.
Definition with_targets (v : list nat) (a : App) : App :=
  {| heap := heap a; row_heap := row_heap a; submitted := submitted a; next_future := next_future a; timeout := timeout a; max_workers := max_workers a; auto_refresh_seconds := auto_refresh_seconds a; targets := v; rows := rows a; executor := executor a; refresh_in_progress := refresh_in_progress a; _auto_after_id := _auto_after_id a; meta_label := meta_label a; add_btn := add_btn a; settings_button := settings_button a; refresh_button := refresh_button a; add_dialog := add_dialog a; tk_now := tk_now a; tk_next_id := tk_next_id a; tk_pending := tk_pending a; disk := disk a; workers := workers a |}.
Definition with_rows (v : list nat) (a : App) : App :=
  {| heap := heap a; row_heap := row_heap a; submitted := submitted a; next_future := next_future a; timeout := timeout a; max_workers := max_workers a; auto_refresh_seconds := auto_refresh_seconds a; targets := targets a; rows := v; executor := executor a; refresh_in_progress := refresh_in_progress a; _auto_after_id := _auto_after_id a; meta_label := meta_label a; add_btn := add_btn a; settings_button := settings_button a; refresh_button := refresh_button a; add_dialog := add_dialog a; tk_now := tk_now a; tk_next_id := tk_next_id a; tk_pending := tk_pending a; disk := disk a; workers := workers a |}.
Definition with_executor (v : Z) (a : App) : App :=
  {| heap := heap a; row_heap := row_heap a; submitted := submitted a; next_future := next_future a; timeout := timeout a; max_workers := max_workers a; auto_refresh_seconds := auto_refresh_seconds a; targets := targets a; rows := rows a; executor := v; refresh_in_progress := refresh_in_progress a; _auto_after_id := _auto_after_id a; meta_label := meta_label a; add_btn := add_btn a; settings_button := settings_button a; refresh_button := refresh_button a; add_dialog := add_dialog a; tk_now := tk_now a; tk_next_id := tk_next_id a; tk_pending := tk_pending a; disk := disk a; workers := workers a |}.
Definition with_refresh_in_progress (v : bool) (a : App) : App :=
  {| heap := heap a; row_heap := row_heap a; submitted := submitted a; next_future := next_future a; timeout := timeout a; max_workers := max_workers a; auto_refresh_seconds := auto_refresh_seconds a; targets := targets a; rows := rows a; executor := executor a; refresh_in_progress := v; _auto_after_id := _auto_after_id a; meta_label := meta_label a; add_btn := add_btn a; settings_button := settings_button a; refresh_button := refresh_button a; add_dialog := add_dialog a; tk_now := tk_now a; tk_next_id := tk_next_id a; tk_pending := tk_pending a; disk := disk a; workers := workers a |}.
Definition with_auto_after_id (v : option nat) (a : App) : App :=
  {| heap := heap a; row_heap := row_heap a; submitted := submitted a; next_future := next_future a; timeout := timeout a; max_workers := max_workers a; auto_refresh_seconds := auto_refresh_seconds a; targets := targets a; rows := rows a; executor := executor a; refresh_in_progress := refresh_in_progress a; _auto_after_id := v; meta_label := meta_label a; add_btn := add_btn a; settings_button := settings_button a; refresh_button := refresh_button a; add_dialog := add_dialog a; tk_now := tk_now a; tk_next_id := tk_next_id a; tk_pending := tk_pending a; disk := disk a; workers := workers a |}.
Definition with_meta_label (v : option Z) (a : App) : App :=
  {| heap := heap a; row_heap := row_heap a; submitted := submitted a; next_future := next_future a; timeout := timeout a; max_workers := max_workers a; auto_refresh_seconds := auto_refresh_seconds a; targets := targets a; rows := rows a; executor := executor a; refresh_in_progress := refresh_in_progress a; _auto_after_id := _auto_after_id a; meta_label := v; add_btn := add_btn a; settings_button := settings_button a; refresh_button := refresh_button a; add_dialog := add_dialog a; tk_now := tk_now a; tk_next_id := tk_next_id a; tk_pending := tk_pending a; disk := disk a; workers := workers a |}.
Definition with_add_btn (v : bool) (a : App) : App :=
  {| heap := heap a; row_heap := row_heap a; submitted := submitted a; next_future := next_future a; timeout := timeout a; max_workers := max_workers a; auto_refresh_seconds := auto_refresh_seconds a; targets := targets a; rows := rows a; executor := executor a; refresh_in_progress := refresh_in_progress a; _auto_after_id := _auto_after_id a; meta_label := meta_label a; add_btn := v; settings_button := settings_button a; refresh_button := refresh_button a; add_dialog := add_dialog a; tk_now := tk_now a; tk_next_id := tk_next_id a; tk_pending := tk_pending a; disk := disk a; workers := workers a |}.
Definition with_settings_button (v : bool) (a : App) : App :=
  {| heap := heap a; row_heap := row_heap a; submitted := submitted a; next_future := next_future a; timeout := timeout a; max_workers := max_workers a; auto_refresh_seconds := auto_refresh_seconds a; targets := targets a; rows := rows a; executor := executor a; refresh_in_progress := refresh_in_progress a; _auto_after_id := _auto_after_id a; meta_label := meta_label a; add_btn := add_btn a; settings_button := v; refresh_button := refresh_button a; add_dialog := add_dialog a; tk_now := tk_now a; tk_next_id := tk_next_id a; tk_pending := tk_pending a; disk := disk a; workers := workers a |}.
Definition with_refresh_button (v : bool) (a : App) : App :=
  {| heap := heap a; row_heap := row_heap a; submitted := submitted a; next_future := next_future a; timeout := timeout a; max_workers := max_workers a; auto_refresh_seconds := auto_refresh_seconds a; targets := targets a; rows := rows a; executor := executor a; refresh_in_progress := refresh_in_progress a; _auto_after_id := _auto_after_id a; meta_label := meta_label a; add_btn := add_btn a; settings_button := settings_button a; refresh_button := v; add_dialog := add_dialog a; tk_now := tk_now a; tk_next_id := tk_next_id a; tk_pending := tk_pending a; disk := disk a; workers := workers a |}.
Definition with_add_dialog (v : bool) (a : App) : App :=
  {| heap := heap a; row_heap := row_heap a; submitted := submitted a; next_future := next_future a; timeout := timeout a; max_workers := max_workers a; auto_refresh_seconds := auto_refresh_seconds a; targets := targets a; rows := rows a; executor := executor a; refresh_in_progress := refresh_in_progress a; _auto_after_id := _auto_after_id a; meta_label := meta_label a; add_btn := add_btn a; settings_button := settings_button a; refresh_button := refresh_button a; add_dialog := v; tk_now := tk_now a; tk_next_id := tk_next_id a; tk_pending := tk_pending a; disk := disk a; workers := workers a |}.
Definition with_tk_now (v : Z) (a : App) : App :=
  {| heap := heap a; row_heap := row_heap a; submitted := submitted a; next_future := next_future a; timeout := timeout a; max_workers := max_workers a; auto_refresh_seconds := auto_refresh_seconds a; targets := targets a; rows := rows a; executor := executor a; refresh_in_progress := refresh_in_progress a; _auto_after_id := _auto_after_id a; meta_label := meta_label a; add_btn := add_btn a; settings_button := settings_button a; refresh_button := refresh_button a; add_dialog := add_dialog a; tk_now := v; tk_next_id := tk_next_id a; tk_pending := tk_pending a; disk := disk a; workers := workers a |}.
Definition with_tk_next_id (v : nat) (a : App) : App :=
  {| heap := heap a; row_heap := row_heap a; submitted := submitted a; next_future := next_future a; timeout := timeout a; max_workers := max_workers a; auto_refresh_seconds := auto_refresh_seconds a; targets := targets a; rows := rows a; executor := executor a; refresh_in_progress := refresh_in_progress a; _auto_after_id := _auto_after_id a; meta_label := meta_label a; add_btn := add_btn a; settings_button := settings_button a; refresh_button := refresh_button a; add_dialog := add_dialog a; tk_now := tk_now a; tk_next_id := v; tk_pending := tk_pending a; disk := disk a; workers := workers a |}.
Definition with_tk_pending (v : gmap nat (Z * callback)) (a : App) : App :=
  {| heap := heap a; row_heap := row_heap a; submitted := submitted a; next_future := next_future a; timeout := timeout a; max_workers := max_workers a; auto_refresh_seconds := auto_refresh_seconds a; targets := targets a; rows := rows a; executor := executor a; refresh_in_progress := refresh_in_progress a; _auto_after_id := _auto_after_id a; meta_label := meta_label a; add_btn := add_btn a; settings_button := settings_button a; refresh_button := refresh_button a; add_dialog := add_dialog a; tk_now := tk_now a; tk_next_id := tk_next_id a; tk_pending := v; disk := disk a; workers := workers a |}.
Definition with_disk (v : Disk) (a : App) : App :=
  {| heap := heap a; row_heap := row_heap a; submitted := submitted a; next_future := next_future a; timeout := timeout a; max_workers := max_workers a; auto_refresh_seconds := auto_refresh_seconds a; targets := targets a; rows := rows a; executor := executor a; refresh_in_progress := refresh_in_progress a; _auto_after_id := _auto_after_id a; meta_label := meta_label a; add_btn := add_btn a; settings_button := settings_button a; refresh_button := refresh_button a; add_dialog := add_dialog a; tk_now := tk_now a; tk_next_id := tk_next_id a; tk_pending := tk_pending a; disk := v; workers := workers a |}.
Definition with_workers (v : nat) (a : App) : App :=
  {| heap := heap a; row_heap := row_heap a; submitted := submitted a; next_future := next_future a; timeout := timeout a; max_workers := max_workers a; auto_refresh_seconds := auto_refresh_seconds a; targets := targets a; rows := rows a; executor := executor a; refresh_in_progress := refresh_in_progress a; _auto_after_id := _auto_after_id a; meta_label := meta_label a; add_btn := add_btn a; settings_button := settings_button a; refresh_button := refresh_button a; add_dialog := add_dialog a; tk_now := tk_now a; tk_next_id := tk_next_id a; tk_pending := tk_pending a; disk := disk a; workers := v |}.

(** *** Calls that may raise

    A method runs on the application state; it returns or raises, and
    in both cases leaves the state it has built up to that point. *)
Definition M (A : Type) : Type := App → py_result A * App.

Definition ret {A} (x : A) : M A := λ a, (Return x, a).

Definition bind {A B} (m : M A) (k : A → M B) : M B := λ a,
  match m a with
  | (Return x, a') => k x a'
  | (Raise e, a') => (Raise e, a')
  end.

Definition lift (f : App → App) : M unit := λ a, (Return tt, f a).

(** The state a call leaves. *)
Definition exec {A} (m : M A) (a : App) : App := (m a).2.

Notation "m1 >>> m2" := (bind m1 (λ _, m2)) (at level 60, right associativity).

(** *** Tk timers: [after] and [after_cancel] *)

Definition after (ms : Z) (cb : callback) (a : App) : nat * App :=
  let id := tk_next_id a in
  (id, with_tk_next_id (S id)
         (with_tk_pending (<[id := ((tk_now a + ms)%Z, cb)]> (tk_pending a)) a)).

(** Cancelling a timer that is gone does nothing. *)
Definition after_cancel (id : nat) (a : App) : App :=
  with_tk_pending (delete id (tk_pending a)) a.

(** *** [TargetRow] *)

Definition set_delete_enabled (enabled : bool) (r : TargetRow) : TargetRow :=
  mkRow (target r) (name_label r) (host_label r) (port_label r)
        (status_label r) enabled (alive r).

Definition set_checking (r : TargetRow) : TargetRow :=
  mkRow (target r) (name_label r) (host_label r) (port_label r)
        Checking (delete_btn r) (alive r).

(** The label reads [status], or [OPEN (..ms)] with the latency when the
    status is ["OPEN"] and a latency is given. *)
Definition set_result (status : string) (latency_ms : option float)
    (r : TargetRow) : TargetRow :=
  mkRow (target r) (name_label r) (host_label r) (port_label r)
        (Shown status (if bool_decide (status = "OPEN") then latency_ms else None))
        (delete_btn r) (alive r).

Definition destroy (r : TargetRow) : TargetRow :=
  mkRow (target r) (name_label r) (host_label r) (port_label r)
        (status_label r) (delete_btn r) false.

(** A method call on the row object [r]. *)
Definition on_row (f : TargetRow → TargetRow) (a : App) (r : nat) : App :=
  with_row_heap (alter f r (row_heap a)) a.

(** [TargetRow(self.scroll, t, i, on_delete=self.delete_row)] *)
Definition new_row (a : App) (t : nat) : TargetRow :=
  let tg := heap a !!! t in
  mkRow t (name tg) (host tg) (str_int (port tg)) Dash true true.

(** *** [App] *)

Definition append_row (a : App) (t : nat) : App :=
  let r := fresh (dom (row_heap a)) in
  with_rows (rows a ++ [r]) (with_row_heap (<[r := new_row a t]> (row_heap a)) a).

Definition rebuild_rows (a : App) : App :=
  let a := foldl (on_row destroy) a (rows a) in
  let a := with_rows [] a in
  foldl append_row a (targets a).

Definition _set_editing_enabled (enabled : bool) (a : App) : App :=
  let a := with_add_btn enabled a in
  let a := with_settings_button enabled a in
  foldl (on_row (set_delete_enabled enabled)) a (rows a).

(** One call of [refresh_async] on the Tk thread.  The lock is free when
    the call begins and free when it ends; how calls on several threads
    interleave on the flag and the lock is the subject of [SingleFlight]. *)
Definition refresh_async (a : App) : App :=
  if refresh_in_progress a then a
  else
    let a := with_refresh_in_progress true a in
    let a := with_refresh_button false a in
    let a := _set_editing_enabled false a in
    let a := foldl (on_row set_checking) a (rows a) in
    with_workers (S (workers a)) a.

Definition target_values (a : App) : list Target :=
  (λ t, heap a !!! t) <$> targets a.

Definition persist : M unit := λ a,
  match save_state (timeout a) (max_workers a) (auto_refresh_seconds a)
                   (target_values a) INI_PATH (disk a) with
  | Return d => (Return tt, with_disk d a)
  | Raise e => (Raise e, a)
  end.

Definition same_target (x y : Target) : bool :=
  bool_decide (name x = name y) && bool_decide (host x = host y)
  && bool_decide (port x = port y).

Definition delete_row (row : nat) : M unit := λ a,
  if refresh_in_progress a then (Return tt, a)
  else
    let rt := heap a !!! target (row_heap a !!! row) in
    let a := with_targets
               (List.filter (λ t, negb (same_target (heap a !!! t) rt)) (targets a)) a in
    (persist >>> lift rebuild_rows) a.

Definition open_add_dialog (a : App) : App :=
  if refresh_in_progress a then a else with_add_dialog true a.

Definition names (a : App) : list string := name <$> target_values a.

(** [f"{base} ({n})"] *)
Definition numbered (base : string) (n : nat) : string :=
  base +:+ " (" +:+ pretty n +:+ ")".

(** The loop [while f"{base} ({n})" in existing: n += 1], run for at most
    [fuel] tests; [None] when the loop has not ended by then. *)
Fixpoint first_free (existing : gset string) (base : string) (fuel n : nat)
    : option nat :=
  match fuel with
  | O => None
  | S fuel' =>
      if bool_decide (numbered base n ∈ existing)
      then first_free existing base fuel' (S n)
      else Some n
  end.

(** [t.name = new_name] on the object [t]. *)
Definition rename (t : nat) (new_name : string) (a : App) : App :=
  with_heap (alter (λ x, mkTarget new_name (host x) (port x)) t (heap a)) a.

(** The loop is given one test more than there are names, which is as many
    as it can need ([first_free_total]). *)
Definition add_target (t : nat) : M unit := λ a,
  let existing : gset string := list_to_set (names a) in
  let base := name (heap a !!! t) in
  let a :=
    if bool_decide (base ∈ existing) then
      match first_free existing base (S (size existing)) 2 with
      | Some n => rename t (numbered base n) a
      | None => a
      end
    else a in
  let a := with_targets (targets a ++ [t]) a in
  (persist >>> lift rebuild_rows >>> lift refresh_async) a.

(** [AddTargetDialog._submit], on the texts of the three entries; the
    dialog builds a new [Target] object and hands it to [add_target]. *)
Definition _submit (name_entry host_entry port_entry : string) : M unit := λ a,
  if negb (add_dialog a) then (Return tt, a)
  else
    let name := strip name_entry in
    let host := strip host_entry in
    let port_str := strip port_entry in
    if bool_decide (name = "") then (Return tt, a)
    else if bool_decide (host = "") then (Return tt, a)
    else
      match py_int port_str with
      | None => (Return tt, a)
      | Some port =>
          if negb ((1 <=? port)%Z && (port <=? 65535)%Z) then (Return tt, a)
          else
            let t := fresh (dom (heap a)) in
            let a := with_heap (<[t := mkTarget name host port]> (heap a)) a in
            (add_target t >>> lift (with_add_dialog false)) a
      end.

Definition _schedule_auto_refresh (a : App) : App :=
  let a :=
    match _auto_after_id a with
    | Some id => with_auto_after_id None (after_cancel id a)
    | None => a
    end in
  if negb (bool_decide (auto_refresh_seconds a = 0%Z)) && (0 <? auto_refresh_seconds a)%Z
  then
    let '(id, a) := after (auto_refresh_seconds a * 1000)%Z auto_refresh_tick_cb a in
    with_auto_after_id (Some id) a
  else a.

Definition _auto_refresh_tick (a : App) : App :=
  _schedule_auto_refresh (refresh_async a).

(** When the worker count changes, the old pool is shut down and a new one
    takes its place.  [ThreadPoolExecutor(max_workers=n)] raises
    [ValueError] for [n <= 0]; the call stands outside the [try], so the
    error leaves [apply_settings] with the three settings assigned and
    [self.executor] still the old pool. *)
Definition apply_settings (new_timeout : float) (new_max_workers new_auto_refresh : Z)
    : M unit := λ a,
  let old_workers := max_workers a in
  let a := with_timeout new_timeout a in
  let a := with_max_workers new_max_workers a in
  let a := with_auto_refresh_seconds new_auto_refresh a in
  if bool_decide (max_workers a ≠ old_workers) then
    if (max_workers a <=? 0)%Z then (Raise ValueError, a)
    else
      let a := with_executor (max_workers a) a in
      (persist >>> lift _schedule_auto_refresh >>> lift refresh_async) a
  else (persist >>> lift _schedule_auto_refresh >>> lift refresh_async) a.

(** The closure [apply_results] of [_refresh_worker], with the batch it
    has captured. *)
Definition apply_results (results : list result) (a : App) : App :=
  let a := foldl (λ a (r : result), on_row (set_result r.1.2 r.2) a r.1.1) a results in
  let a := with_meta_label (Some (tk_now a)) a in
  let a := with_refresh_button true a in
  let a := _set_editing_enabled true a in
  with_refresh_in_progress false a.

(** The closure [recover] of [_refresh_worker]. *)
Definition recover (a : App) : App :=
  let a := with_refresh_button true a in
  let a := _set_editing_enabled true a in
  with_refresh_in_progress false a.

Definition run_callback (cb : callback) (a : App) : App :=
  match cb with
  | auto_refresh_tick_cb => _auto_refresh_tick a
  | apply_results_cb results => apply_results results a
  | recover_cb => recover a
  end.

(** Tk's main loop runs a timer that is due, once. *)
Definition fire (id : nat) (a : App) : App :=
  match tk_pending a !! id with
  | Some (due, cb) =>
      if (due <=? tk_now a)%Z then run_callback cb (after_cancel id a) else a
  | None => a
  end.

(** What can happen on the Tk thread: the user's actions and the timers. *)
Inductive MainOp :=
  | click_refresh
  | click_delete (row : nat)
  | click_add
  | dialog_submit (name_entry host_entry port_entry : string)
  | settings_apply (new_timeout : float) (new_max_workers new_auto_refresh : Z)
  | timer_fires (id : nat)
  | time_passes (ms : Z).

Definition run_op (a : App) (op : MainOp) : App :=
  match op with
  | click_refresh => refresh_async a
  | click_delete row => exec (delete_row row) a
  | click_add => open_add_dialog a
  | dialog_submit n h p => exec (_submit n h p) a
  | settings_apply t w r => exec (apply_settings t w r) a
  | timer_fires id => fire id a
  | time_passes ms => with_tk_now (tk_now a + Z.max 0 ms)%Z a
  end.

Definition run_ops (ops : list MainOp) (a : App) : App := foldl run_op a ops.

(** *** The worker thread: [_refresh_worker] *)

(** What the worker thread meets: whether a [submit] raises (a pool that
    cannot take work), the world each probe runs in, the futures that a
    pool shutdown has cancelled, and the order in which [as_completed]
    yields the futures it is given. *)
Record WorkerEnv := mkEnv {
  submit_raises : nat → option exc_class;
  probe_world : nat → Probe.World;
  cancelled : nat → bool;
  as_completed : list nat → list nat
}.

(** One turn of the first loop:
    [t = row.target; fut = self.executor.submit(check_tcp_open, t.host, t.port, self.timeout); futures[fut] = row]. *)
Definition submit_row (env : WorkerEnv) (futures : gmap nat nat) (row : nat)
    : M (gmap nat nat) := λ a,
  let t := target (row_heap a !!! row) in
  let tg := heap a !!! t in
  let fut := next_future a in
  match submit_raises env fut with
  | Some e => (Raise e, a)
  | None =>
      let a := with_submitted (<[fut := (host tg, port tg, timeout a)]> (submitted a)) a in
      let a := with_next_future (S fut) a in
      (Return (<[fut := row]> futures), a)
  end.

(** The first loop over the snapshot.  The Tk thread runs beside the
    worker: [sched i] is what it does before the worker's turn [i]. *)
Fixpoint submit_all (env : WorkerEnv) (sched : nat → list MainOp) (i : nat)
    (snapshot : list nat) (futures : gmap nat nat) : M (gmap nat nat) :=
  match snapshot with
  | [] => ret futures
  | row :: rest =>
      λ a, bind (submit_row env futures row)
                (submit_all env sched (S i) rest) (run_ops (sched i) a)
  end.

(** [fut.result()] *)
Definition future_result (env : WorkerEnv) (a : App) (fut : nat)
    : py_result (string * option float) :=
  if cancelled env fut then Raise CancelledError
  else
    let '(h, p, t) := submitted a !!! fut in
    Probe.check_tcp_open (probe_world env fut) h p t.

(** The second loop, over the futures as they complete. *)
Fixpoint collect (env : WorkerEnv) (a : App) (futures : gmap nat nat)
    (order : list nat) (results : list result) : py_result (list result) :=
  match order with
  | [] => Return results
  | fut :: rest =>
      let row := futures !!! fut in
      match future_result env a fut with
      | Return (status, latency) =>
          collect env a futures rest (results ++ [(row, status, latency)])
      | Raise e => Raise e
      end
  end.

(** The [try] block: both loops, the Tk thread doing [sched (length snapshot)]
    between them.  The snapshot is [list(self.rows)] at the start. *)
Definition try_block (env : WorkerEnv) (sched : nat → list MainOp)
    : M (list result) := λ a,
  let snapshot := rows a in
  bind (submit_all env sched 0 snapshot ∅)
       (λ futures a,
          let a := run_ops (sched (length snapshot)) a in
          (collect env a futures (as_completed env (elements (dom futures))) [], a))
       a.

(** The whole thread: the batch goes to [apply_results]; every exception
    of the [try] block ends in the [except Exception] clause, which posts
    [recover]. *)
Definition _refresh_worker (env : WorkerEnv) (sched : nat → list MainOp)
    (a : App) : App :=
  let '(outcome, a) := try_block env sched a in
  let cb :=
    match outcome with
    | Return results => apply_results_cb results
    | Raise _ => recover_cb
    end in
  let a := (after 0 cb a).2 in
  with_workers (pred (workers a)) a.

End Program.

Notation "m1 >>> m2" := (bind m1 (λ _, m2)) (at level 60, right associativity).

(** ** The flag and the lock of [refresh_async], under interleaving

    [refresh_async] tests [refresh_in_progress], takes [refresh_lock], tests
    again, sets the flag and leaves the lock; then it starts the worker
    thread.  The flag is cleared by the callback that the worker posts
    ([apply_results] or [recover]).  Here any number of callers run these
    lines concurrently, one line at a time, in any order. *)

Module SingleFlight.

(** Where a caller stands in [refresh_async]. *)
Inductive pc :=
  | Outside          (* not in the function *)
  | AtFastCheck      (* [if self.refresh_in_progress: return] *)
  | AtAcquire        (* [with self.refresh_lock:], waiting for the lock *)
  | AtLockedCheck    (* [if self.refresh_in_progress: return], lock held *)
  | AtSet            (* [self.refresh_in_progress = True], lock held *)
  | AtRelease        (* end of the [with] block after the assignment *)
  | AtReleaseReturn  (* end of the [with] block on [return] *)
  | AtStart.         (* the lines up to [threading.Thread(...).start()] *)

#[global] Instance pc_eq_dec : EqDecision pc.
Proof. solve_decision. Defined.

Record State := mkState {
  flag : bool;            (* [self.refresh_in_progress] *)
  lock : option nat;      (* the caller that holds [self.refresh_lock] *)
  pcs : list pc;          (* the callers *)
  sessions : nat;         (* scans begun (flag set) and not yet ended *)
  workers : nat           (* worker threads started, callback not yet run *)
}.

(** [App.__init__]: the lock is free and the flag is [False]. *)
Definition init (callers : nat) : State :=
  mkState false None (replicate callers Outside) 0 0.

Definition goto (t : nat) (p : pc) (s : State) : State :=
  mkState (flag s) (lock s) (<[t := p]> (pcs s)) (sessions s) (workers s).

Inductive event :=
  | Run (t : nat)    (* caller [t] executes its next line *)
  | Finish.          (* the posted callback clears the flag *)

(** One line of one caller; [None] when the caller cannot move (it waits
    for the lock) or does not exist. *)
Definition step (e : event) (s : State) : option State :=
  match e with
  | Run t =>
      match pcs s !! t with
      | None => None
      | Some Outside => Some (goto t AtFastCheck s)
      | Some AtFastCheck =>
          Some (goto t (if flag s then Outside else AtAcquire) s)
      | Some AtAcquire =>
          match lock s with
          | Some _ => None
          | None =>
              Some (mkState (flag s) (Some t) (<[t := AtLockedCheck]> (pcs s))
                            (sessions s) (workers s))
          end
      | Some AtLockedCheck =>
          Some (goto t (if flag s then AtReleaseReturn else AtSet) s)
      | Some AtSet =>
          Some (mkState true (lock s) (<[t := AtRelease]> (pcs s))
                        (S (sessions s)) (workers s))
      | Some AtRelease =>
          Some (mkState (flag s) None (<[t := AtStart]> (pcs s))
                        (sessions s) (workers s))
      | Some AtReleaseReturn =>
          Some (mkState (flag s) None (<[t := Outside]> (pcs s))
                        (sessions s) (workers s))
      | Some AtStart =>
          Some (mkState (flag s) (lock s) (<[t := Outside]> (pcs s))
                        (sessions s) (S (workers s)))
      end
  | Finish =>
      match workers s with
      | O => None
      | S w => Some (mkState false (lock s) (pcs s) (pred (sessions s)) w)
      end
  end.

(** A schedule; an event that cannot happen is skipped. *)
Definition run (trace : list event) (s : State) : State :=
  foldl (λ s e, default s (step e s)) s trace.

(** The caller is inside the [with] block. *)
Definition holds_lock (p : pc) : bool :=
  match p with
  | AtLockedCheck | AtSet | AtRelease | AtReleaseReturn => true
  | _ => false
  end.

(** The caller has set the flag and not yet started the worker. *)
Definition starting (p : pc) : bool :=
  match p with
  | AtRelease | AtStart => true
  | _ => false
  end.

(** What holds of every state that a schedule can reach. *)
Definition inv (s : State) : Prop :=
  sessions s = (if flag s then 1 else 0)%nat
  ∧ (∀ t p, pcs s !! t = Some p → (holds_lock p = true ↔ lock s = Some t))
  ∧ (∀ t, pcs s !! t = Some AtSet → flag s = false)
  ∧ (flag s = false →
     workers s = 0%nat ∧ ∀ t p, pcs s !! t = Some p → starting p = false)
  ∧ (∀ t1 t2 p1 p2, pcs s !! t1 = Some p1 → pcs s !! t2 = Some p2 →
       starting p1 = true → starting p2 = true → t1 = t2)
  ∧ (∀ t p, pcs s !! t = Some p → starting p = true → workers s = 0%nat)
  ∧ (workers s ≤ 1)%nat.

End SingleFlight.

(** ** Statements about persistence *)

(** A target whose name and host the INI file carries unchanged. *)
Definition storable (t : Target) : bool :=
  ini_plain_key (name t) && negb (bool_decide (host t = ""))
  && ini_plain_value (host t) && (1 <=? port t)%Z && (port t <=? 65535)%Z.

(** The options that [save_state] stores for a list of targets with
    distinct names. *)
Definition stored (targets : list Target) : dict string :=
  (λ t, (name t, target_value t)) <$> targets.

(** The configuration that [save_state] writes. *)
Definition saved_config `{!PythonLib} (timeout : float) (max_workers auto_refresh : Z)
    (sec : dict string) : config :=
  [("SETTINGS", [("TIMEOUT_SECONDS", str_float timeout);
                 ("MAX_WORKERS", str_int max_workers);
                 ("AUTO_REFRESH_SECONDS", str_int auto_refresh)]);
   ("TARGETS", sec)].



(** An instance of the library interface to compute with: every float
    prints as [5.0], and the file holds the configuration itself. *)
Definition plain_lib : PythonLib.
Proof.
  refine {| str_float := λ _, "5.0";
            float_of_str := λ _, Some float_5;
            ini_text := config;
            ini_write := λ cfg, cfg;
            ini_read := λ text, Return text;
            before_set := string_forall ini_value_char |}.
  - intros _. reflexivity.
  - intros v Hv. exact Hv.
  - intros cfg _. reflexivity.
Defined.

(** ** Statements about the target list *)

(** The targets that [delete_row] keeps: those that differ from the row's
    target in name, host or port. *)
Definition remaining `{!PythonLib} (a : App) (row : nat) : list nat :=
  List.filter
    (λ t, negb (same_target (heap a !!! t) (heap a !!! target (row_heap a !!! row))))
    (targets a).

(** Deleting takes effect whenever it is asked for. *)
Definition delete_always_permitted : Prop :=
  ∀ (L : PythonLib) (INI_PATH : string) (a : App) (row : nat),
    targets (exec (delete_row INI_PATH row) a) = remaining a row.

(** The targets behind the rows, in order. *)
Definition row_targets `{!PythonLib} (a : App) : list nat :=
  (λ r, target (row_heap a !!! r)) <$> rows a.

(** ** Example states *)

Definition web : Target := mkTarget "web" "example.com" 443.
Definition db : Target := mkTarget "db" "10.0.0.5" 5432.

Definition row_of (t : nat) (tg : Target) : TargetRow :=
  mkRow t (name tg) (host tg) (str_int (port tg)) Dash true true.

(** Two targets with their rows and a third [Target] object, named like
    the first, that is in no list yet; no scan is running and no timer is
    set. *)
Definition example_app : @App plain_lib :=
  {| heap := <[0%nat := web]> (<[1%nat := db]> (<[2%nat := web]> ∅));
     row_heap := <[0%nat := row_of 0 web]> (<[1%nat := row_of 1 db]> ∅);
     submitted := ∅;
     next_future := 0;
     timeout := float_5;
     max_workers := 10;
     auto_refresh_seconds := 0;
     targets := [0%nat; 1%nat];
     rows := [0%nat; 1%nat];
     executor := 10;
     refresh_in_progress := false;
     _auto_after_id := None;
     meta_label := None;
     add_btn := true;
     settings_button := true;
     refresh_button := true;
     add_dialog := false;
     tk_now := 0;
     tk_next_id := 0;
     tk_pending := ∅;
     disk := ∅;
     workers := 0 |}.

(** The same while a scan is running. *)
Definition busy_app : @App plain_lib := refresh_async example_app.

(** ** Statements about the timer *)

(** What the timer is made of. *)
Definition timer_view `{!PythonLib} (a : App)
    : gmap nat (Z * callback) * option nat * Z * Z * nat :=
  (tk_pending a, _auto_after_id a, auto_refresh_seconds a, tk_now a, tk_next_id a).

(** A firing of [_auto_refresh_tick] is pending under [id], due at [due]. *)
Definition tick_pending `{!PythonLib} (a : App) (id : nat) (due : Z) : Prop :=
  tk_pending a !! id = Some (due, auto_refresh_tick_cb).

(** Every pending firing is the one [_auto_after_id] remembers. *)
Definition one_timer `{!PythonLib} (a : App) : Prop :=
  ∀ id due, tick_pending a id due → _auto_after_id a = Some id.

(** The timer as [_schedule_auto_refresh] leaves it at time [now]: with a
    positive interval exactly one firing is pending, an interval from
    [now], and it is the one remembered; otherwise none is pending and none
    is remembered. *)
Definition programmed `{!PythonLib} (a : App) (now : Z) : Prop :=
  if bool_decide (0 < auto_refresh_seconds a)%Z then
    ∃ id, _auto_after_id a = Some id
          ∧ ∀ id' due, tick_pending a id' due
                       ↔ id' = id ∧ due = (now + auto_refresh_seconds a * 1000)%Z
  else _auto_after_id a = None ∧ ∀ id due, ¬ tick_pending a id due.

(** The example with an interval of five seconds, the timer set at time 0. *)
Definition ticking_app : @App plain_lib :=
  _schedule_auto_refresh (with_auto_refresh_seconds 5 example_app).

(** ** Statements about a scan *)

(** From [a] to [b] no object that existed has changed in what a scan reads
    of it: every [Target] is as it was, and every row has its target and the
    texts of its name, host and port labels. *)
Definition rows_kept `{!PythonLib} (a b : App) : Prop :=
  ∀ r row, row_heap a !! r = Some row →
    ∃ row', row_heap b !! r = Some row' ∧ target row' = target row
            ∧ name_label row' = name_label row ∧ host_label row' = host_label row
            ∧ port_label row' = port_label row.

Definition objects_kept `{!PythonLib} (a b : App) : Prop :=
  heap a ⊆ heap b ∧ rows_kept a b.

(** The pool's futures are as they were. *)
Definition pool_kept `{!PythonLib} (a b : App) : Prop :=
  next_future b = next_future a ∧ submitted b = submitted a.

Definition kept `{!PythonLib} (a b : App) : Prop :=
  objects_kept a b ∧ pool_kept a b.

(** A method of a row that leaves its target and its three texts alone. *)
Definition keeps_row (f : TargetRow → TargetRow) : Prop :=
  ∀ r, target (f r) = target r ∧ name_label (f r) = name_label r
       ∧ host_label (f r) = host_label r ∧ port_label (f r) = port_label r.

(** The rows of [a] are objects of the store, and so are their targets. *)
Definition rows_present `{!PythonLib} (a : App) : Prop :=
  ∀ r, r ∈ rows a →
    ∃ row tg, row_heap a !! r = Some row ∧ heap a !! target row = Some tg.

(** The host and the port of the target behind a row. *)
Definition endpoint `{!PythonLib} (a : App) (row : nat) : string * Z :=
  let tg := heap a !!! target (row_heap a !!! row) in (host tg, port tg).

(** An environment in which the pool takes every probe and no future is
    cancelled; the probes meet [w] and complete in the order given. *)
Definition calm_env (w : Probe.World) (order : list nat → list nat) : WorkerEnv :=
  mkEnv (λ _, None) (λ _, w) (λ _, false) order.


(** The entry of the batch that future [fut] gives once it has a result. *)
Definition entry `{!PythonLib} (env : WorkerEnv) (a : App) (futures : gmap nat nat)
    (fut : nat) : result :=
  match future_result env a fut with
  | Return (status, latency) => (futures !!! fut, status, latency)
  | Raise _ => (futures !!! fut, "", None)
  end.

(** The Tk thread at work during a scan: before the worker's second
    [submit] the settings are applied and ten milliseconds pass. *)
Definition meddling_sched : nat → list MainOp :=
  λ i, if bool_decide (i = 1%nat)
       then [settings_apply (float_of_Z 1) 20 0; time_passes 10]
       else [].

(** Futures complete in the reverse of the order they were given in. *)
Definition reversed_env : WorkerEnv :=
  calm_env Probe.accepting_world reverse.

(** * The dialogs, start-up and shutdown

    The rest of [main.py] that carries behaviour: the two dialogs with
    their validation, [App.open_settings], [App.__init__] and
    [App.on_close]. *)

(** ** [AddTargetDialog] *)

Module AddTargetDialog.

(** The dialog: what the user has typed into the three entries, the error
    label with its text and whether [pack] manages it, and whether the
    window has been destroyed. *)
Record widget := mk {
  name_entry : string;    (* [self.name.get()] *)
  host_entry : string;    (* [self.host.get()] *)
  port_entry : string;    (* [self.port.get()] *)
  error : string;         (* the text of [self.error] *)
  error_packed : bool;    (* [self.error.winfo_manager()] is not empty *)
  destroyed : bool
}.

(** The entries are empty, the error label is empty and packed. *)
Definition __init__ : widget := mk "" "" "" "" true false.

(** [self.error.pack_forget()] *)
Definition pack_forget (d : widget) : widget :=
  mk (name_entry d) (host_entry d) (port_entry d) (error d) false (destroyed d).

(** [self.error.configure(text=text)] *)
Definition configure_error (text : string) (d : widget) : widget :=
  mk (name_entry d) (host_entry d) (port_entry d) text (error_packed d) (destroyed d).

Definition destroy (d : widget) : widget :=
  mk (name_entry d) (host_entry d) (port_entry d) (error d) (error_packed d) true.

Section Methods.
Context `{!PythonLib}.
Variable INI_PATH : string.

(** [on_submit] is [App.add_target]; the [Target] it is given is a new
    object.  When [add_target] raises, [self.destroy()] is not reached. *)
Definition _submit (d : widget) (a : App) : py_result unit * widget * App :=
  let d := if error_packed d then pack_forget d else d in
  let name := strip (name_entry d) in
  let host := strip (host_entry d) in
  let port_str := strip (port_entry d) in
  if bool_decide (name = "") then
    (Return tt, configure_error "Name is required." d, a)
  else if bool_decide (host = "") then
    (Return tt, configure_error "Host is required." d, a)
  else
    match py_int port_str with
    | None =>
        (Return tt, configure_error "Port must be a number from 1 to 65535." d, a)
    | Some port =>
        if negb ((1 <=? port)%Z && (port <=? 65535)%Z) then
          (Return tt, configure_error "Port must be a number from 1 to 65535." d, a)
        else
          let t := fresh (dom (heap a)) in
          let a := with_heap (<[t := mkTarget name host port]> (heap a)) a in
          match add_target INI_PATH t a with
          | (Return _, a) => (Return tt, destroy d, a)
          | (Raise e, a) => (Raise e, d, a)
          end
    end.

End Methods.

End AddTargetDialog.

(** ** [SettingsDialog] *)

Module SettingsDialog.

Record widget := mk {
  timeout_entry : string;        (* [self.timeout.get()] *)
  max_workers_entry : string;    (* [self.max_workers.get()] *)
  auto_refresh_entry : string;   (* [self.auto_refresh.get()] *)
  error : string;                (* the text of [self.error] *)
  destroyed : bool
}.

(** [self.error.configure(text=text)] *)
Definition configure_error (text : string) (d : widget) : widget :=
  mk (timeout_entry d) (max_workers_entry d) (auto_refresh_entry d) text (destroyed d).

Definition destroy (d : widget) : widget :=
  mk (timeout_entry d) (max_workers_entry d) (auto_refresh_entry d) (error d) true.

Section Methods.
Context `{!PythonLib}.
Variable INI_PATH : string.

(** Each entry starts with [str(initial)]. *)
Definition __init__ (timeout : float) (max_workers auto_refresh : Z) : widget :=
  mk (str_float timeout) (str_int max_workers) (str_int auto_refresh) "" false.

(** [on_apply] is [App.apply_settings].  The test [timeout <= 0] is the
    comparison of floats, which is false for a NaN. *)
Definition _apply (d : widget) (a : App) : py_result unit * widget * App :=
  let bad_timeout := configure_error "Timeout must be a positive number." d in
  let bad_workers := configure_error "Max workers must be an integer from 1 to 500." d in
  let bad_refresh := configure_error "Auto refresh must be 0 or a positive integer." d in
  match float_of_str (strip (timeout_entry d)) with
  | None => (Return tt, bad_timeout, a)
  | Some timeout =>
      if float_leb timeout float_zero then (Return tt, bad_timeout, a)
      else
        match py_int (strip (max_workers_entry d)) with
        | None => (Return tt, bad_workers, a)
        | Some max_workers =>
            if (max_workers <? 1)%Z || (500 <? max_workers)%Z then (Return tt, bad_workers, a)
            else
              match py_int (strip (auto_refresh_entry d)) with
              | None => (Return tt, bad_refresh, a)
              | Some auto_refresh =>
                  if (auto_refresh <? 0)%Z then (Return tt, bad_refresh, a)
                  else
                    match apply_settings INI_PATH timeout max_workers auto_refresh a with
                    | (Return _, a) => (Return tt, destroy d, a)
                    | (Raise e, a) => (Raise e, d, a)
                    end
              end
        end
  end.

End Methods.

End SettingsDialog.

(** ** [App.open_settings], [App.__init__], [App.on_close] *)

Section Lifecycle.
Context `{!PythonLib}.
Variable INI_PATH : string.

(** The dialog that [open_settings] opens; none while a scan is running. *)
Definition open_settings (a : App) : option SettingsDialog.widget :=
  if refresh_in_progress a then None
  else Some (SettingsDialog.__init__ (timeout a) (max_workers a) (auto_refresh_seconds a)).

(** [App.__init__], on the files it finds and at Tk's time [now].  The
    targets that [load_state] returns are new objects, numbered from 0.
    [ThreadPoolExecutor] raises [ValueError] for a worker count that is not
    positive. *)
Definition __init__ (now : Z) (files : Disk) : py_result App :=
  match load_state INI_PATH files with
  | Raise e => Raise e
  | Return (timeout, max_workers, auto_refresh_seconds, loaded) =>
      if (max_workers <=? 0)%Z then Raise ValueError
      else
        let a :=
          {| heap := map_seq 0 loaded;
             row_heap := ∅;
             submitted := ∅;
             next_future := 0;
             timeout := timeout;
             max_workers := max_workers;
             auto_refresh_seconds := auto_refresh_seconds;
             targets := seq 0 (length loaded);
             rows := [];
             executor := max_workers;
             refresh_in_progress := false;
             _auto_after_id := None;
             meta_label := None;
             add_btn := true;
             settings_button := true;
             refresh_button := true;
             add_dialog := false;
             tk_now := now;
             tk_next_id := 0;
             tk_pending := ∅;
             disk := files;
             workers := 0 |} in
        Return (_schedule_auto_refresh (refresh_async (rebuild_rows a)))
  end.

(** [on_close]: an exception of [persist] is dropped; then the pool is shut
    down and the window destroyed, after which nothing of the state is used
    but the files. *)
Definition on_close (a : App) : App := exec (persist INI_PATH) a.

End Lifecycle.

(** ** Statements about the dialogs and the life cycle *)

(** A target as the dialog and [load_state] let it in: name and host are
    not empty and have no blank at either end, the port is in range. *)
Definition well_formed (t : Target) : Prop :=
  name t ≠ "" ∧ strip (name t) = name t
  ∧ host t ≠ "" ∧ strip (host t) = host t
  ∧ (1 ≤ port t ≤ 65535)%Z.

(** The target list refers to objects of the store, each once; the names
    are pairwise distinct and every target is well formed. *)
Definition targets_ok `{!PythonLib} (a : App) : Prop :=
  NoDup (names a)
  ∧ (∀ t, t ∈ targets a → is_Some (heap a !! t))
  ∧ Forall well_formed (target_values a).

(** Every row of the list is a live widget. *)
Definition rows_alive `{!PythonLib} (a : App) : Prop :=
  ∀ r, r ∈ rows a → alive (row_heap a !!! r) = true.

(** A row as [TargetRow.__init__] builds it for the target object [t]. *)
Definition fresh_row `{!PythonLib} (a : App) (t : nat) (row : TargetRow) : Prop :=
  target row = t
  ∧ name_label row = name (heap a !!! t)
  ∧ host_label row = host (heap a !!! t)
  ∧ port_label row = str_int (port (heap a !!! t))
  ∧ status_label row = Dash ∧ delete_btn row = true ∧ alive row = true.

(** The settings are such as [SettingsDialog._apply] lets through. *)
Definition settings_in_bounds `{!PythonLib} (a : App) : Prop :=
  float_leb (timeout a) float_zero = false
  ∧ (1 ≤ max_workers a ≤ 500)%Z
  ∧ (0 ≤ auto_refresh_seconds a)%Z.

(** The three messages of [AddTargetDialog]. *)
Definition add_errors : list string :=
  ["Name is required."; "Host is required."; "Port must be a number from 1 to 65535."].

(** The three messages of [SettingsDialog]. *)
Definition settings_errors : list string :=
  ["Timeout must be a positive number.";
   "Max workers must be an integer from 1 to 500.";
   "Auto refresh must be 0 or a positive integer."].

(** An instance of the library interface in which [float] reads [5.0] and
    nothing else. *)
Definition picky_lib : PythonLib.
Proof.
  refine {| str_float := λ _, "5.0";
            float_of_str := λ s, if bool_decide (s = "5.0") then Some float_5 else None;
            ini_text := config;
            ini_write := λ cfg, cfg;
            ini_read := λ text, Return text;
            before_set := string_forall ini_value_char |}.
  - intros _. reflexivity.
  - intros v Hv. exact Hv.
  - intros cfg _. reflexivity.
Defined.

(** No caller of [refresh_async] is blocked for good: whoever waits for the
    lock waits for a caller that can move. *)
Definition never_stuck (s : SingleFlight.State) : Prop :=
  ∀ t, is_Some (SingleFlight.pcs s !! t) →
    SingleFlight.step (SingleFlight.Run t) s = None →
    ∃ t', SingleFlight.lock s = Some t' ∧ t' ≠ t
          ∧ is_Some (SingleFlight.step (SingleFlight.Run t') s).

(** The example with a third target object whose host has a [%] in it,
    which [ConfigParser] refuses to store. *)
Definition percent_app : @App plain_lib :=
  with_heap (<[2%nat := mkTarget "cache" "50%" 80]> (heap example_app)) example_app.

(** The scan flag, the three buttons, the pool and the worker count. *)
Definition controls_view `{!PythonLib} (a : App) : bool * bool * bool * bool * Z * Z :=
  (refresh_in_progress a, refresh_button a, add_btn a, settings_button a,
   executor a, max_workers a).

(** The three buttons are enabled exactly while no scan is in progress. *)
Definition controls_ok `{!PythonLib} (a : App) : Prop :=
  refresh_button a = negb (refresh_in_progress a)
  ∧ add_btn a = negb (refresh_in_progress a)
  ∧ settings_button a = negb (refresh_in_progress a).

(** The pool has as many workers as the settings say, and that is a
    positive number. *)
Definition pool_ok `{!PythonLib} (a : App) : Prop :=
  executor a = max_workers a ∧ (0 < max_workers a)%Z.

(** The three settings as [apply_settings] assigns them at its start. *)
Definition settings_assigned `{!PythonLib} (new_timeout : float)
    (new_max_workers new_auto_refresh : Z) (a : App) : App :=
  with_auto_refresh_seconds new_auto_refresh
    (with_max_workers new_max_workers (with_timeout new_timeout a)).

(** The operations of the Tk thread that ask for no pool without workers:
    [ThreadPoolExecutor] takes a positive worker count only. *)
Definition pool_takes (op : MainOp) : Prop :=
  match op with
  | settings_apply _ new_max_workers _ => (0 < new_max_workers)%Z
  | _ => True
  end.

(** The settings as [apply_settings] has assigned them, with the pool
    replaced when the worker count has changed, before it saves. *)
Definition assigned `{!PythonLib} (new_timeout : float) (new_max_workers new_auto_refresh : Z)
    (a : App) : App :=
  let b := with_auto_refresh_seconds new_auto_refresh
             (with_max_workers new_max_workers (with_timeout new_timeout a)) in
  if bool_decide (new_max_workers ≠ max_workers a) then with_executor new_max_workers b else b.

(** The rows of the list are pairwise distinct live widgets of the store
    whose targets are objects of the store, and so are the targets of the
    list. *)
Definition rows_ok `{!PythonLib} (a : App) : Prop :=
  NoDup (rows a)
  ∧ (∀ r, r ∈ rows a →
       ∃ rec, row_heap a !! r = Some rec ∧ alive rec = true
              ∧ target rec ∈ dom (heap a))
  ∧ (∀ t, t ∈ targets a → t ∈ dom (heap a)).

(** From [a] to [b] every row object has kept its target and is live if
    it was. *)
Definition rows_carried `{!PythonLib} (a b : App) : Prop :=
  ∀ r rec, row_heap a !! r = Some rec →
    ∃ rec', row_heap b !! r = Some rec' ∧ target rec' = target rec
            ∧ alive rec' = alive rec.

(** * Proofs *)

(** ** Floats: the sign of a difference of clock readings *)

Lemma not_negative_leb x : not_negative x ↔ float_leb float_zero x = true.
Proof.
  unfold float_leb, SFleb.
  destruct x as [[]|[]| |[] ? ?]; simpl; split; intros; try done.
Qed.

(** [SpecFloat] is written with the integer operations of the core library;
    this puts them in the form the arithmetic tactics know. *)
Ltac std_Z :=
  change IntDef.Z.add with Z.add in *; change IntDef.Z.sub with Z.sub in *;
  change IntDef.Z.opp with Z.opp in *; change IntDef.Z.mul with Z.mul in *;
  change IntDef.Z.min with Z.min in *; change IntDef.Z.max with Z.max in *;
  change IntDef.Z.leb with Z.leb in *; change IntDef.Z.eqb with Z.eqb in *;
  change IntDef.Z.compare with Z.compare in *;
  change PosDef.Pos.compare_cont with Pos.compare_cont in *.

Lemma shr_1_nonneg mrs : 0 ≤ shr_m mrs → 0 ≤ shr_m (shr_1 mrs).
Proof. destruct mrs as [[|[p|p|]|[p|p|]] r s]; simpl; lia. Qed.

Lemma iter_pos_shr_1_nonneg p mrs :
  0 ≤ shr_m mrs → 0 ≤ shr_m (SpecFloat.iter_pos shr_1 p mrs).
Proof.
  revert mrs. induction p as [p IH|p IH|]; intros mrs Hm; simpl.
  - apply IH, IH, shr_1_nonneg, Hm.
  - apply IH, IH, Hm.
  - apply shr_1_nonneg, Hm.
Qed.

Lemma shr_fexp_nonneg m e l :
  0 ≤ m → 0 ≤ shr_m (shr_fexp prec emax m e l).1.
Proof.
  intros Hm. unfold shr_fexp, shr.
  assert (shr_m (shr_record_of_loc m l) = m) as Hrec.
  { destruct l as [|[]]; reflexivity. }
  destruct (fexp prec emax (Zdigits2 m + e) - e); simpl; try lia.
  apply iter_pos_shr_1_nonneg. lia.
Qed.

Lemma round_nearest_even_nonneg m l : 0 ≤ m → 0 ≤ round_nearest_even m l.
Proof. destruct l as [|[]]; simpl; try lia. destruct (Z.even m); lia. Qed.

Lemma binary_round_aux_not_negative m e l :
  0 ≤ m → not_negative (binary_round_aux prec emax false m e l).
Proof.
  intros Hm. unfold binary_round_aux.
  pose proof (shr_fexp_nonneg m e l Hm) as H1.
  destruct (shr_fexp prec emax m e l) as [mrs' e']. simpl in H1.
  pose proof (shr_fexp_nonneg _ e' loc_Exact
                (round_nearest_even_nonneg _ (loc_of_shr_record mrs') H1)) as H2.
  destruct (shr_fexp prec emax _ e' loc_Exact) as [mrs'' e'']. simpl in H2.
  destruct (shr_m mrs''); simpl; try done; try lia.
  by destruct (e'' <=? emax - prec).
Qed.

Lemma binary_normalize_not_negative m e :
  0 ≤ m → not_negative (binary_normalize prec emax m e false).
Proof.
  intros Hm. destruct m as [|p|p]; simpl; [done| |lia].
  unfold binary_round. destruct (shl_align _ _ _) as [mz ez].
  by apply binary_round_aux_not_negative.
Qed.

Lemma iter_xO_pow m d : Zpos (Pos.iter xO m d) = Zpos m * 2 ^ Zpos d.
Proof.
  induction d as [|d IH] using Pos.peano_ind.
  - simpl. lia.
  - rewrite Pos.iter_succ, Pos2Z.inj_xO, IH, Pos2Z.inj_succ, Z.pow_succ_r by lia. lia.
Qed.

Lemma shl_align_fst m e ez :
  ez ≤ e → Zpos (shl_align m e ez).1 = Zpos m * 2 ^ (e - ez).
Proof.
  intros Hle. unfold shl_align.
  destruct (ez - e) as [|d|d] eqn:Hd; simpl.
  - replace (e - ez) with 0 by lia. lia.
  - lia.
  - rewrite iter_xO_pow. f_equal. f_equal. lia.
Qed.

Lemma digits2_pos_bounds m :
  2 ^ (Zpos (digits2_pos m) - 1) ≤ Zpos m < 2 ^ Zpos (digits2_pos m).
Proof.
  induction m as [m IH|m IH|]; simpl digits2_pos.
  - rewrite Pos2Z.inj_succ.
    replace (Z.succ (Zpos (digits2_pos m)) - 1) with (Z.succ (Zpos (digits2_pos m) - 1)) by lia.
    rewrite !Z.pow_succ_r by lia. lia.
  - rewrite Pos2Z.inj_succ.
    replace (Z.succ (Zpos (digits2_pos m)) - 1) with (Z.succ (Zpos (digits2_pos m) - 1)) by lia.
    rewrite !Z.pow_succ_r by lia. lia.
  - simpl. lia.
Qed.

(** Two valid binary64 mantissas, the first with the smaller exponent: the
    first float is the smaller one. *)
Lemma bounded_lt m0 e0 m1 e1 :
  bounded prec emax m0 e0 = true → bounded prec emax m1 e1 = true →
  e0 < e1 → Zpos m0 ≤ Zpos m1 * 2 ^ (e1 - e0).
Proof.
  unfold bounded, canonical_mantissa, fexp, emin, prec, emax.
  intros [H0 _]%andb_true_iff [H1 _]%andb_true_iff Hlt.
  apply Z.eqb_eq in H0, H1.
  pose proof (digits2_pos_bounds m0) as [_ Hu].
  pose proof (digits2_pos_bounds m1) as [Hl _].
  set (d0 := Zpos (digits2_pos m0)) in *. set (d1 := Zpos (digits2_pos m1)) in *.
  assert (0 < d0) by (unfold d0; lia). assert (0 < d1) by (unfold d1; lia).
  assert (d0 + e0 < d1 + e1) as Hd by lia.
  assert (2 ^ d0 ≤ 2 ^ (d1 - 1) * 2 ^ (e1 - e0)).
  { rewrite <- Z.pow_add_r by lia. apply Z.pow_le_mono_r; lia. }
  assert (0 < 2 ^ (e1 - e0)) by (apply Z.pow_pos_nonneg; lia).
  nia.
Qed.

Lemma aligned_le m0 e0 m1 e1 :
  bounded prec emax m0 e0 = true → bounded prec emax m1 e1 = true →
  e0 < e1 ∨ (e0 = e1 ∧ Zpos m0 ≤ Zpos m1) →
  Zpos (shl_align m0 e0 (Z.min e1 e0)).1 ≤ Zpos (shl_align m1 e1 (Z.min e1 e0)).1.
Proof.
  intros B0 B1 Hord. rewrite !shl_align_fst by lia.
  destruct Hord as [Hlt|[-> Hle]].
  - rewrite Z.min_r by lia. rewrite Z.sub_diag, Z.mul_1_r.
    by apply bounded_lt.
  - rewrite Z.min_id, Z.sub_diag. lia.
Qed.

Lemma compare_cont_Eq_le m0 m1 :
  Pos.compare_cont Eq m0 m1 ≠ Gt → Zpos m0 ≤ Zpos m1.
Proof.
  change (Pos.compare_cont Eq m0 m1) with (Pos.compare m0 m1). intros H.
  apply Pos2Z.pos_le_pos. by apply Pos.compare_le_iff.
Qed.

Lemma compare_cont_Eq_ge m0 m1 :
  CompOpp (Pos.compare_cont Eq m0 m1) ≠ Gt → Zpos m1 ≤ Zpos m0.
Proof.
  change (Pos.compare_cont Eq m0 m1) with (Pos.compare m0 m1). intros H.
  apply Pos2Z.pos_le_pos.
  destruct (Pos.compare_spec m0 m1) as [->| |]; simpl in H; [reflexivity|done|].
  by apply Pos.lt_le_incl.
Qed.

(** The clock does not run backwards, so the difference of two readings is
    not negative. *)
Lemma float_sub_not_negative t0 t1 :
  is_finite t0 = true → is_finite t1 = true →
  is_binary64 t0 = true → is_binary64 t1 = true →
  float_leb t0 t1 = true → not_negative (float_sub t1 t0).
Proof.
  unfold float_leb, SFleb, float_sub, is_binary64.
  destruct t0 as [s0| | |s0 m0 e0], t1 as [s1| | |s1 m1 e1];
    try (simpl; done).
  - by destruct s0, s1.
  - simpl. by destruct s1.
  - simpl. by destruct s0.
  - intros _ _ B0 B1 Hcmp. simpl in B0, B1. unfold SFsub.
    apply binary_normalize_not_negative.
    destruct s0, s1; simpl in Hcmp; unfold cond_Zopp; std_Z; [|lia|done|].
    + assert (e1 < e0 ∨ (e1 = e0 ∧ Zpos m1 ≤ Zpos m0)) as Hord.
      { destruct (Z.compare_spec e0 e1); try done; [right|left; lia].
        split; [lia|]. apply compare_cont_Eq_ge.
        by destruct (CompOpp (Pos.compare_cont Eq m0 m1)). }
      pose proof (aligned_le m1 e1 m0 e0 B1 B0 Hord) as Hle.
      rewrite (Z.min_comm e0 e1) in Hle. lia.
    + assert (e0 < e1 ∨ (e0 = e1 ∧ Zpos m0 ≤ Zpos m1)) as Hord.
      { destruct (Z.compare_spec e0 e1); try done; [right|left; lia].
        split; [lia|]. apply compare_cont_Eq_le.
        by destruct (Pos.compare_cont Eq m0 m1). }
      pose proof (aligned_le m0 e0 m1 e1 B0 B1 Hord) as Hle. lia.
Qed.

Lemma float_mul_1000_not_negative x :
  not_negative x → not_negative (float_mul x float_1000).
Proof.
  destruct x as [s|s| |s m e]; simpl; try done.
  - intros ->. reflexivity.
  - intros ->. unfold float_mul, float_1000, SFmul. simpl xorb.
    apply binary_round_aux_not_negative. lia.
Qed.

(** ** Text *)

Lemma append_cons c (a b : string) : String c a +:+ b = String c (a +:+ b).
Proof. reflexivity. Qed.

Lemma append_nil_l (b : string) : "" +:+ b = b.
Proof. reflexivity. Qed.

(** Stepping [++] on strings through a constructor. *)
Ltac app_step := rewrite ?append_cons, ?append_nil_l in *; simpl in *.

Lemma append_assoc (a b c : string) : (a +:+ b) +:+ c = a +:+ (b +:+ c).
Proof. induction a as [|x a IH]; app_step; [done|by rewrite IH]. Qed.

Lemma append_nil_r (a : string) : a +:+ "" = a.
Proof. induction a as [|x a IH]; app_step; [done|by rewrite IH]. Qed.

Lemma string_forall_app P a b :
  string_forall P (a +:+ b) = string_forall P a && string_forall P b.
Proof. induction a as [|x a IH]; app_step; [done|]. rewrite IH. by rewrite andb_assoc. Qed.

Lemma string_forall_impl (P Q : ascii → bool) s :
  (∀ c, P c = true → Q c = true) → string_forall P s = true → string_forall Q s = true.
Proof.
  intros HPQ. induction s as [|c s IH]; simpl; [done|].
  intros [Hc Hs]%andb_true_iff. rewrite (HPQ _ Hc). simpl. by apply IH.
Qed.

Lemma contains_forall c s :
  string_forall (λ d, negb (bool_decide (d = c))) s = true → contains c s = false.
Proof.
  induction s as [|d s IH]; simpl; [done|].
  intros [Hd Hs]%andb_true_iff. apply negb_true_iff in Hd. rewrite Hd. by apply IH.
Qed.

Lemma contains_app_r c a b : contains c b = true → contains c (a +:+ b) = true.
Proof. intros Hb. induction a as [|d a IH]; app_step; [done|]. rewrite IH. apply orb_true_r. Qed.

Lemma rsplit1_absent c s : contains c s = false → rsplit1 c s = None.
Proof.
  induction s as [|d s IH]; simpl; [done|].
  intros [Hd Hs]%orb_false_iff. rewrite (IH Hs). by rewrite Hd.
Qed.

(** Splitting at the last separator gives back the two parts. *)
Lemma rsplit1_app c a b :
  contains c b = false → rsplit1 c (a +:+ String c b) = Some (a, b).
Proof.
  intros Hb. induction a as [|d a IH]; app_step.
  - rewrite (rsplit1_absent _ _ Hb). by rewrite bool_decide_eq_true_2.
  - by rewrite IH.
Qed.

Lemma length_lstrip s : (String.length (lstrip s) ≤ String.length s)%nat.
Proof. induction s as [|c s IH]; simpl; [done|]. destruct (isspace c); simpl; lia. Qed.

Lemma length_rstrip s : (String.length (rstrip s) ≤ String.length s)%nat.
Proof.
  induction s as [|c s IH]; simpl; [done|].
  destruct (rstrip s); [destruct (isspace c)|]; simpl in *; lia.
Qed.

Lemma rstrip_app a b : b ≠ "" → rstrip b = b → rstrip (a +:+ b) = a +:+ b.
Proof.
  intros Hne Hb. induction a as [|c a IH]; app_step; [done|].
  rewrite IH. destruct (a +:+ b) eqn:E; [|done].
  destruct a; app_step; [done|discriminate].
Qed.

Lemma rstrip_forall s :
  string_forall (λ c, negb (isspace c)) s = true → rstrip s = s.
Proof.
  induction s as [|c s IH]; simpl; [done|].
  intros [Hc Hs]%andb_true_iff. rewrite (IH Hs). apply negb_true_iff in Hc.
  rewrite Hc. by destruct s.
Qed.

Lemma strip_forall s :
  string_forall (λ c, negb (isspace c)) s = true → strip s = s.
Proof.
  intros Hs. unfold strip.
  assert (lstrip s = s) as ->; [|by apply rstrip_forall].
  destruct s as [|c s]; simpl in *; [done|].
  apply andb_true_iff in Hs as [Hc _]. apply negb_true_iff in Hc. by rewrite Hc.
Qed.

(** A text that [strip] leaves alone does not begin with a blank. *)
Lemma strip_id_head c s : strip (String c s) = String c s → isspace c = false.
Proof.
  unfold strip. simpl. destruct (isspace c) eqn:Hc; [|done].
  intros Heq. pose proof (length_rstrip (lstrip s)) as H1.
  pose proof (length_lstrip s) as H2. rewrite Heq in H1. simpl in H1. lia.
Qed.

Lemma strip_id_rstrip s : strip s = s → rstrip s = s.
Proof.
  destruct s as [|c s]; [done|]. intros Hs.
  pose proof (strip_id_head _ _ Hs) as Hc.
  unfold strip in Hs. simpl in Hs. by rewrite Hc in Hs.
Qed.

Lemma strip_app a b :
  a ≠ "" → strip a = a → b ≠ "" → rstrip b = b → strip (a +:+ b) = a +:+ b.
Proof.
  intros Ha Hsa Hb Hsb. destruct a as [|c a]; [done|].
  pose proof (strip_id_head _ _ Hsa) as Hc.
  unfold strip. rewrite append_cons. simpl. rewrite Hc.
  rewrite <- append_cons. by apply rstrip_app.
Qed.

(** ** Decimal text *)

Lemma pretty_N_go_app x s : pretty_N_go x s = pretty_N_go x "" +:+ s.
Proof.
  revert s. induction (N.lt_wf_0 x) as [x _ IH]. intros s.
  destruct (decide (x = 0%N)) as [->|Hx].
  - by rewrite !pretty_N_go_0.
  - assert (x `div` 10 < x)%N as Hlt by (apply N.div_lt; lia).
    rewrite !(pretty_N_go_step x) by lia.
    rewrite (IH _ Hlt (String _ s)), (IH _ Hlt (String _ "")).
    by rewrite append_assoc.
Qed.

Lemma pretty_N_go_snoc x :
  (0 < x)%N →
  pretty_N_go x "" = pretty_N_go (x `div` 10) "" +:+ String (pretty_N_char (x `mod` 10)) "".
Proof. intros Hx. rewrite pretty_N_go_step by done. apply pretty_N_go_app. Qed.

Lemma digit_of_pretty_N_char d :
  (d < 10)%N → digit_of (pretty_N_char d) = Some (Z.of_N d).
Proof.
  intros Hd.
  assert (d = 0 ∨ d = 1 ∨ d = 2 ∨ d = 3 ∨ d = 4 ∨ d = 5 ∨ d = 6 ∨ d = 7
          ∨ d = 8 ∨ d = 9)%N as Hcases by lia.
  repeat (destruct Hcases as [->|Hcases]; [reflexivity|]). by subst.
Qed.

Lemma parse_digits_app a b acc :
  parse_digits (a +:+ b) acc = parse_digits a acc ≫= parse_digits b.
Proof.
  revert acc. induction a as [|c a IH]; intros acc; app_step; [done|].
  destruct (digit_of c); [apply IH|done].
Qed.

(** Reading the digits of [x] after a prefix worth [acc]. *)
Lemma parse_digits_go x :
  ∃ k : nat, ∀ acc,
    parse_digits (pretty_N_go x "") acc = Some (acc * 10 ^ Z.of_nat k + Z.of_N x)%Z.
Proof.
  induction (N.lt_wf_0 x) as [x _ IH].
  destruct (decide (x = 0%N)) as [->|Hx].
  - exists 0%nat. intros acc. rewrite pretty_N_go_0. simpl. f_equal. lia.
  - destruct (IH (x `div` 10)%N) as [k Hk]; [apply N.div_lt; lia|].
    exists (S k). intros acc. rewrite pretty_N_go_snoc by lia.
    rewrite parse_digits_app, Hk. simpl.
    rewrite digit_of_pretty_N_char by (apply N.mod_lt; lia). f_equal.
    rewrite Nat2Z.inj_succ, Z.pow_succ_r by lia.
    rewrite (N.div_mod x 10) at 3 by lia. lia.
Qed.

Lemma pretty_N_go_digits x : string_forall isdigit (pretty_N_go x "") = true.
Proof.
  induction (N.lt_wf_0 x) as [x _ IH].
  destruct (decide (x = 0%N)) as [->|Hx]; [done|].
  rewrite pretty_N_go_snoc by lia. rewrite string_forall_app.
  rewrite IH by (apply N.div_lt; lia). simpl.
  unfold isdigit. by rewrite digit_of_pretty_N_char by (apply N.mod_lt; lia).
Qed.

Lemma pretty_N_go_nonempty x : (0 < x)%N → pretty_N_go x "" ≠ "".
Proof.
  intros Hx. rewrite pretty_N_go_snoc by done.
  destruct (pretty_N_go (x `div` 10) ""); app_step; discriminate.
Qed.

Lemma pretty_N_digits (x : N) : string_forall isdigit (pretty x) = true.
Proof.
  unfold pretty, pretty_N. case_decide; [done|apply pretty_N_go_digits].
Qed.

Lemma pretty_N_nonempty (x : N) : pretty x ≠ "".
Proof.
  unfold pretty, pretty_N. case_decide; [done|]. apply pretty_N_go_nonempty. lia.
Qed.

Lemma parse_digits_pretty_N (x : N) : parse_digits (pretty x) 0 = Some (Z.of_N x).
Proof.
  unfold pretty, pretty_N. case_decide as Hx; [by subst|].
  destruct (parse_digits_go x) as [k Hk]. rewrite Hk. f_equal; lia.
Qed.

Lemma isdigit_not_space c : isdigit c = true → negb (isspace c) = true.
Proof.
  unfold isdigit, digit_of, isspace.
  destruct ((48 <=? N_of_ascii c) && (N_of_ascii c <=? 57))%N eqn:E; [|done].
  intros _. apply andb_true_iff in E as [?%N.leb_le ?%N.leb_le].
  apply negb_true_iff. repeat (apply orb_false_iff; split);
    try apply andb_false_iff; try (apply N.eqb_neq; lia).
  - right. apply N.leb_gt. lia.
  - right. apply N.leb_gt. lia.
Qed.

Lemma isdigit_not_char c d :
  isdigit d = false → isdigit c = true → negb (bool_decide (c = d)) = true.
Proof. intros Hd Hc. apply negb_true_iff, bool_decide_eq_false. by intros ->; congruence. Qed.

Lemma int_digits_digits s : ∀ st acc,
  string_forall isdigit s = true → s ≠ "" ∨ st = AfterDigit →
  int_digits st s acc = parse_digits s acc.
Proof.
  induction s as [|c s IH]; intros st acc Hd Hst; simpl.
  - by destruct Hst as [?| ->].
  - simpl in Hd. apply andb_true_iff in Hd as [Hc Hs].
    unfold isdigit in Hc. destruct (digit_of c) as [d|]; [|done].
    apply IH; [done|by right].
Qed.

Lemma skip_space_digit c s : isdigit c = true → skip_space (String c s) = String c s.
Proof.
  intros Hc. simpl.
  assert (int_space c = false) as ->; [|done].
  unfold isdigit, digit_of in Hc. unfold int_space.
  destruct ((48 <=? N_of_ascii c) && (N_of_ascii c <=? 57))%N eqn:E; [|done].
  apply andb_true_iff in E as [?%N.leb_le ?%N.leb_le].
  repeat (apply orb_false_iff; split); try (apply N.eqb_neq; lia).
  apply andb_false_iff. right. apply N.leb_gt. lia.
Qed.

(** [int(str(n)) == n] *)
Lemma py_int_str_int z : py_int (str_int z) = Some z.
Proof.
  unfold str_int, pretty, pretty_Z. destruct z as [|p|p].
  - reflexivity.
  - unfold pretty, pretty_positive.
    pose proof (pretty_N_digits (N.pos p)) as Hd.
    pose proof (pretty_N_nonempty (N.pos p)) as Hne.
    pose proof (parse_digits_pretty_N (N.pos p)) as Hp.
    unfold py_int. destruct (pretty (N.pos p)) as [|c s] eqn:E; [done|].
    pose proof Hd as Hd'. simpl in Hd'. apply andb_true_iff in Hd' as [Hc _].
    rewrite skip_space_digit by done.
    rewrite !bool_decide_eq_false_2; [|intros ->; by vm_compute in Hc..].
    rewrite int_digits_digits; [done|done|by left].
  - unfold pretty, pretty_positive.
    pose proof (pretty_N_digits (N.pos p)) as Hd.
    pose proof (pretty_N_nonempty (N.pos p)) as Hne.
    pose proof (parse_digits_pretty_N (N.pos p)) as Hp.
    unfold py_int. rewrite append_cons, append_nil_l. simpl.
    rewrite int_digits_digits; [by rewrite Hp|done|by left].
Qed.

Lemma str_int_not_space z :
  string_forall (λ c, negb (isspace c)) (str_int z) = true.
Proof.
  unfold str_int, pretty, pretty_Z. destruct z as [|p|p]; [done| |].
  - eapply string_forall_impl; [apply isdigit_not_space|apply pretty_N_digits].
  - rewrite append_cons, append_nil_l. simpl.
    eapply string_forall_impl; [apply isdigit_not_space|apply pretty_N_digits].
Qed.

Lemma str_int_nonempty z : str_int z ≠ "".
Proof.
  unfold str_int, pretty, pretty_Z. destruct z as [|p|p]; [done| |done].
  apply pretty_N_nonempty.
Qed.

(** The text of an integer has none of the characters that are not digits
    or a sign. *)
Lemma str_int_chars (P : ascii → bool) z :
  (∀ c, isdigit c = true → P c = true) → P "-"%char = true →
  string_forall P (str_int z) = true.
Proof.
  intros Hdig Hminus. unfold str_int, pretty, pretty_Z. destruct z as [|p|p].
  - simpl. by rewrite Hdig.
  - eapply string_forall_impl; [apply Hdig|apply pretty_N_digits].
  - rewrite append_cons, append_nil_l. simpl. rewrite Hminus. simpl.
    eapply string_forall_impl; [apply Hdig|apply pretty_N_digits].
Qed.

(** ** Persistence *)

Lemma dict_set_fresh {V} k (v : V) d :
  k ∉ dict_keys d → dict_set k v d = d ++ [(k, v)].
Proof.
  unfold dict_keys. induction d as [|[k' v'] d IH]; simpl; [done|].
  intros Hk. apply not_elem_of_cons in Hk as [Hne Hk].
  rewrite bool_decide_eq_false_2 by done. by rewrite IH.
Qed.

Lemma dict_get_app_fresh {V} k (d1 d2 : dict V) :
  k ∉ dict_keys d1 → dict_get k (d1 ++ d2) = dict_get k d2.
Proof.
  unfold dict_keys. induction d1 as [|[k' v'] d1 IH]; simpl; [done|].
  intros Hk. apply not_elem_of_cons in Hk as [Hne Hk].
  rewrite bool_decide_eq_false_2 by done. by apply IH.
Qed.

Lemma isdigit_value_char c : isdigit c = true → ini_value_char c = true.
Proof. by destruct c as [[] [] [] [] [] [] [] []]; vm_compute. Qed.

Lemma str_int_no_colon z : contains ":" (str_int z) = false.
Proof.
  apply contains_forall, str_int_chars; [|done].
  intros c Hc. apply (isdigit_not_char c ":"); done.
Qed.

Lemma storable_inv t :
  storable t = true →
  name t ≠ "" ∧ strip (name t) = name t ∧ string_forall ini_key_char (name t) = true
  ∧ host t ≠ "" ∧ strip (host t) = host t ∧ string_forall ini_value_char (host t) = true
  ∧ (1 ≤ port t ≤ 65535)%Z.
Proof.
  unfold storable, ini_plain_key, ini_plain_value.
  rewrite !andb_true_iff, !negb_true_iff, !bool_decide_eq_false, !bool_decide_eq_true.
  rewrite !Z.leb_le. tauto.
Qed.

Lemma target_value_plain t :
  storable t = true → ini_plain_value (target_value t) = true.
Proof.
  intros (_ & _ & _ & Hh & Hsh & Hch & _)%storable_inv.
  unfold ini_plain_value, target_value. apply andb_true_iff. split.
  - apply bool_decide_eq_true. rewrite append_cons, append_nil_l.
    apply strip_app; [done..|].
    apply rstrip_forall. simpl. apply str_int_not_space.
  - rewrite string_forall_app, Hch, append_cons, append_nil_l. simpl.
    apply str_int_chars; [|done].
    apply isdigit_value_char.
Qed.

Lemma target_value_strip t :
  storable t = true → strip (target_value t) = target_value t.
Proof.
  intros Ht. pose proof (target_value_plain t Ht) as Hp.
  unfold ini_plain_value in Hp. apply andb_true_iff in Hp as [Hp _].
  by apply bool_decide_eq_true in Hp.
Qed.

(** A stored target is read back as it was. *)
Lemma parse_target_value t :
  storable t = true → parse_target (name t) (target_value t) = Some t.
Proof.
  intros Ht. pose proof (storable_inv t Ht) as (Hn & Hsn & _ & Hh & Hsh & _ & Hp).
  unfold parse_target. rewrite (target_value_strip t Ht).
  unfold target_value. rewrite append_cons, append_nil_l.
  rewrite contains_app_r by done.
  simpl negb. cbv iota.
  rewrite rsplit1_app by apply str_int_no_colon.
  rewrite Hsh, (strip_forall (str_int (port t))) by apply str_int_not_space.
  rewrite py_int_str_int.
  assert ((1 <=? port t)%Z && (port t <=? 65535)%Z = true) as ->.
  { apply andb_true_iff. split; apply Z.leb_le; lia. }
  rewrite Hsn. rewrite !bool_decide_eq_false_2 by done. simpl.
  by destruct t.
Qed.

Section PersistenceProofs.
Context `{!PythonLib}.

Lemma set_targets_stored targets sec :
  NoDup (dict_keys sec ++ (name <$> targets)) →
  Forall (λ t, storable t = true) targets →
  set_targets targets sec = Return (sec ++ stored targets).
Proof.
  revert sec. induction targets as [|t ts IH]; intros sec Hnd Hst; simpl.
  - by rewrite app_nil_r.
  - inversion Hst as [|? ? Ht Hts]; subst.
    fold (target_value t).
    rewrite before_set_plain; last first.
    { pose proof (target_value_plain t Ht) as Hp.
      by apply andb_true_iff in Hp as [_ Hp]. }
    assert (name t ∉ dict_keys sec) as Hfresh.
    { apply NoDup_app in Hnd as (_ & Hdisj & _). intros Hin.
      apply (Hdisj _ Hin). simpl. left. }
    rewrite dict_set_fresh by done.
    rewrite IH; [by rewrite <- app_assoc| |done].
    unfold dict_keys in *. rewrite fmap_app, <- app_assoc. exact Hnd.
Qed.

Lemma load_stored targets :
  Forall (λ t, storable t = true) targets →
  omap (λ kv : string * string, parse_target kv.1 kv.2) (stored targets) = targets.
Proof.
  induction 1 as [|t ts Ht _ IH]; [done|].
  unfold stored. rewrite fmap_cons. cbn [omap list_omap fst snd].
  rewrite (parse_target_value t Ht). f_equal. exact IH.
Qed.

Lemma stored_plain targets :
  NoDup (name <$> targets) → Forall (λ t, storable t = true) targets →
  section_plain (stored targets) = true.
Proof.
  intros Hnd Hst. unfold section_plain. apply andb_true_iff. split.
  - apply bool_decide_eq_true. unfold dict_keys, stored.
    rewrite <- list_fmap_compose. exact Hnd.
  - apply forallb_forall. intros [k v] Hin.
    apply list_elem_of_In in Hin. unfold stored in Hin.
    apply list_elem_of_fmap in Hin as (t & Heq & Hin). injection Heq as -> ->.
    rewrite Forall_forall in Hst. specialize (Hst t Hin). cbn [fst snd].
    rewrite (target_value_plain t Hst), andb_true_r.
    unfold storable in Hst. by do 4 (apply andb_true_iff in Hst as [Hst _]).
Qed.

Lemma str_int_plain z : ini_plain_value (str_int z) = true.
Proof.
  unfold ini_plain_value. apply andb_true_iff. split.
  - apply bool_decide_eq_true, strip_forall, str_int_not_space.
  - apply str_int_chars; [|done].
    apply isdigit_value_char.
Qed.

Lemma disk_after_save (text : ini_text) path (disk : Disk) :
  path_replace (path +:+ ".tmp") path (<[path +:+ ".tmp" := text]> disk) !! path = Some text.
Proof.
  unfold path_replace. rewrite lookup_insert_eq. apply lookup_insert_eq.
Qed.

End PersistenceProofs.

Lemma saved_config_eq `{!PythonLib} (timeout : float) (max_workers auto_refresh : Z) sec :
  dict_set "TARGETS" sec
    (dict_set "TARGETS" []
       (dict_set "SETTINGS"
          [("TIMEOUT_SECONDS", str_float timeout);
           ("MAX_WORKERS", str_int max_workers);
           ("AUTO_REFRESH_SECONDS", str_int auto_refresh)] []))
  = saved_config timeout max_workers auto_refresh sec.
Proof. reflexivity. Qed.

Lemma saved_config_plain `{!PythonLib} (timeout : float) (max_workers auto_refresh : Z) targets :
  NoDup (name <$> targets) → Forall (λ t, storable t = true) targets →
  config_plain (saved_config timeout max_workers auto_refresh (stored targets)) = true.
Proof.
  intros Hnd Hst. unfold config_plain, saved_config.
  apply andb_true_iff. split; [done|].
  cbn [forallb fst snd]. rewrite (stored_plain targets Hnd Hst).
  unfold section_plain. cbn [forallb fst snd].
  rewrite str_float_plain, !str_int_plain. reflexivity.
Qed.

Lemma saved_config_get `{!PythonLib} (timeout : float) (max_workers auto_refresh : Z)
    (sec : dict string) :
  let cfg := saved_config timeout max_workers auto_refresh sec in
  cfg_get cfg "SETTINGS" "TIMEOUT_SECONDS" = Some (str_float timeout)
  ∧ cfg_get cfg "SETTINGS" "MAX_WORKERS" = Some (str_int max_workers)
  ∧ cfg_get cfg "SETTINGS" "AUTO_REFRESH_SECONDS" = Some (str_int auto_refresh)
  ∧ dict_get "TARGETS" cfg = Some sec.
Proof. repeat split. Qed.




(** ** The probe *)

Module ProbeFacts.
Import Probe.

Lemma isinstance_OSError e :
  isinstance e gaierror = true ∨ isinstance e TimeoutError = true
  ∨ isinstance e ConnectionRefusedError = true → isinstance e OSError = true.
Proof. destruct e; vm_compute; intuition congruence. Qed.

(** The classes that the handlers tell apart exclude one another. *)
Lemma handlers_exclusive e :
  (isinstance e gaierror = true → isinstance e TimeoutError = false
                                  ∧ isinstance e ConnectionRefusedError = false)
  ∧ (isinstance e TimeoutError = true → isinstance e ConnectionRefusedError = false).
Proof. destruct e; vm_compute; intuition congruence. Qed.

(** On a connection and on every [OSError] the probe returns, and what it
    returns follows the kind of failure. *)
Lemma check_tcp_open_classifies w host port timeout_seconds :
  match create_connection w host port timeout_seconds with
  | Connected =>
      ∃ ms, check_tcp_open w host port timeout_seconds = Return ("OPEN", Some ms)
  | ConnectRaises e =>
      if isinstance e gaierror
      then check_tcp_open w host port timeout_seconds = Return ("DNS_FAIL", None)
      else if isinstance e ConnectionRefusedError
      then check_tcp_open w host port timeout_seconds = Return ("CLOSED", None)
      else if isinstance e TimeoutError
      then check_tcp_open w host port timeout_seconds = Return ("TIMEOUT", None)
      else if isinstance e OSError
      then check_tcp_open w host port timeout_seconds = Return ("ERROR", None)
      else check_tcp_open w host port timeout_seconds = Raise e
  end.
Proof.
  unfold check_tcp_open.
  destruct (create_connection w host port timeout_seconds) as [|e]; [by eexists|].
  destruct e; reflexivity.
Qed.

Lemma check_tcp_open_returns w host port timeout_seconds :
  (∀ e, create_connection w host port timeout_seconds = ConnectRaises e →
        isinstance e OSError = true) →
  ∃ status latency,
    check_tcp_open w host port timeout_seconds = Return (status, latency)
    ∧ status ∈ outcomes.
Proof.
  intros Hio. unfold check_tcp_open, outcomes.
  destruct (create_connection w host port timeout_seconds) as [|e].
  - eexists _, _. split; [reflexivity|set_solver].
  - specialize (Hio e eq_refl). rewrite Hio.
    destruct (isinstance e gaierror), (isinstance e TimeoutError),
      (isinstance e ConnectionRefusedError);
      eexists _, _; (split; [reflexivity|set_solver]).
Qed.

End ProbeFacts.

Ltac in_outcomes := repeat first [apply list_elem_of_here | apply list_elem_of_further].

(** C3, at the input where the code fails it: for the host [a..b]
    (port 80, time-out one second) [create_connection] raises [UnicodeError],
    which is not an [OSError]; no handler of [check_tcp_open] takes it, and
    the probe raises instead of returning one of the five outcomes. *)
Theorem check_tcp_open_raises_on_bad_label :
  Probe.check_tcp_open Probe.idna_world "a..b" 80 (float_of_Z 1) = Raise UnicodeError
  ∧ isinstance UnicodeError OSError = false.
Proof. split; reflexivity. Qed.

(** C4: when [check_tcp_open] returns, a latency comes with the status if
    and only if the status is [OPEN], which it is exactly when
    [create_connection] has connected.  The latency is then the reading of
    the clock taken once the connection stands, less the reading taken
    before the attempt, in seconds, times one thousand, computed in
    binary64 as the code does; and, the clock not running backwards between
    its two readings, it is not negative.  The call returns unless
    [create_connection] raises outside [OSError]. *)
Theorem latency_iff_open (w : Probe.World) host port timeout_seconds :
  match Probe.check_tcp_open w host port timeout_seconds with
  | Return (status, latency) =>
      (is_Some latency ↔ status = "OPEN")
      ∧ (status = "OPEN"
         ↔ Probe.create_connection w host port timeout_seconds = Probe.Connected)
      ∧ status ∈ Probe.outcomes
      ∧ (∀ ms, latency = Some ms →
           ms = float_mul
                  (float_sub (Probe.perf_counter_connected w) (Probe.perf_counter_start w))
                  float_1000
           ∧ (is_finite (Probe.perf_counter_start w) = true →
              is_finite (Probe.perf_counter_connected w) = true →
              is_binary64 (Probe.perf_counter_start w) = true →
              is_binary64 (Probe.perf_counter_connected w) = true →
              float_leb (Probe.perf_counter_start w) (Probe.perf_counter_connected w) = true →
              float_leb float_zero ms = true))
  | Raise e =>
      Probe.create_connection w host port timeout_seconds = Probe.ConnectRaises e
      ∧ isinstance e OSError = false
  end.
Proof.
  unfold Probe.check_tcp_open, Probe.outcomes.
  destruct (Probe.create_connection w host port timeout_seconds) as [|e].
  - split_and!; [split; eauto|done|in_outcomes|].
    intros ms [= <-]. split; [done|]. intros Hf0 Hf1 Hb0 Hb1 Hle.
    apply not_negative_leb, float_mul_1000_not_negative.
    by apply float_sub_not_negative.
  - destruct (isinstance e gaierror);
      [split_and!; [split; [by intros [? ?]|done]|done|in_outcomes|done]|].
    destruct (isinstance e TimeoutError);
      [split_and!; [split; [by intros [? ?]|done]|done|in_outcomes|done]|].
    destruct (isinstance e OSError) eqn:HOS; [|done].
    destruct (isinstance e ConnectionRefusedError);
      (split_and!; [split; [by intros [? ?]|done]|done|in_outcomes|done]).
Qed.

(** One second between the two readings is a latency of [1000.0]. *)
Lemma latency_iff_open_example :
  Probe.check_tcp_open Probe.accepting_world "example.com" 443 (float_of_Z 5)
  = Return ("OPEN", Some (float_of_Z 1000))
  ∧ float_leb float_zero (float_of_Z 1000) = true.
Proof.
  assert (Probe.check_tcp_open Probe.accepting_world "example.com" 443 (float_of_Z 5)
          = Return ("OPEN", Some (float_of_Z 1000))) as Hrun by (vm_compute; reflexivity).
  split; [exact Hrun|].
  pose proof (latency_iff_open Probe.accepting_world "example.com" 443 (float_of_Z 5)) as Hlat.
  rewrite Hrun in Hlat. destruct Hlat as (_ & _ & _ & Hms).
  destruct (Hms _ eq_refl) as [_ Hpos]. apply Hpos; reflexivity.
Defined.

(** ** The target list *)

Lemma length_append (a b : string) :
  String.length (a +:+ b) = (String.length a + String.length b)%nat.
Proof. induction a as [|c a IH]; app_step; [done|by rewrite IH]. Qed.

Lemma append_inj_r (a b c : string) : a +:+ c = b +:+ c → a = b.
Proof.
  revert b. induction a as [|x a IH]; intros [|y b] Heq; app_step.
  - done.
  - apply (f_equal String.length) in Heq. simpl in Heq.
    rewrite length_append in Heq. lia.
  - apply (f_equal String.length) in Heq. simpl in Heq.
    rewrite length_append in Heq. lia.
  - injection Heq as -> Heq. f_equal. by apply IH.
Qed.

#[global] Instance numbered_inj base : Inj (=) (=) (numbered base).
Proof.
  intros n m Heq. unfold numbered in Heq.
  apply (inj (String.app base)) in Heq.
  apply (inj (String.app " (")) in Heq.
  apply append_inj_r in Heq. by apply (inj pretty) in Heq.
Qed.

(** What the renaming loop has found when it ends. *)
Lemma first_free_spec existing base fuel n r :
  first_free existing base fuel n = Some r →
  (n ≤ r)%nat ∧ (numbered base r ∉ existing)
  ∧ ∀ k, (n ≤ k < r)%nat → numbered base k ∈ existing.
Proof.
  revert n. induction fuel as [|fuel IH]; intros n; simpl; [done|].
  case_bool_decide as Hin.
  - intros (Hle & Hfree & Hbelow)%IH. split_and!; [lia|done|].
    intros k Hk. destruct (decide (k = n)) as [->|]; [done|]. apply Hbelow. lia.
  - intros [= <-]. split_and!; [lia|done|]. intros k Hk. lia.
Qed.

Lemma first_free_none existing base fuel n :
  first_free existing base fuel n = None →
  ∀ k, (n ≤ k < n + fuel)%nat → numbered base k ∈ existing.
Proof.
  revert n. induction fuel as [|fuel IH]; intros n; simpl; [intros _ k Hk; lia|].
  case_bool_decide as Hin; [|done].
  intros Hnone k Hk. destruct (decide (k = n)) as [->|]; [done|].
  apply (IH _ Hnone). lia.
Qed.

(** The renaming loop ends: among one more candidate than there are names,
    one is free. *)
Lemma first_free_total (existing : gset string) base n :
  is_Some (first_free existing base (S (size existing)) n).
Proof.
  destruct (first_free existing base (S (size existing)) n) eqn:E; [by eexists|].
  exfalso. pose proof (first_free_none _ _ _ _ E) as Hall.
  set (cands := numbered base <$> seq n (S (size existing))).
  assert (NoDup cands) as Hnd by (apply (NoDup_fmap_2 _), NoDup_seq).
  assert (list_to_set (C := gset string) cands ⊆ existing) as Hsub.
  { intros s Hs. apply elem_of_list_to_set, list_elem_of_fmap in Hs as (k & -> & Hk).
    apply Hall. apply elem_of_seq in Hk. lia. }
  apply subseteq_size in Hsub. rewrite size_list_to_set in Hsub by done.
  unfold cands in Hsub. rewrite length_fmap, length_seq in Hsub. lia.
Qed.

Section TargetListProofs.
Context `{!PythonLib}.
Variable INI_PATH : string.

Lemma foldl_keeps {A B F} (proj : A → F) (f : A → B → A) (l : list B) (a : A) :
  (∀ a x, proj (f a x) = proj a) → proj (foldl f a l) = proj a.
Proof.
  intros Hf. revert a. induction l as [|x l IH]; intros a; simpl; [done|].
  by rewrite IH, Hf.
Qed.

(** What the methods leave alone. *)
Lemma rebuild_rows_frame (a : App) :
  heap (rebuild_rows a) = heap a ∧ targets (rebuild_rows a) = targets a
  ∧ refresh_in_progress (rebuild_rows a) = refresh_in_progress a.
Proof.
  unfold rebuild_rows.
  split_and!.
  - rewrite (foldl_keeps heap) by done. simpl. by rewrite (foldl_keeps heap).
  - rewrite (foldl_keeps targets) by done. simpl. by rewrite (foldl_keeps targets).
  - rewrite (foldl_keeps refresh_in_progress) by done. simpl.
    by rewrite (foldl_keeps refresh_in_progress).
Qed.

Lemma _set_editing_enabled_frame enabled (a : App) :
  heap (_set_editing_enabled enabled a) = heap a
  ∧ targets (_set_editing_enabled enabled a) = targets a
  ∧ rows (_set_editing_enabled enabled a) = rows a.
Proof.
  unfold _set_editing_enabled.
  split_and!; [by rewrite (foldl_keeps heap)|by rewrite (foldl_keeps targets)
              |by rewrite (foldl_keeps rows)].
Qed.

Lemma refresh_async_frame (a : App) :
  heap (refresh_async a) = heap a ∧ targets (refresh_async a) = targets a.
Proof.
  unfold refresh_async. destruct (refresh_in_progress a); [done|]. simpl.
  split.
  - rewrite (foldl_keeps heap) by done.
    by destruct (_set_editing_enabled_frame false
                   (with_refresh_button false (with_refresh_in_progress true a)))
      as (-> & _).
  - rewrite (foldl_keeps targets) by done.
    by destruct (_set_editing_enabled_frame false
                   (with_refresh_button false (with_refresh_in_progress true a)))
      as (_ & -> & _).
Qed.

Lemma persist_frame (a : App) :
  heap (exec (persist INI_PATH) a) = heap a
  ∧ targets (exec (persist INI_PATH) a) = targets a
  ∧ rows (exec (persist INI_PATH) a) = rows a
  ∧ row_heap (exec (persist INI_PATH) a) = row_heap a
  ∧ refresh_in_progress (exec (persist INI_PATH) a) = refresh_in_progress a.
Proof. unfold exec, persist. by destruct (save_state _ _ _ _ _ _). Qed.

(** The part of [add_target] after the name is settled. *)
Lemma add_target_tail_frame (a : App) :
  let a' := exec (persist INI_PATH >>> lift rebuild_rows >>> lift refresh_async) a in
  heap a' = heap a ∧ targets a' = targets a.
Proof.
  unfold exec, bind, lift. destruct (persist_frame a) as (Hh & Ht & _).
  unfold exec in Hh, Ht.
  destruct (persist INI_PATH a) as [[[]|e] a1]; simpl in *; [|done].
  destruct (refresh_async_frame (rebuild_rows a1)) as (-> & ->).
  destruct (rebuild_rows_frame a1) as (-> & -> & _). done.
Qed.

Lemma names_rename (a : App) t new_name :
  t ∉ targets a → names (rename t new_name a) = names a.
Proof.
  intros Ht. unfold names, target_values, rename. simpl.
  rewrite <- !list_fmap_compose. apply list_fmap_ext. intros i x Hx. simpl.
  assert (x ≠ t) as Hne by (intros ->; apply Ht; by eapply list_elem_of_lookup_2).
  unfold lookup_total, map_lookup_total. by rewrite lookup_alter_ne.
Qed.

Lemma names_append (a : App) t :
  names (with_targets (targets a ++ [t]) a) = names a ++ [name (heap a !!! t)].
Proof. unfold names, target_values. simpl. by rewrite !fmap_app. Qed.

End TargetListProofs.

(** C9: when the names of the targets are pairwise distinct and [t] is a
    new [Target] object, the names are pairwise distinct after
    [add_target], the new target is the last of the list with the other
    entries unchanged, it keeps its name when that name is free, and
    otherwise it is renamed to ["name (n)"] for the least [n ≥ 2] that is
    free. *)
Theorem add_target_names_distinct `{!PythonLib} (INI_PATH : string) (a : App) (t : nat) :
  NoDup (names a) → t ∉ targets a → is_Some (heap a !! t) →
  let a' := exec (add_target INI_PATH t) a in
  let base := name (heap a !!! t) in
  NoDup (names a')
  ∧ targets a' = targets a ++ [t]
  ∧ names a' = names a ++ [name (heap a' !!! t)]
  ∧ (base ∉ names a → name (heap a' !!! t) = base)
  ∧ (base ∈ names a →
     ∃ n, (2 ≤ n)%nat ∧ name (heap a' !!! t) = numbered base n
          ∧ (numbered base n ∉ names a)
          ∧ ∀ k, (2 ≤ k < n)%nat → numbered base k ∈ names a).
Proof.
  intros Hnd Ht [tg Htg] a' base.
  assert (heap a !!! t = tg) as Hlook
    by (unfold lookup_total, map_lookup_total; by rewrite Htg).
  set (existing := list_to_set (names a) : gset string).
  set (a1 := if bool_decide (base ∈ existing) then
               match first_free existing base (S (size existing)) 2 with
               | Some n => rename t (numbered base n) a
               | None => a
               end
             else a).
  assert (a' = exec (persist INI_PATH >>> lift rebuild_rows >>> lift refresh_async)
                    (with_targets (targets a1 ++ [t]) a1)) as -> by reflexivity.
  pose proof (add_target_tail_frame INI_PATH (with_targets (targets a1 ++ [t]) a1))
    as [Hheap Htargets].
  unfold exec in Hheap, Htargets. cbv zeta in Hheap, Htargets.
  assert (targets a1 = targets a ∧ names a1 = names a
          ∧ (base ∉ names a → name (heap a1 !!! t) = base)
          ∧ (base ∈ names a →
             ∃ n, (2 ≤ n)%nat ∧ name (heap a1 !!! t) = numbered base n
                  ∧ (numbered base n ∉ names a)
                  ∧ ∀ k, (2 ≤ k < n)%nat → numbered base k ∈ names a))
    as (Ht1 & Hn1 & Hfree & Hused).
  { unfold a1. case_bool_decide as Hin.
    - destruct (first_free_total existing base 2) as [n Hn]. rewrite Hn.
      apply first_free_spec in Hn as (Hle & Hnin & Hbelow).
      split_and!; [done|by apply names_rename| |].
      + intros Hbase. exfalso. apply Hbase. by apply elem_of_list_to_set in Hin.
      + intros _. exists n. split_and!; [done| | |].
        * unfold rename. simpl. unfold lookup_total, map_lookup_total.
          by rewrite lookup_alter_eq, Htg.
        * intros Hc. apply Hnin. by apply elem_of_list_to_set.
        * intros k Hk. pose proof (Hbelow k Hk) as Hx.
          by apply elem_of_list_to_set in Hx.
    - split_and!; [done..|].
      intros Hbase. exfalso. apply Hin. by apply elem_of_list_to_set. }
  assert (names (exec (persist INI_PATH >>> lift rebuild_rows >>> lift refresh_async)
                   (with_targets (targets a1 ++ [t]) a1))
          = names a ++ [name (heap a1 !!! t)]) as Hnames.
  { unfold names at 1, target_values, exec. rewrite Hheap, Htargets.
    simpl. rewrite !fmap_app. simpl. f_equal.
    fold (target_values a1). fold (names a1). done. }
  unfold exec in Hnames |- *.
  split_and!.
  - rewrite Hnames. apply NoDup_app. split_and!; [done| |apply NoDup_singleton].
    intros s Hs Hs'. apply list_elem_of_singleton in Hs' as ->.
    destruct (decide (base ∈ names a)) as [Hb|Hb].
    + destruct (Hused Hb) as (n & _ & Hname & Hnin & _). rewrite Hname in Hs. done.
    + rewrite (Hfree Hb) in Hs. done.
  - rewrite Htargets. simpl. by rewrite Ht1.
  - rewrite Hnames, Hheap. done.
  - rewrite Hheap. exact Hfree.
  - rewrite Hheap. exact Hused.
Qed.

Lemma add_target_example :
  NoDup (names example_app)
  ∧ NoDup (names (exec (add_target "itpo.ini" 2) example_app))
  ∧ names (exec (add_target "itpo.ini" 2) example_app) = ["web"; "db"; "web (2)"].
Proof.
  assert (NoDup (names example_app)) as Hnd
    by (apply (bool_decide_unpack _); vm_compute; reflexivity).
  split; [exact Hnd|]. split.
  - apply (add_target_names_distinct "itpo.ini" example_app 2).
    + exact Hnd.
    + apply (bool_decide_unpack _). vm_compute. reflexivity.
    + eexists. vm_compute. reflexivity.
  - vm_compute. reflexivity.
Defined.

Section EditProofs.
Context `{!PythonLib}.
Variable INI_PATH : string.

Lemma append_rows_targets (ts : list nat) (b : App) :
  (∀ r, r ∈ rows b → r ∈ dom (row_heap b)) →
  row_targets (foldl append_row b ts) = row_targets b ++ ts
  ∧ ∀ r, r ∈ rows (foldl append_row b ts) → r ∈ dom (row_heap (foldl append_row b ts)).
Proof.
  revert b. induction ts as [|t ts IH]; intros b Hdom; simpl.
  - by rewrite app_nil_r.
  - set (r := fresh (dom (row_heap b))).
    assert (r ∉ dom (row_heap b)) as Hfresh by apply is_fresh.
    destruct (IH (append_row b t)) as [Heq Hdom'].
    { unfold append_row. simpl. fold r. rewrite dom_insert_L.
      intros r' [Hr'| ->%list_elem_of_singleton]%elem_of_app.
      - by apply elem_of_union_r, Hdom.
      - by apply elem_of_union_l, elem_of_singleton. }
    split; [|done]. rewrite Heq.
    unfold row_targets, append_row. simpl. fold r.
    rewrite fmap_app, <- app_assoc. simpl. f_equal.
    + apply list_fmap_ext. intros i r' Hr'.
      assert (r' ≠ r) as Hne.
      { intros ->. apply Hfresh, Hdom. by eapply list_elem_of_lookup_2. }
      unfold lookup_total, map_lookup_total. by rewrite lookup_insert_ne.
    + unfold lookup_total, map_lookup_total. by rewrite lookup_insert_eq.
Qed.

(** After [rebuild_rows] the rows stand for the targets, one for one. *)
Lemma rebuild_rows_targets (a : App) : row_targets (rebuild_rows a) = targets a.
Proof.
  unfold rebuild_rows.
  set (b := with_rows [] (foldl (on_row destroy) a (rows a))).
  assert (targets b = targets a) as <-
    by (unfold b; simpl; by rewrite (foldl_keeps targets)).
  destruct (append_rows_targets (targets b) b) as [-> _]; [|done].
  unfold b. simpl. intros r Hr. by apply elem_of_nil in Hr.
Qed.

End EditProofs.

(** C7 (amended): while a scan is in progress [delete_row] and
    [open_add_dialog] do nothing.  While none is in progress,
    [open_add_dialog] opens the dialog and [delete_row] removes the targets
    that agree with the row's target in name, host and port; once the
    change is saved the rows are rebuilt from the new list, which is what
    the next scan takes its snapshot of. *)
Theorem edits_wait_for_idle `{!PythonLib} (INI_PATH : string) (a : App) (row : nat) :
  (refresh_in_progress a = true →
     delete_row INI_PATH row a = (Return tt, a) ∧ open_add_dialog a = a)
  ∧ (refresh_in_progress a = false →
     let a' := exec (delete_row INI_PATH row) a in
     targets a' = remaining a row
     ∧ heap a' = heap a
     ∧ add_dialog (open_add_dialog a) = true
     ∧ ((delete_row INI_PATH row a).1 = Return tt → row_targets a' = targets a')).
Proof.
  split; intros Hflag.
  - unfold delete_row, open_add_dialog. by rewrite Hflag.
  - unfold delete_row, open_add_dialog, exec. rewrite Hflag.
    fold (remaining a row). set (a1 := with_targets (remaining a row) a).
    destruct (persist_frame INI_PATH a1) as (Hh & Ht & _).
    unfold exec in Hh, Ht. unfold bind, lift.
    destruct (persist INI_PATH a1) as [[[]|e] a2]; simpl in *.
    + destruct (rebuild_rows_frame a2) as (-> & -> & _).
      split_and!; [done..|]. intros _. by rewrite rebuild_rows_targets.
    + split_and!; done.
Qed.

Lemma edits_wait_for_idle_example :
  refresh_in_progress busy_app = true
  ∧ delete_row "itpo.ini" 0 busy_app = (Return tt, busy_app)
  ∧ refresh_in_progress example_app = false
  ∧ targets (exec (delete_row "itpo.ini" 0) example_app) = [1%nat].
Proof.
  destruct (edits_wait_for_idle "itpo.ini" busy_app 0) as [Hbusy _].
  destruct (edits_wait_for_idle "itpo.ini" example_app 0) as [_ Hidle].
  split; [reflexivity|]. split; [apply Hbusy; reflexivity|].
  split; [reflexivity|].
  destruct (Hidle eq_refl) as (Ht & _). rewrite Ht. vm_compute. reflexivity.
Defined.

(** C7 as stated fails: asked to delete a row while a scan is running,
    [delete_row] leaves the list as it is. *)
Lemma delete_refused_while_scanning : ¬ delete_always_permitted.
Proof.
  intros Hclaim. specialize (Hclaim plain_lib "itpo.ini" busy_app 0%nat).
  assert (targets (exec (delete_row "itpo.ini" 0) busy_app) = [0%nat; 1%nat]) as Hkept
    by (vm_compute; reflexivity).
  assert (remaining busy_app 0 = [1%nat]) as Hgone by (vm_compute; reflexivity).
  rewrite Hkept, Hgone in Hclaim. discriminate Hclaim.
Qed.

(** ** The auto-refresh timer *)

Section SchedulerProofs.
Context `{!PythonLib}.
Variable INI_PATH : string.

Lemma timer_view_inv (a b : App) :
  timer_view a = timer_view b →
  tk_pending a = tk_pending b ∧ _auto_after_id a = _auto_after_id b
  ∧ auto_refresh_seconds a = auto_refresh_seconds b ∧ tk_now a = tk_now b
  ∧ tk_next_id a = tk_next_id b.
Proof. unfold timer_view. intros [= ? ? ? ? ?]. done. Qed.

Lemma refresh_async_timer (a : App) : timer_view (refresh_async a) = timer_view a.
Proof.
  unfold refresh_async. destruct (refresh_in_progress a); [done|].
  change (timer_view (with_workers ?w ?x)) with (timer_view x).
  rewrite (foldl_keeps timer_view) by done.
  unfold _set_editing_enabled. by rewrite (foldl_keeps timer_view).
Qed.

Lemma persist_timer (a : App) : timer_view (exec (persist INI_PATH) a) = timer_view a.
Proof. unfold exec, persist. by destruct (save_state _ _ _ _ _ _). Qed.

(** [apply_settings] either stops at [ThreadPoolExecutor], with the three
    settings assigned, or goes on to save with the pool in place. *)
Lemma apply_settings_cases t w r (a : App) :
  (apply_settings INI_PATH t w r a = (Raise ValueError, settings_assigned t w r a)
   ∧ w ≠ max_workers a ∧ (w ≤ 0)%Z)
  ∨ (apply_settings INI_PATH t w r a
     = (persist INI_PATH >>> lift _schedule_auto_refresh >>> lift refresh_async)
         (assigned t w r a)
     ∧ (w = max_workers a ∨ (0 < w)%Z)).
Proof.
  unfold apply_settings, assigned, settings_assigned. simpl.
  case_bool_decide as Hw.
  - destruct (w <=? 0)%Z eqn:Hle.
    + left. apply Z.leb_le in Hle. done.
    + right. apply Z.leb_gt in Hle. split; [done|by right].
  - right. split; [done|]. left. by destruct (decide (w = max_workers a)); [|destruct Hw].
Qed.

Lemma one_timer_view (a b : App) : timer_view a = timer_view b → one_timer a → one_timer b.
Proof.
  intros (Hp & Hid & _)%timer_view_inv Ha id due. unfold tick_pending.
  rewrite <- Hp, <- Hid. apply Ha.
Qed.

Lemma programmed_view (a b : App) now :
  timer_view a = timer_view b → programmed a now → programmed b now.
Proof.
  intros (Hp & Hid & Hs & _)%timer_view_inv. unfold programmed, tick_pending.
  by rewrite Hp, Hid, Hs.
Qed.

Lemma one_timer_cancel (a : App) id : one_timer a → one_timer (after_cancel id a).
Proof.
  intros Ha id' due. unfold tick_pending, after_cancel. simpl.
  intros Hl. apply lookup_delete_Some in Hl as [_ Hl]. by apply (Ha id' due).
Qed.

(** The programming step proper. *)
Lemma _schedule_auto_refresh_programmed (a : App) :
  one_timer a → programmed (_schedule_auto_refresh a) (tk_now a).
Proof.
  intros Hone. unfold _schedule_auto_refresh.
  set (a1 := match _auto_after_id a with
             | Some id => with_auto_after_id None (after_cancel id a)
             | None => a
             end).
  assert (_auto_after_id a1 = None ∧ (∀ id due, ¬ tick_pending a1 id due)
          ∧ auto_refresh_seconds a1 = auto_refresh_seconds a
          ∧ tk_now a1 = tk_now a) as (Hnone & Hclear & Hsecs & Hnow).
  { unfold a1. destruct (_auto_after_id a) as [id|] eqn:Hid.
    - split_and!; [done| |done..]. intros id' due. unfold tick_pending. simpl.
      intros Hl. apply lookup_delete_Some in Hl as [Hne Hl].
      pose proof (Hone id' due Hl) as Heq. congruence.
    - split_and!; [done| |done..]. intros id' due Hl.
      pose proof (Hone id' due Hl) as Heq. congruence. }
  unfold programmed.
  destruct (decide (0 < auto_refresh_seconds a1)) as [Hpos|Hnpos].
  - assert (negb (bool_decide (auto_refresh_seconds a1 = 0))
            && (0 <? auto_refresh_seconds a1) = true) as ->.
    { apply andb_true_iff. split; [|by apply Z.ltb_lt].
      apply negb_true_iff, bool_decide_eq_false. lia. }
    unfold after. simpl. rewrite bool_decide_eq_true_2 by done.
    exists (tk_next_id a1). split; [done|].
    intros id' due. unfold tick_pending. simpl. rewrite Hnow.
    destruct (decide (id' = tk_next_id a1)) as [->|Hne].
    + rewrite lookup_insert_eq. split; [by intros [= <-]|by intros [_ ->]].
    + rewrite lookup_insert_ne by done. split; [|by intros [? _]].
      intros Hl. by destruct (Hclear id' due).
  - assert (negb (bool_decide (auto_refresh_seconds a1 = 0))
            && (0 <? auto_refresh_seconds a1) = false) as ->.
    { apply andb_false_iff. right. apply Z.ltb_ge. lia. }
    rewrite bool_decide_eq_false_2 by done. done.
Qed.

Lemma _schedule_auto_refresh_keeps (a : App) :
  auto_refresh_seconds (_schedule_auto_refresh a) = auto_refresh_seconds a
  ∧ tk_now (_schedule_auto_refresh a) = tk_now a.
Proof.
  unfold _schedule_auto_refresh.
  destruct (_auto_after_id a); simpl;
    destruct (negb _ && _); simpl; done.
Qed.

Lemma _auto_refresh_tick_programmed (a : App) :
  one_timer a → programmed (_auto_refresh_tick a) (tk_now a).
Proof.
  intros Hone. unfold _auto_refresh_tick.
  pose proof (refresh_async_timer a) as Hview.
  pose proof (timer_view_inv _ _ Hview) as (_ & _ & _ & <- & _).
  apply _schedule_auto_refresh_programmed.
  by apply (one_timer_view a).
Qed.

End SchedulerProofs.

(** C8: in a state where no firing of the tick is pending but the one the
    application remembers, [_schedule_auto_refresh] cancels it and, with a
    positive interval, sets one firing an interval from now, and with any
    other interval sets none; [apply_settings] that gets past saving leaves
    the timer so for the new interval, counted from the time of the call;
    and when the tick fires it leaves the timer so again, counted from the
    time of the firing. *)
Theorem auto_refresh_reprograms `{!PythonLib} (INI_PATH : string) (a : App) :
  one_timer a →
  programmed (_schedule_auto_refresh a) (tk_now a)
  ∧ (∀ new_timeout new_max_workers new_auto_refresh,
       let a' := exec (apply_settings INI_PATH new_timeout new_max_workers new_auto_refresh) a in
       (apply_settings INI_PATH new_timeout new_max_workers new_auto_refresh a).1 = Return tt →
       auto_refresh_seconds a' = new_auto_refresh ∧ programmed a' (tk_now a))
  ∧ (∀ id due,
       tick_pending a id due → (due ≤ tk_now a)%Z →
       programmed (fire id a) (tk_now a)).
Proof.
  intros Hone. split_and!.
  - by apply _schedule_auto_refresh_programmed.
  - intros t w r a'. unfold a', exec.
    destruct (apply_settings_cases INI_PATH t w r a) as [[-> _]|[-> _]]; [done|].
    unfold bind, lift.
    set (a0 := assigned t w r a).
    assert (tk_pending a0 = tk_pending a ∧ _auto_after_id a0 = _auto_after_id a
            ∧ auto_refresh_seconds a0 = r ∧ tk_now a0 = tk_now a)
      as (Hp0 & Hid0 & Hs0 & Hn0) by (unfold a0, assigned; by case_bool_decide).
    pose proof (persist_timer INI_PATH a0) as Hp. unfold exec in Hp.
    destruct (persist INI_PATH a0) as [[[]|e] a1]; simpl in *; [|done].
    intros _. apply timer_view_inv in Hp as (Hp1 & Hid1 & Hs1 & Hn1 & _).
    assert (one_timer a1) as Hone1.
    { intros id due. unfold tick_pending. rewrite Hp1, Hid1, Hp0, Hid0. apply Hone. }
    pose proof (_schedule_auto_refresh_programmed a1 Hone1) as Hprog.
    pose proof (refresh_async_timer (_schedule_auto_refresh a1)) as Hr.
    destruct (_schedule_auto_refresh_keeps a1) as [Hs2 _].
    split.
    + apply timer_view_inv in Hr as (_ & _ & -> & _). congruence.
    + rewrite <- Hn0, <- Hn1. by apply (programmed_view (_schedule_auto_refresh a1)).
  - intros id due Hpend Hdue. unfold fire. unfold tick_pending in Hpend.
    rewrite Hpend. rewrite (proj2 (Z.leb_le _ _) Hdue). simpl.
    change (tk_now a) with (tk_now (after_cancel id a)).
    apply _auto_refresh_tick_programmed. by apply one_timer_cancel.
Qed.

Lemma auto_refresh_reprograms_example :
  one_timer ticking_app
  ∧ programmed (_schedule_auto_refresh ticking_app) (tk_now ticking_app)
  ∧ tick_pending ticking_app 0 5000.
Proof.
  assert (one_timer ticking_app) as Hone.
  { intros id due. unfold tick_pending. simpl.
    intros Hl. apply lookup_insert_Some in Hl as [[<- _]|[_ Hl]]; [done|].
    by rewrite lookup_empty in Hl. }
  split; [exact Hone|]. split; [|reflexivity].
  by destruct (auto_refresh_reprograms "itpo.ini" ticking_app Hone) as [Hprog _].
Defined.

(** ** The Tk thread changes nothing that a running scan reads *)

Section FrameProofs.
Context `{!PythonLib}.
Variable INI_PATH : string.

Lemma kept_refl (a : App) : kept a a.
Proof.
  split; [split|split]; try done.
  intros r row Hr. by exists row.
Qed.

Lemma kept_trans (a b c : App) : kept a b → kept b c → kept a c.
Proof.
  intros [[Hh1 Hr1] [Hn1 Hs1]] [[Hh2 Hr2] [Hn2 Hs2]].
  split; [split|split].
  - by etrans.
  - intros r row Hr. destruct (Hr1 r row Hr) as (row1 & Hl1 & E1 & E2 & E3 & E4).
    destruct (Hr2 r row1 Hl1) as (row2 & Hl2 & F1 & F2 & F3 & F4).
    exists row2. split_and!; [done|congruence..].
  - congruence.
  - congruence.
Qed.

(** A state that differs from [a] in neither store nor pool. *)
Lemma kept_same (a b : App) :
  heap b = heap a → row_heap b = row_heap a → next_future b = next_future a →
  submitted b = submitted a → kept a b.
Proof.
  intros Hh Hr Hn Hs. split; [split|split]; try done.
  - by rewrite Hh.
  - intros r row Hl. exists row. by rewrite Hr.
Qed.

Lemma on_row_kept f (a : App) r : keeps_row f → kept a (on_row f a r).
Proof.
  intros Hf. split; [split|split]; try done.
  intros r' row Hl. unfold on_row. simpl.
  destruct (decide (r = r')) as [->|Hne].
  - exists (f row). rewrite lookup_alter_eq, Hl. split; [done|apply Hf].
  - exists row. by rewrite lookup_alter_ne.
Qed.

Lemma foldl_kept {B} (f : App → B → App) (l : list B) (a : App) :
  (∀ a x, kept a (f a x)) → kept a (foldl f a l).
Proof.
  intros Hf. revert a. induction l as [|x l IH]; intros a; simpl.
  - apply kept_refl.
  - eapply kept_trans; [apply Hf|apply IH].
Qed.

Lemma keeps_row_methods enabled status latency :
  keeps_row destroy ∧ keeps_row set_checking ∧ keeps_row (set_delete_enabled enabled)
  ∧ keeps_row (set_result status latency).
Proof. by split_and!; intros []. Qed.

Lemma append_row_kept (a : App) t : kept a (append_row a t).
Proof.
  split; [split|split]; try done.
  intros r row Hl. exists row. unfold append_row. simpl.
  rewrite lookup_insert_ne; [done|].
  intros <-. apply (is_fresh (dom (row_heap a))). by apply elem_of_dom.
Qed.

Lemma rebuild_rows_kept (a : App) : kept a (rebuild_rows a).
Proof.
  unfold rebuild_rows. eapply kept_trans; [|apply foldl_kept, append_row_kept].
  apply (kept_trans _ (foldl (on_row destroy) a (rows a))); [|by apply kept_same].
  apply foldl_kept. intros. by apply on_row_kept, (keeps_row_methods true "" None).
Qed.

Lemma _set_editing_enabled_kept enabled (a : App) : kept a (_set_editing_enabled enabled a).
Proof.
  unfold _set_editing_enabled.
  apply (kept_trans _ (with_settings_button enabled (with_add_btn enabled a)));
    [by apply kept_same|].
  apply foldl_kept. intros. by apply on_row_kept, (keeps_row_methods enabled "" None).
Qed.

Lemma refresh_async_kept (a : App) : kept a (refresh_async a).
Proof.
  unfold refresh_async. destruct (refresh_in_progress a); [apply kept_refl|].
  set (a1 := with_refresh_button false (with_refresh_in_progress true a)).
  set (a2 := _set_editing_enabled false a1).
  apply (kept_trans _ (foldl (on_row set_checking) a2 (rows a2))); [|by apply kept_same].
  apply (kept_trans _ a2).
  - apply (kept_trans _ a1); [by apply kept_same|apply _set_editing_enabled_kept].
  - apply foldl_kept. intros. by apply on_row_kept, (keeps_row_methods true "" None).
Qed.

Lemma persist_kept (a : App) : kept a (exec (persist INI_PATH) a).
Proof.
  unfold exec, persist. destruct (save_state _ _ _ _ _ _); simpl;
    [by apply kept_same|apply kept_refl].
Qed.

Lemma exec_bind {A B} (m : M A) (k : A → M B) (a : App) :
  exec (bind m k) a
  = match m a with
    | (Return x, a') => exec (k x) a'
    | (Raise _, a') => a'
    end.
Proof. unfold exec, bind. by destruct (m a) as [[x|e] a']. Qed.

Lemma seq_kept {A B} (m1 : M A) (m2 : M B) (a : App) :
  (∀ a, kept a (exec m1 a)) → (∀ a, kept a (exec m2 a)) →
  kept a (exec (m1 >>> m2) a).
Proof.
  intros H1 H2. rewrite exec_bind. specialize (H1 a). unfold exec in H1.
  destruct (m1 a) as [[x|e] a']; simpl in H1; [|done].
  eapply kept_trans; [done|apply H2].
Qed.

Lemma lift_kept (f : App → App) (a : App) :
  (∀ a, kept a (f a)) → kept a (exec (lift f) a).
Proof. intros Hf. apply Hf. Qed.

Lemma delete_row_kept row (a : App) : kept a (exec (delete_row INI_PATH row) a).
Proof.
  unfold delete_row. unfold exec at 1.
  destruct (refresh_in_progress a); [apply kept_refl|].
  set (a1 := with_targets _ a).
  apply (kept_trans _ a1); [by apply kept_same|].
  apply (seq_kept (persist INI_PATH)); [apply persist_kept|intros; apply rebuild_rows_kept].
Qed.

Lemma open_add_dialog_kept (a : App) : kept a (open_add_dialog a).
Proof.
  unfold open_add_dialog. destruct (refresh_in_progress a);
    [apply kept_refl|by apply kept_same].
Qed.

Lemma add_target_tail_kept (a : App) :
  kept a (exec (persist INI_PATH >>> lift rebuild_rows >>> lift refresh_async) a).
Proof.
  apply seq_kept; [apply persist_kept|]. intros a1.
  apply seq_kept; intros; [apply rebuild_rows_kept|apply refresh_async_kept].
Qed.

(** Renaming an object that [a] does not have changes nothing of [a]. *)
Lemma rename_kept (a b : App) t new_name :
  heap a !! t = None → kept a b → kept a (rename t new_name b).
Proof.
  intros Hnew [[Hh Hr] [Hn Hs]]. split; [split|split]; try done.
  unfold rename. simpl. apply map_subseteq_spec. intros t' tg Hl.
  assert (t' ≠ t) by congruence.
  rewrite lookup_alter_ne by done. by eapply lookup_weaken.
Qed.

(** [add_target] for an object that is new to [a]. *)
Lemma add_target_kept (a b : App) t :
  heap a !! t = None → kept a b → kept a (exec (add_target INI_PATH t) b).
Proof.
  intros Hnew Hab. unfold add_target, exec.
  match goal with
  | |- kept a (_ (with_targets _ ?x)).2 =>
      assert (kept a x) as Hx
  end.
  { case_bool_decide; [|done]. destruct (first_free _ _ _ _); [|done].
    by apply rename_kept. }
  eapply kept_trans; [|apply add_target_tail_kept].
  eapply kept_trans; [exact Hx|]. by apply kept_same.
Qed.

Lemma _submit_kept n h p (a : App) : kept a (exec (_submit INI_PATH n h p) a).
Proof.
  unfold _submit. unfold exec at 1.
  destruct (negb (add_dialog a)); [apply kept_refl|].
  case_bool_decide; [apply kept_refl|]. case_bool_decide; [apply kept_refl|].
  destruct (py_int (strip p)) as [port|]; [|apply kept_refl].
  destruct (negb _); [apply kept_refl|].
  set (t := fresh (dom (heap a))).
  assert (heap a !! t = None) as Hnew
    by (apply not_elem_of_dom, is_fresh).
  match goal with |- kept a (?m ?x).2 => change (kept a (exec m x)) end.
  rewrite exec_bind.
  pose proof (add_target_kept a (with_heap (<[t := mkTarget (strip n) (strip h) port]> (heap a)) a) t Hnew)
    as Hadd.
  unfold exec in Hadd.
  destruct (add_target INI_PATH t _) as [[[]|e] a']; simpl in *.
  - eapply kept_trans; [apply Hadd|by apply kept_same].
    split; [split|split]; try done.
    + by apply insert_subseteq.
    + intros r row Hl. by exists row.
  - apply Hadd. split; [split|split]; try done.
    + by apply insert_subseteq.
    + intros r row Hl. by exists row.
Qed.

Lemma _schedule_auto_refresh_kept (a : App) : kept a (_schedule_auto_refresh a).
Proof.
  unfold _schedule_auto_refresh.
  destruct (_auto_after_id a); simpl; destruct (negb _ && _); by apply kept_same.
Qed.

Lemma apply_settings_kept t w r (a : App) :
  kept a (exec (apply_settings INI_PATH t w r) a).
Proof.
  unfold exec at 1.
  destruct (apply_settings_cases INI_PATH t w r a) as [[-> _]|[-> _]];
    [by apply kept_same|].
  set (a1 := assigned t w r a).
  apply (kept_trans _ a1); [unfold a1, assigned; case_bool_decide; by apply kept_same|].
  apply (seq_kept (persist INI_PATH)); [apply persist_kept|].
  intros a2. apply seq_kept; intros;
    [apply _schedule_auto_refresh_kept|apply refresh_async_kept].
Qed.

Lemma apply_results_kept results (a : App) : kept a (apply_results results a).
Proof.
  unfold apply_results.
  set (a1 := foldl _ a results).
  set (a2 := with_refresh_button true (with_meta_label (Some (tk_now a1)) a1)).
  apply (kept_trans _ a1).
  { apply foldl_kept. intros a0 res. by apply on_row_kept, (keeps_row_methods true). }
  apply (kept_trans _ (_set_editing_enabled true a2)); [|by apply kept_same].
  apply (kept_trans _ a2); [by apply kept_same|apply _set_editing_enabled_kept].
Qed.

Lemma recover_kept (a : App) : kept a (recover a).
Proof.
  unfold recover.
  set (a1 := with_refresh_button true a).
  apply (kept_trans _ (_set_editing_enabled true a1)); [|by apply kept_same].
  apply (kept_trans _ a1); [by apply kept_same|apply _set_editing_enabled_kept].
Qed.

Lemma fire_kept id (a : App) : kept a (fire id a).
Proof.
  unfold fire. destruct (tk_pending a !! id) as [[due cb]|]; [|apply kept_refl].
  destruct (due <=? tk_now a); [|apply kept_refl].
  apply (kept_trans _ (after_cancel id a)); [by apply kept_same|].
  destruct cb; simpl.
  - unfold _auto_refresh_tick.
    eapply kept_trans; [apply refresh_async_kept|apply _schedule_auto_refresh_kept].
  - apply apply_results_kept.
  - apply recover_kept.
Qed.

Lemma run_op_kept (a : App) op : kept a (run_op INI_PATH a op).
Proof.
  destruct op; simpl.
  - apply refresh_async_kept.
  - apply delete_row_kept.
  - apply open_add_dialog_kept.
  - apply _submit_kept.
  - apply apply_settings_kept.
  - apply fire_kept.
  - by apply kept_same.
Qed.

Lemma run_ops_kept ops (a : App) : kept a (run_ops INI_PATH ops a).
Proof. unfold run_ops. apply foldl_kept. intros. apply run_op_kept. Qed.

End FrameProofs.

(** ** The worker thread *)

Section ScanProofs.
Context `{!PythonLib}.
Variable INI_PATH : string.
Variable env : WorkerEnv.
Variable sched : nat → list MainOp.

(** The futures that the first loop has tagged when it ends: future
    [next_future + k] carries the [k]-th row of the snapshot. *)
Lemma submit_all_tags snapshot : ∀ i futures (b : App) futures' b',
  submit_all INI_PATH env sched i snapshot futures b = (Return futures', b') →
  next_future b' = (next_future b + length snapshot)%nat
  ∧ (∀ k row, snapshot !! k = Some row →
       futures' !! (next_future b + k)%nat = Some row)
  ∧ (∀ fut, (fut < next_future b ∨ next_future b + length snapshot ≤ fut)%nat →
       futures' !! fut = futures !! fut).
Proof.
  induction snapshot as [|row rest IH]; intros i futures b futures' b'; simpl.
  - intros [= <- <-]. split_and!; [lia|by intros k row [=]|done].
  - unfold bind at 1.
    destruct (run_ops_kept INI_PATH (sched i) b) as [_ [Hnf _]].
    set (b1 := run_ops INI_PATH (sched i) b) in *.
    unfold submit_row.
    destruct (submit_raises env (next_future b1)); [done|].
    intros Hrest. apply IH in Hrest as (Hnext & Htags & Hothers). simpl in *.
    rewrite Hnf in *. split_and!.
    + lia.
    + intros [|k] row' Hk; simpl in Hk.
      * injection Hk as <-. rewrite Nat.add_0_r.
        rewrite Hothers by lia. apply lookup_insert_eq.
      * replace (next_future b + S k)%nat with (S (next_future b) + k)%nat by lia.
        by apply Htags.
    + intros fut Hfut. rewrite Hothers by lia. apply lookup_insert_ne. lia.
Qed.

(** With a pool that takes every probe the first loop ends. *)
Lemma submit_all_returns snapshot : ∀ i futures (b : App),
  (∀ fut, submit_raises env fut = None) →
  ∃ futures' b', submit_all INI_PATH env sched i snapshot futures b = (Return futures', b').
Proof.
  induction snapshot as [|row rest IH]; intros i futures b Hok; simpl.
  - by eexists _, _.
  - unfold bind at 1, submit_row. rewrite Hok. by apply IH.
Qed.

(** A first [submit] that raises ends the first loop. *)
Lemma submit_all_raises row rest futures (a : App) e :
  submit_raises env (next_future a) = Some e →
  ∃ a1, submit_all INI_PATH env sched 0 (row :: rest) futures a = (Raise e, a1).
Proof.
  intros Hraise. simpl. unfold bind at 1, submit_row.
  destruct (run_ops_kept INI_PATH (sched 0%nat) a) as [_ [-> _]].
  rewrite Hraise. by eexists.
Qed.

Lemma objects_kept_step (a b c : App) : objects_kept a b → kept b c → objects_kept a c.
Proof.
  intros [Hh1 Hr1] [[Hh2 Hr2] _]. split; [by etrans|].
  intros r row Hr. destruct (Hr1 r row Hr) as (row1 & Hl1 & E1 & E2 & E3 & E4).
  destruct (Hr2 r row1 Hl1) as (row2 & Hl2 & F1 & F2 & F3 & F4).
  exists row2. split_and!; [done|congruence..].
Qed.

(** What a state that has kept the objects of [a] shows of a row of [a]. *)
Lemma objects_kept_row (a b : App) r row tg :
  objects_kept a b → row_heap a !! r = Some row → heap a !! target row = Some tg →
  target (row_heap b !!! r) = target row ∧ heap b !!! target row = tg
  ∧ name_label (row_heap b !!! r) = name_label row
  ∧ endpoint b r = (host tg, port tg).
Proof.
  intros [Hh Hr] Hrow Htg.
  destruct (Hr r row Hrow) as (row' & Hl & E1 & E2 & _).
  assert (heap b !! target row = Some tg) as Hl' by by eapply lookup_weaken.
  unfold endpoint, lookup_total, map_lookup_total. rewrite Hl. simpl.
  rewrite E1, Hl'. done.
Qed.

(** The probes that the first loop has submitted when it ends: whatever
    the Tk thread did in between, future [next_future + k] probes the
    host and port that the [k]-th row of the snapshot had in [a]. *)
Lemma submit_all_endpoints (a : App) snapshot : ∀ i futures (b : App) futures' b',
  objects_kept a b →
  (∀ r, r ∈ snapshot →
     ∃ row tg, row_heap a !! r = Some row ∧ heap a !! target row = Some tg) →
  submit_all INI_PATH env sched i snapshot futures b = (Return futures', b') →
  objects_kept a b'
  ∧ (∀ k row, snapshot !! k = Some row →
       ∃ t, submitted b' !! (next_future b + k)%nat
            = Some ((endpoint a row).1, (endpoint a row).2, t))
  ∧ (∀ fut, (fut < next_future b)%nat → submitted b' !! fut = submitted b !! fut).
Proof.
  induction snapshot as [|row rest IH]; intros i futures b futures' b' Hkept Hpres; simpl.
  - intros [= <- <-]. split_and!; [done|by intros k row [=]|done].
  - unfold bind at 1.
    pose proof (run_ops_kept INI_PATH (sched i) b) as Hops.
    pose proof (objects_kept_step _ _ _ Hkept Hops) as Hkept1.
    destruct Hops as [_ [Hnf Hsub]].
    set (b1 := run_ops INI_PATH (sched i) b) in *.
    destruct (Hpres row) as (rowrec & tg & Hrow & Htg); [left|].
    destruct (objects_kept_row a b1 row rowrec tg Hkept1 Hrow Htg)
      as (Etarget & Eheap & _ & _).
    destruct (objects_kept_row a a row rowrec tg) as (_ & _ & _ & Eend);
      [split; [done|]; intros r0 row0 Hl0; by exists row0|done..|].
    unfold endpoint in Eend. injection Eend as Ehost Eport.
    unfold submit_row. rewrite Etarget, Eheap.
    destruct (submit_raises env (next_future b1)); [done|].
    intros Hrest. apply IH in Hrest as (Hkept' & Hargs & Hold); simpl in *.
    + rewrite Hnf in *. split_and!; [done| |].
      * intros [|k] row' Hk; simpl in Hk.
        -- injection Hk as <-. rewrite Nat.add_0_r, Hold by lia.
           rewrite lookup_insert_eq, Ehost, Eport. by eexists.
        -- replace (next_future b + S k)%nat with (S (next_future b) + k)%nat by lia.
           by apply Hargs.
      * intros fut Hfut. rewrite Hold by lia. rewrite lookup_insert_ne by lia.
        by rewrite Hsub.
    + destruct Hkept1 as [Hh Hr]. split; [done|].
      intros r0 row0 Hl0. apply (Hr r0 row0 Hl0).
    + intros r0 Hr0. apply Hpres. by right.
Qed.

End ScanProofs.

(** C5: the worker takes [list(self.rows)] when it starts and passes the
    host and the port of each row's target to the pool by value.  Whatever
    the Tk thread does between the worker's steps (clicks, dialogs, settings,
    timers: [sched]), the future submitted for the [k]-th row of that list
    is tagged with that row and probes the host and port the row's target
    had when the scan started; and whatever it does afterwards ([ops]), the
    arguments of the submitted probes, the name shown on each of these rows
    and the endpoint behind it stay as they were. *)
Theorem snapshot_isolated `{!PythonLib} (INI_PATH : string) (env : WorkerEnv)
    (sched : nat → list MainOp) (a : App) futures a1 :
  rows_present a →
  submit_all INI_PATH env sched 0 (rows a) ∅ a = (Return futures, a1) →
  (∀ k row, rows a !! k = Some row →
     futures !! (next_future a + k)%nat = Some row
     ∧ ∃ t, submitted a1 !! (next_future a + k)%nat
            = Some ((endpoint a row).1, (endpoint a row).2, t))
  ∧ (∀ ops row, row ∈ rows a →
       let a2 := run_ops INI_PATH ops a1 in
       submitted a2 = submitted a1
       ∧ name_label (row_heap a2 !!! row) = name_label (row_heap a !!! row)
       ∧ endpoint a2 row = endpoint a row).
Proof.
  intros Hpres Hsub.
  assert (objects_kept a a) as Hrefl.
  { split; [done|]. intros r row Hl. by exists row. }
  destruct (submit_all_tags INI_PATH env sched _ _ _ _ _ _ Hsub) as (_ & Htags & _).
  destruct (submit_all_endpoints INI_PATH env sched a _ _ _ _ _ _ Hrefl Hpres Hsub)
    as (Hkept & Hargs & _).
  split.
  - intros k row Hk. split; [by apply Htags|by apply Hargs].
  - intros ops row Hrow a2.
    pose proof (run_ops_kept INI_PATH ops a1) as Hops.
    pose proof (objects_kept_step _ _ _ Hkept Hops) as Hkept2.
    destruct (Hpres row Hrow) as (rowrec & tg & Hl & Htg).
    destruct (objects_kept_row a a2 row rowrec tg Hkept2 Hl Htg) as (_ & _ & Ename & Eend).
    destruct (objects_kept_row a a row rowrec tg Hrefl Hl Htg) as (_ & _ & Ename' & Eend').
    split_and!; [apply Hops|congruence..].
Qed.

Lemma rows_present_busy_app : rows_present busy_app.
Proof.
  intros r Hr. change (rows busy_app) with [0%nat; 1%nat] in Hr.
  apply elem_of_cons in Hr as [->|Hr]; [|apply list_elem_of_singleton in Hr as ->];
    eexists _, _; split; vm_compute; reflexivity.
Qed.

Lemma snapshot_isolated_example :
  ∃ futures a1,
    submit_all "itpo.ini" reversed_env meddling_sched 0 (rows busy_app) ∅ busy_app
      = (Return futures, a1)
    ∧ futures !! 1%nat = Some 1%nat
    ∧ ∃ t, submitted a1 !! 1%nat = Some ("10.0.0.5", 5432%Z, t).
Proof.
  destruct (submit_all "itpo.ini" reversed_env meddling_sched 0 (rows busy_app) ∅ busy_app)
    as [[futures|e] a1] eqn:Hsub.
  - exists futures, a1. split; [reflexivity|].
    destruct (snapshot_isolated "itpo.ini" reversed_env meddling_sched busy_app futures a1
                rows_present_busy_app Hsub) as [Hk _].
    exact (Hk 1%nat 1%nat eq_refl).
  - exfalso.
    assert (match (submit_all "itpo.ini" reversed_env meddling_sched 0
                     (rows busy_app) ∅ busy_app).1 with
            | Return _ => True
            | Raise _ => False
            end) as Hret by (vm_compute; exact I).
    by rewrite Hsub in Hret.
Defined.

Section BatchProofs.
Context `{!PythonLib}.
Variable INI_PATH : string.
Variable env : WorkerEnv.

Lemma collect_spec (a1 : App) futures order : ∀ acc results,
  collect env a1 futures order acc = Return results →
  results = acc ++ (entry env a1 futures <$> order)
  ∧ ∀ fut, fut ∈ order → ∃ st lat, future_result env a1 fut = Return (st, lat).
Proof.
  induction order as [|fut rest IH]; intros acc results; simpl.
  - intros [= <-]. split; [by rewrite app_nil_r|]. intros fut Hin. by apply elem_of_nil in Hin.
  - destruct (future_result env a1 fut) as [[st lat]|e] eqn:Hres; [|done].
    intros (-> & Hall)%IH. split.
    + rewrite <- app_assoc. simpl. unfold entry at 2. by rewrite Hres.
    + intros fut' [->|Hin]%elem_of_cons; [by eexists _, _|by apply Hall].
Qed.

Lemma collect_returns (a1 : App) futures order : ∀ acc,
  (∀ fut, fut ∈ order → ∃ st lat, future_result env a1 fut = Return (st, lat)) →
  ∃ results, collect env a1 futures order acc = Return results.
Proof.
  induction order as [|fut rest IH]; intros acc Hall; simpl; [by eexists|].
  destruct (Hall fut) as (st & lat & ->); [left|]. apply IH.
  intros fut' Hin. apply Hall. by right.
Qed.

(** Every probe whose connection attempt ends in a connection or an
    [OSError] gives its future a result. *)
Lemma future_result_returns (a1 : App) fut :
  cancelled env fut = false →
  (∀ h p t e, Probe.create_connection (probe_world env fut) h p t = Probe.ConnectRaises e →
              isinstance e OSError = true) →
  ∃ st lat, future_result env a1 fut = Return (st, lat).
Proof.
  intros Hc Hio. unfold future_result. rewrite Hc.
  destruct (submitted a1 !!! fut) as [[h p] t].
  destruct (ProbeFacts.check_tcp_open_returns (probe_world env fut) h p t (Hio h p t))
    as (st & lat & Heq & _).
  by eexists _, _.
Qed.

Lemma entry_row (a1 : App) futures fut : (entry env a1 futures fut).1.1 = futures !!! fut.
Proof. unfold entry. by destruct (future_result env a1 fut) as [[st lat]|e]. Qed.

(** The futures of a session, as the first loop leaves them. *)
Lemma session_futures (futures : gmap nat nat) (nf : nat) (snapshot : list nat) :
  (∀ k row, snapshot !! k = Some row → futures !! (nf + k)%nat = Some row) →
  (∀ fut, (fut < nf ∨ nf + length snapshot ≤ fut)%nat → futures !! fut = None) →
  elements (dom futures) ≡ₚ seq nf (length snapshot)
  ∧ (λ fut, futures !!! fut) <$> seq nf (length snapshot) = snapshot.
Proof.
  intros Htags Hnone. split.
  - assert (dom futures = list_to_set (seq nf (length snapshot))) as ->.
    { apply set_eq. intros fut.
      rewrite elem_of_dom, elem_of_list_to_set, elem_of_seq. split.
      - intros [row Hl].
        destruct (decide (fut < nf ∨ nf + length snapshot ≤ fut)%nat) as [Hout|Hin];
          [|lia]. rewrite Hnone in Hl by done. done.
      - intros Hin. destruct (lookup_lt_is_Some_2 snapshot (fut - nf)) as [row Hrow];
          [lia|]. exists row. replace fut with (nf + (fut - nf))%nat by lia.
        by apply Htags. }
    apply elements_list_to_set, NoDup_seq.
  - apply list_eq. intros k. rewrite list_lookup_fmap.
    destruct (snapshot !! k) as [row|] eqn:Hk.
    + rewrite lookup_seq_lt by (by eapply lookup_lt_Some). simpl.
      unfold lookup_total, map_lookup_total. by rewrite (Htags k row Hk).
    + rewrite lookup_seq_ge; [done|]. by apply lookup_ge_None.
Qed.

End BatchProofs.

(** C2: [as_completed] yielding every future once, in whatever order, a
    batch that the [try] block assembles has as many entries as the
    snapshot has rows; its rows are the rows of the snapshot, each once and
    no other; and the entry of the [k]-th row carries the result of the
    future that was submitted for that row, not of the one that completed
    [k]-th.  The block does assemble a batch when the pool takes every
    probe, no future is cancelled and every connection attempt ends in a
    connection or an [OSError]. *)
Theorem batch_complete `{!PythonLib} (INI_PATH : string) (env : WorkerEnv)
    (sched : nat → list MainOp) (a : App) :
  (∀ futs, as_completed env futs ≡ₚ futs) →
  (∀ results a1,
     try_block INI_PATH env sched a = (Return results, a1) →
     length results = length (rows a)
     ∧ results.*1.*1 ≡ₚ rows a
     ∧ ∃ ordered, results ≡ₚ ordered
         ∧ ∀ k row, rows a !! k = Some row →
             ∃ st lat, ordered !! k = Some (row, st, lat)
                       ∧ future_result env a1 (next_future a + k) = Return (st, lat))
  ∧ ((∀ fut, submit_raises env fut = None) →
     (∀ fut, cancelled env fut = false) →
     (∀ fut h p t e,
        Probe.create_connection (probe_world env fut) h p t = Probe.ConnectRaises e →
        isinstance e OSError = true) →
     ∃ results a1, try_block INI_PATH env sched a = (Return results, a1)).
Proof.
  intros Hperm. split.
  - intros results a1. unfold try_block, bind.
    destruct (submit_all INI_PATH env sched 0 (rows a) ∅ a) as [[futures|e] a0] eqn:Hsub;
      [|done].
    intros [= Hcol <-].
    set (a1 := run_ops INI_PATH (sched (length (rows a))) a0) in *.
    destruct (submit_all_tags INI_PATH env sched _ _ _ _ _ _ Hsub) as (_ & Htags & Hothers).
    destruct (session_futures futures (next_future a) (rows a) Htags) as [Hdom Hrows].
    { intros fut Hfut. by rewrite Hothers. }
    set (order := as_completed env (elements (dom futures))) in *.
    assert (order ≡ₚ seq (next_future a) (length (rows a))) as Horder
      by (unfold order; by rewrite Hperm).
    apply collect_spec in Hcol as [-> Hall]. simpl.
    split_and!.
    + by rewrite length_fmap, Horder, length_seq.
    + rewrite <- !list_fmap_compose.
      rewrite (list_fmap_ext _ (λ fut, futures !!! fut) order)
        by (intros i fut _; simpl; apply entry_row).
      by rewrite Horder, Hrows.
    + exists (entry env a1 futures <$> seq (next_future a) (length (rows a))).
      split; [by rewrite Horder|].
      intros k row Hk.
      assert (k < length (rows a))%nat as Hlt by by eapply lookup_lt_Some.
      destruct (Hall (next_future a + k)%nat) as (st & lat & Hres).
      { rewrite Horder. apply elem_of_seq. lia. }
      exists st, lat. split; [|done].
      rewrite list_lookup_fmap, lookup_seq_lt by done. simpl.
      unfold entry. rewrite Hres.
      unfold lookup_total, map_lookup_total. by rewrite (Htags k row Hk).
  - intros Hpool Hcancel Hio. unfold try_block, bind.
    destruct (submit_all_returns INI_PATH env sched (rows a) 0 ∅ a Hpool)
      as (futures & a0 & ->).
    destruct (collect_returns env (run_ops INI_PATH (sched (length (rows a))) a0) futures
                (as_completed env (elements (dom futures))) []) as [results ->].
    { intros fut _. apply future_result_returns; [apply Hcancel|apply Hio]. }
    by eexists _, _.
Qed.

Lemma batch_complete_example :
  ∃ results a1,
    try_block "itpo.ini" reversed_env meddling_sched busy_app = (Return results, a1)
    ∧ length results = 2%nat
    ∧ results.*1.*1 ≡ₚ [0%nat; 1%nat].
Proof.
  assert (∀ futs, as_completed reversed_env futs ≡ₚ futs) as Hperm
    by (intros futs; apply reverse_Permutation).
  destruct (batch_complete "itpo.ini" reversed_env meddling_sched busy_app Hperm)
    as [Hbatch Htotal].
  destruct Htotal as (results & a1 & Htry); [done..|].
  exists results, a1. split; [exact Htry|].
  destruct (Hbatch results a1 Htry) as (Hlen & Hrows & _). by split.
Defined.

Section FailureProofs.
Context `{!PythonLib}.

Lemma on_row_status f (a : App) r r' :
  (∀ x, status_label (f x) = status_label x) →
  status_label (row_heap (on_row f a r) !!! r') = status_label (row_heap a !!! r').
Proof.
  intros Hf. unfold on_row, lookup_total, map_lookup_total. simpl.
  destruct (decide (r = r')) as [->|Hne].
  - rewrite lookup_alter_eq. destruct (row_heap a !! r'); simpl; [apply Hf|done].
  - by rewrite lookup_alter_ne.
Qed.

Lemma foldl_on_row_status f (l : list nat) (a : App) r :
  (∀ x, status_label (f x) = status_label x) →
  status_label (row_heap (foldl (on_row f) a l) !!! r) = status_label (row_heap a !!! r).
Proof.
  intros Hf. revert a. induction l as [|x l IH]; intros a; simpl; [done|].
  rewrite IH. by apply on_row_status.
Qed.

Lemma _set_editing_enabled_status enabled (a : App) r :
  status_label (row_heap (_set_editing_enabled enabled a) !!! r)
  = status_label (row_heap a !!! r).
Proof. unfold _set_editing_enabled. by rewrite foldl_on_row_status. Qed.

Lemma _set_editing_enabled_fields enabled (a : App) :
  let a' := _set_editing_enabled enabled a in
  add_btn a' = enabled ∧ settings_button a' = enabled
  ∧ refresh_button a' = refresh_button a ∧ tk_pending a' = tk_pending a
  ∧ workers a' = workers a.
Proof.
  unfold _set_editing_enabled. simpl.
  split_and!;
    [by rewrite (foldl_keeps add_btn)|by rewrite (foldl_keeps settings_button)
    |by rewrite (foldl_keeps refresh_button)|by rewrite (foldl_keeps tk_pending)
    |by rewrite (foldl_keeps workers)].
Qed.

(** What [recover] does. *)
Lemma recover_spec (a : App) :
  refresh_in_progress (recover a) = false ∧ refresh_button (recover a) = true
  ∧ add_btn (recover a) = true ∧ settings_button (recover a) = true
  ∧ tk_pending (recover a) = tk_pending a ∧ workers (recover a) = workers a
  ∧ ∀ r, status_label (row_heap (recover a) !!! r) = status_label (row_heap a !!! r).
Proof.
  unfold recover. simpl.
  destruct (_set_editing_enabled_fields true (with_refresh_button true a))
    as (-> & -> & -> & -> & ->).
  split_and!; try done. intros r. by rewrite _set_editing_enabled_status.
Qed.

(** From idle, [refresh_async] sets the flag and starts a worker. *)
Lemma refresh_async_starts (a : App) :
  refresh_in_progress a = false →
  refresh_in_progress (refresh_async a) = true
  ∧ workers (refresh_async a) = S (workers a)
  ∧ refresh_button (refresh_async a) = false.
Proof.
  intros Hflag. unfold refresh_async. rewrite Hflag. simpl.
  rewrite (foldl_keeps refresh_in_progress), (foldl_keeps workers),
    (foldl_keeps refresh_button) by done.
  unfold _set_editing_enabled.
  rewrite (foldl_keeps refresh_in_progress), (foldl_keeps workers),
    (foldl_keeps refresh_button) by done.
  done.
Qed.

End FailureProofs.



(** ** Single flight *)

Module SingleFlightFacts.
Import SingleFlight.

Lemma inv_init callers : inv (init callers).
Proof.
  unfold inv, init. simpl. split_and!.
  - done.
  - intros t p [-> _]%lookup_replicate. simpl. by split.
  - by intros t [? _]%lookup_replicate.
  - intros _. split; [done|]. by intros t p [-> _]%lookup_replicate.
  - by intros t1 t2 p1 p2 [-> _]%lookup_replicate.
  - by intros t p [-> _]%lookup_replicate.
  - lia.
Qed.

(** The callers after caller [t] has moved to [p]. *)
Lemma lookup_moved (l : list pc) t p0 p t' q :
  l !! t = Some p0 →
  <[t := p]> l !! t' = Some q ↔ (t' = t ∧ q = p) ∨ (t' ≠ t ∧ l !! t' = Some q).
Proof.
  intros Ht. destruct (decide (t' = t)) as [->|Hne].
  - rewrite list_lookup_insert_eq by by eapply lookup_lt_Some.
    split; [intros [= <-]; by left|]. intros [[_ ->]|[? _]]; done.
  - rewrite list_lookup_insert_ne by done.
    split; [by right|]. intros [[? _]|[_ ?]]; done.
Qed.

(** Case analysis on the callers that a hypothesis speaks of after a
    move of caller [t]. *)
Ltac moved Ht :=
  repeat match goal with
  | H : <[_ := _]> _ !! _ = Some _ |- _ =>
      apply (lookup_moved _ _ _ _ _ _ Ht) in H as [[? ?]|[? H]]; simplify_eq/=
  end.

Section Step.
Variable s : State.
Hypothesis Hinv : inv s.

Local Ltac open_inv :=
  destruct Hinv as (Hsess & Hlock & Hset & Hidle & Hone & Hnow & Hw).

(** A caller moves between two places outside the [with] block and
    before the flag is set; flag, lock and counters stay. *)
Lemma inv_goto_plain t p0 p :
  pcs s !! t = Some p0 → holds_lock p0 = false → starting p0 = false →
  holds_lock p = false → starting p = false → p ≠ AtSet →
  inv (goto t p s).
Proof.
  open_inv.
  intros Ht Hh0 Hs0 Hh Hs Hp. unfold inv, goto. simpl.
  split_and!; [done|..|done].
  - intros t' q Hq. moved Ht; try (by apply Hlock).
    rewrite Hh. rewrite <- (Hlock _ _ Ht), Hh0. done.
  - intros t' Hq. moved Ht. by eapply Hset.
  - intros Hf. destruct (Hidle Hf) as [-> Hnone]. split; [done|].
    intros t' q Hq. moved Ht; first [done|by eapply Hnone].
  - intros t1 t2 p1 p2 H1 H2 S1 S2. moved Ht; try congruence. by eapply Hone.
  - intros t' q Hq Sq. moved Ht; first [congruence|by eapply Hnow].
Qed.

Lemma inv_acquire t :
  pcs s !! t = Some AtAcquire → lock s = None →
  inv (mkState (flag s) (Some t) (<[t := AtLockedCheck]> (pcs s)) (sessions s) (workers s)).
Proof.
  open_inv.
  intros Ht Hl. unfold inv. simpl.
  split_and!; [done|..|done].
  - intros t' q Hq. moved Ht; [done|].
    split; [|by intros [= ->]].
    intros Hh. apply (Hlock _ _ Hq) in Hh. congruence.
  - intros t' Hq. moved Ht. by eapply Hset.
  - intros Hf. destruct (Hidle Hf) as [-> Hnone]. split; [done|].
    intros t' q Hq. moved Ht; first [done|by eapply Hnone].
  - intros t1 t2 p1 p2 H1 H2 S1 S2. moved Ht; try congruence. by eapply Hone.
  - intros t' q Hq Sq. moved Ht; first [congruence|by eapply Hnow].
Qed.

Lemma inv_locked_check t :
  pcs s !! t = Some AtLockedCheck →
  inv (goto t (if flag s then AtReleaseReturn else AtSet) s).
Proof.
  open_inv.
  intros Ht. unfold inv, goto. simpl.
  assert (lock s = Some t) as Hheld by by apply (Hlock t AtLockedCheck).
  split_and!; [done|..|done].
  - intros t' q Hq. moved Ht; try (by apply Hlock). by destruct (flag s).
  - intros t' Hq. moved Ht; first [by destruct (flag s)|by eapply Hset].
  - intros Hf. destruct (Hidle Hf) as [-> Hnone]. split; [done|].
    intros t' q Hq. moved Ht; first [by rewrite Hf|by eapply Hnone].
  - intros t1 t2 p1 p2 H1 H2 S1 S2.
    moved Ht; try (by destruct (flag s)). by eapply Hone.
  - intros t' q Hq Sq. moved Ht; first [by destruct (flag s)|by eapply Hnow].
Qed.

Lemma inv_set t :
  pcs s !! t = Some AtSet →
  inv (mkState true (lock s) (<[t := AtRelease]> (pcs s)) (S (sessions s)) (workers s)).
Proof.
  open_inv.
  intros Ht. unfold inv. simpl.
  pose proof (Hset t Ht) as Hf. destruct (Hidle Hf) as [Hw0 Hnone].
  assert (lock s = Some t) as Hheld by by apply (Hlock t AtSet).
  split_and!; [by rewrite Hsess, Hf| | |done| | |done].
  - intros t' q Hq. moved Ht; first [done|by apply Hlock].
  - intros t' Hq. moved Ht. exfalso.
    assert (lock s = Some t') as Hheld' by by apply (Hlock t' AtSet).
    congruence.
  - intros t1 t2 p1 p2 H1 H2 S1 S2. moved Ht; try done;
      exfalso;
      match goal with
      | Hq : pcs s !! _ = Some ?q, Sq : starting ?q = true |- _ =>
          rewrite (Hnone _ _ Hq) in Sq; done
      end.
  - by intros.
Qed.

Lemma inv_release t p0 p :
  pcs s !! t = Some p0 → holds_lock p0 = true →
  holds_lock p = false → starting p = starting p0 → p ≠ AtSet →
  inv (mkState (flag s) None (<[t := p]> (pcs s)) (sessions s) (workers s)).
Proof.
  open_inv.
  intros Ht Hh0 Hh Hs Hp. unfold inv. simpl.
  assert (lock s = Some t) as Hheld by by apply (Hlock t p0).
  split_and!; [done|..|done].
  - intros t' q Hq. moved Ht; [by rewrite Hh|].
    split; [|done]. intros Hq'. apply (Hlock _ _ Hq) in Hq'. congruence.
  - intros t' Hq. moved Ht. by eapply Hset.
  - intros Hf. destruct (Hidle Hf) as [-> Hnone]. split; [done|].
    intros t' q Hq. moved Ht; try (by eapply Hnone).
    rewrite Hs. by eapply Hnone.
  - intros t1 t2 p1 p2 H1 H2 S1 S2. moved Ht; try done;
      repeat match goal with
             | S : starting p = true |- _ => rewrite Hs in S
             end; by eapply Hone.
  - intros t' q Hq Sq. moved Ht; try (by eapply Hnow).
    rewrite Hs in Sq. by eapply Hnow.
Qed.

Lemma inv_start t :
  pcs s !! t = Some AtStart →
  inv (mkState (flag s) (lock s) (<[t := Outside]> (pcs s)) (sessions s) (S (workers s))).
Proof.
  open_inv.
  intros Ht. unfold inv. simpl.
  pose proof (Hnow t AtStart Ht eq_refl) as Hw0.
  split_and!; [done| |..].
  - intros t' q Hq. moved Ht; try (by apply Hlock).
    by rewrite <- (Hlock _ _ Ht).
  - intros t' Hq. moved Ht. by eapply Hset.
  - intros Hf. destruct (Hidle Hf) as [_ Hnone]. by pose proof (Hnone _ _ Ht).
  - intros t1 t2 p1 p2 H1 H2 S1 S2. moved Ht; try done. by eapply Hone.
  - intros t' q Hq Sq. moved Ht. exfalso.
    by pose proof (Hone t' t q AtStart Hq Ht Sq eq_refl).
  - lia.
Qed.

Lemma inv_finish w :
  workers s = S w →
  inv (mkState false (lock s) (pcs s) (pred (sessions s)) w).
Proof.
  open_inv.
  intros Hws.
  assert (flag s = true) as Hf.
  { destruct (flag s) eqn:Hf; [done|]. destruct (Hidle eq_refl). lia. }
  assert (w = 0%nat) as -> by lia.
  assert (∀ t p, pcs s !! t = Some p → starting p = false) as Hnone.
  { intros t p Hp. destruct (starting p) eqn:Sp; [|done].
    pose proof (Hnow t p Hp Sp). lia. }
  unfold inv. simpl.
  split_and!; [by rewrite Hsess, Hf|done|done| |done|done|lia].
  intros _. by split.
Qed.

End Step.

Lemma inv_step e s s' : inv s → step e s = Some s' → inv s'.
Proof.
  intros Hinv Hstep.
  destruct e as [t|]; simpl in Hstep.
  - destruct (pcs s !! t) as [p|] eqn:Ht; [|done].
    destruct p.
    + injection Hstep as <-. by apply (inv_goto_plain s Hinv t Outside).
    + injection Hstep as <-.
      apply (inv_goto_plain s Hinv t AtFastCheck); try done; by destruct (flag s).
    + destruct (lock s) eqn:Hl; [done|]. injection Hstep as <-.
      by apply inv_acquire.
    + injection Hstep as <-. by apply inv_locked_check.
    + injection Hstep as <-. by apply inv_set.
    + injection Hstep as <-. by apply (inv_release s Hinv t AtRelease).
    + injection Hstep as <-. by apply (inv_release s Hinv t AtReleaseReturn).
    + injection Hstep as <-. by apply inv_start.
  - destruct (workers s) as [|w] eqn:Hws; [done|]. injection Hstep as <-.
    by apply inv_finish.
Qed.

Lemma inv_run trace : ∀ s, inv s → inv (run trace s).
Proof.
  unfold run. induction trace as [|e trace IH]; intros s Hs; simpl; [done|].
  apply IH. destruct (step e s) as [s'|] eqn:Hstep; simpl; [|done].
  by eapply inv_step.
Qed.

(** One caller alone goes through the lines in order and leaves the flag
    set, the lock free and one worker started. *)
Example lone_caller :
  run (replicate 7 (Run 0)) (init 1) = mkState true None [Outside] 1 1.
Proof. reflexivity. Qed.

End SingleFlightFacts.

(** C1: a call of [refresh_async] made while a scan is in progress returns
    the state it was given.  And however many callers run the lines of
    [refresh_async] concurrently, in whatever order the lines are taken and
    whenever the posted callbacks clear the flag: at most one scan session
    is in progress at any time; a caller that is about to set the flag holds
    the lock and the flag is still clear, so testing and setting are one
    step with respect to every other caller; at most one caller is inside
    the [with] block; and a caller that finds the flag set, at the first
    test or at the second, leaves without touching flag or counters. *)
Theorem single_flight :
  (∀ (L : PythonLib) (a : App), refresh_in_progress a = true → refresh_async a = a)
  ∧ ∀ callers trace,
      let s := SingleFlight.run trace (SingleFlight.init callers) in
      (SingleFlight.sessions s ≤ 1)%nat
      ∧ (SingleFlight.flag s = true ↔ SingleFlight.sessions s = 1%nat)
      ∧ (∀ t, SingleFlight.pcs s !! t = Some SingleFlight.AtSet →
              SingleFlight.lock s = Some t ∧ SingleFlight.flag s = false)
      ∧ (∀ t1 t2 p1 p2,
           SingleFlight.pcs s !! t1 = Some p1 → SingleFlight.pcs s !! t2 = Some p2 →
           SingleFlight.holds_lock p1 = true → SingleFlight.holds_lock p2 = true →
           t1 = t2)
      ∧ (∀ t, SingleFlight.flag s = true →
              (SingleFlight.pcs s !! t = Some SingleFlight.AtFastCheck →
               SingleFlight.step (SingleFlight.Run t) s
               = Some (SingleFlight.goto t SingleFlight.Outside s))
              ∧ (SingleFlight.pcs s !! t = Some SingleFlight.AtLockedCheck →
                 SingleFlight.step (SingleFlight.Run t) s
                 = Some (SingleFlight.goto t SingleFlight.AtReleaseReturn s))).
Proof.
  split.
  - intros L a Hflag. unfold refresh_async. by rewrite Hflag.
  - intros callers trace s.
    assert (SingleFlight.inv s) as (Hsess & Hlock & Hset & _)
      by apply SingleFlightFacts.inv_run, SingleFlightFacts.inv_init.
    split_and!.
    + rewrite Hsess. destruct (SingleFlight.flag s); lia.
    + rewrite Hsess. by destruct (SingleFlight.flag s).
    + intros t Ht. split; [by apply (Hlock t SingleFlight.AtSet)|by eapply Hset].
    + intros t1 t2 p1 p2 H1 H2 L1 L2.
      apply (Hlock _ _ H1) in L1. apply (Hlock _ _ H2) in L2. congruence.
    + intros t Hflag. split; intros Ht; simpl; by rewrite Ht, Hflag.
Qed.

(** * More of the persistence *)

Lemma lstrip_id_head c s : lstrip (String c s) = String c s → isspace c = false.
Proof.
  simpl. destruct (isspace c); [|done].
  intros Heq. pose proof (length_lstrip s) as Hlen. rewrite Heq in Hlen. simpl in Hlen. lia.
Qed.

Lemma lstrip_idemp s : lstrip (lstrip s) = lstrip s.
Proof.
  induction s as [|c s IH]; simpl; [done|].
  destruct (isspace c) eqn:Hc; [done|]. simpl. by rewrite Hc.
Qed.

Lemma rstrip_idemp s : rstrip (rstrip s) = rstrip s.
Proof.
  induction s as [|c s IH]; simpl; [done|].
  destruct (rstrip s) as [|d r] eqn:Hr.
  - destruct (isspace c) eqn:Hc; simpl; [done|by rewrite Hc].
  - change (rstrip (String c (String d r))) with
      (match rstrip (String d r) with
       | EmptyString => if isspace c then EmptyString else String c EmptyString
       | r' => String c r'
       end).
    by rewrite IH.
Qed.

Lemma lstrip_rstrip s : lstrip s = s → lstrip (rstrip s) = rstrip s.
Proof.
  destruct s as [|c s]; [done|]. intros Hc%lstrip_id_head. simpl.
  destruct (rstrip s); [rewrite Hc|]; simpl; by rewrite Hc.
Qed.

(** [s.strip().strip() == s.strip()] *)
Lemma strip_idemp s : strip (strip s) = strip s.
Proof.
  unfold strip. rewrite (lstrip_rstrip (lstrip s)) by apply lstrip_idemp.
  apply rstrip_idemp.
Qed.

(** What the loop of [load_state] lets through. *)
Lemma parse_target_well_formed key value t :
  parse_target key value = Some t → well_formed t.
Proof.
  unfold parse_target.
  destruct (negb (contains ":" (strip value))); [done|].
  destruct (rsplit1 ":" (strip value)) as [[h p]|]; [|done].
  destruct (py_int (strip p)) as [n|]; [|done].
  destruct ((1 <=? n)%Z && (n <=? 65535)%Z) eqn:Hrange; [|done]. simpl.
  case_bool_decide as Hh; [done|]. case_bool_decide as Hn; [done|]. simpl.
  intros [= <-]. unfold well_formed. simpl.
  apply andb_true_iff in Hrange as [?%Z.leb_le ?%Z.leb_le].
  split_and!; [done|apply strip_idemp|done|apply strip_idemp|lia..].
Qed.

Lemma load_targets_well_formed (cfg : config) : Forall well_formed (load_targets cfg).
Proof.
  unfold load_targets. destruct (dict_get "TARGETS" cfg) as [sec|]; [|constructor].
  apply Forall_forall. intros t Ht.
  apply list_elem_of_omap in Ht as ([key value] & _ & Hparse).
  by eapply parse_target_well_formed.
Qed.

(** What [load_state] returns when it returns. *)
Lemma load_state_inv `{!PythonLib} path (files : Disk) timeout max_workers auto_refresh loaded :
  load_state path files = Return (timeout, max_workers, auto_refresh, loaded) →
  ∃ cfg, _read_ini path files = Return cfg ∧ loaded = load_targets cfg
         ∧ getfloat cfg "SETTINGS" "TIMEOUT_SECONDS" float_5 = Return timeout
         ∧ getint cfg "SETTINGS" "MAX_WORKERS" 10 = Return max_workers
         ∧ getint cfg "SETTINGS" "AUTO_REFRESH_SECONDS" 0 = Return auto_refresh.
Proof.
  unfold load_state.
  destruct (_read_ini path files) as [cfg|] eqn:Hread; [|done].
  destruct (getfloat cfg "SETTINGS" "TIMEOUT_SECONDS" float_5) as [x|] eqn:Hx; [|done].
  destruct (getint cfg "SETTINGS" "MAX_WORKERS" 10) as [w|] eqn:Hw; [|done].
  destruct (getint cfg "SETTINGS" "AUTO_REFRESH_SECONDS" 0) as [r|] eqn:Hr; [|done].
  intros [= <- <- <- <-]. by exists cfg.
Qed.

Lemma path_tmp_ne (path : string) : path ≠ path +:+ ".tmp".
Proof.
  intros Heq. apply (f_equal String.length) in Heq.
  rewrite length_append in Heq. simpl in Heq. lia.
Qed.

(** X1: where no file exists at the path, [load_state] returns the
    defaults: a time-out of [5.0], ten workers, no auto-refresh and no
    targets. *)
Theorem load_state_missing_file `{!PythonLib} path (files : Disk) :
  files !! path = None →
  load_state path files = Return (float_5, 10, 0, []).
Proof. intros Hnone. unfold load_state, _read_ini. by rewrite Hnone. Qed.

Lemma load_state_missing_file_example :
  @load_state plain_lib "itpo.ini" ∅ = Return (float_5, 10, 0, []).
Proof. apply load_state_missing_file. reflexivity. Defined.

(** X2: every target that [load_state] returns has a name and a host that
    are not empty and have no blank at either end, and a port from 1 to
    65535, whatever the file holds. *)
Theorem load_state_targets_well_formed `{!PythonLib} path (files : Disk)
    timeout max_workers auto_refresh loaded :
  load_state path files = Return (timeout, max_workers, auto_refresh, loaded) →
  Forall well_formed loaded.
Proof.
  intros (cfg & _ & -> & _)%load_state_inv. apply load_targets_well_formed.
Qed.

Lemma load_state_targets_well_formed_example :
  Forall well_formed
    [mkTarget "web" "example.com" 443].
Proof.
  apply (@load_state_targets_well_formed plain_lib "itpo.ini"
           {["itpo.ini" := [("TARGETS", [(" web ", " example.com : 443 ");
                                         ("bad", "no port");
                                         ("far", "host:70000")])]]}
           float_5 10 0).
  vm_compute. reflexivity.
Defined.

(** X3: a stored time-out (free of [%]) that [float] does not read makes
    [load_state] raise [ValueError]; the default is taken only where the
    option is missing. *)
Theorem load_state_bad_timeout_raises `{!PythonLib} path (files : Disk) text cfg value :
  files !! path = Some text → ini_read text = Return cfg →
  cfg_get cfg "SETTINGS" "TIMEOUT_SECONDS" = Some value →
  contains "%" value = false →
  float_of_str value = None →
  load_state path files = Raise ValueError.
Proof.
  intros Hfile Hread Hget _ Hfloat. unfold load_state, _read_ini, getfloat.
  by rewrite Hfile, Hread, Hget, Hfloat.
Qed.

Lemma load_state_bad_timeout_raises_example :
  @load_state picky_lib "itpo.ini"
    {["itpo.ini" := [("SETTINGS", [("TIMEOUT_SECONDS", "soon")])]]}
  = Raise ValueError.
Proof.
  apply (@load_state_bad_timeout_raises picky_lib "itpo.ini" _
           [("SETTINGS", [("TIMEOUT_SECONDS", "soon")])]
           [("SETTINGS", [("TIMEOUT_SECONDS", "soon")])] "soon");
    reflexivity.
Defined.

(** X4: when [save_state] returns, the file at the path holds the new
    configuration (the three settings and the options stored for the
    targets), no file is left at the temporary path, and every other file
    is as it was. *)
Theorem save_state_replaces_one_file `{!PythonLib} timeout max_workers auto_refresh
    saved path (files files' : Disk) :
  save_state timeout max_workers auto_refresh saved path files = Return files' →
  (∃ sec, set_targets saved [] = Return sec
          ∧ files' !! path
            = Some (ini_write (saved_config timeout max_workers auto_refresh sec)))
  ∧ files' !! (path +:+ ".tmp") = None
  ∧ ∀ other, other ≠ path → other ≠ path +:+ ".tmp" → files' !! other = files !! other.
Proof.
  unfold save_state. destruct (set_targets saved []) as [sec|]; [|done].
  intros [= <-]. unfold path_replace. rewrite lookup_insert_eq.
  pose proof (path_tmp_ne path) as Hne.
  split_and!.
  - exists sec. split; [done|]. rewrite lookup_insert_eq. reflexivity.
  - rewrite lookup_insert_ne by done. apply lookup_delete_eq.
  - intros other H1 H2.
    rewrite lookup_insert_ne, lookup_delete_ne, lookup_insert_ne by done. done.
Qed.

Lemma save_state_replaces_one_file_example :
  ∃ files' : gmap string config,
    @save_state plain_lib float_5 10 0 [web; db] "itpo.ini" ∅ = Return files'
    ∧ files' !! "itpo.ini.tmp" = None.
Proof.
  destruct (@save_state plain_lib float_5 10 0 [web; db] "itpo.ini" ∅)
    as [files'|e] eqn:Hsave.
  - exists files'. split; [reflexivity|].
    by destruct (@save_state_replaces_one_file plain_lib _ _ _ _ _ _ _ Hsave) as (_ & Htmp & _).
  - exfalso.
    assert (match @save_state plain_lib float_5 10 0 [web; db] "itpo.ini" ∅ with
            | Return _ => True
            | Raise _ => False
            end) as Hret by (vm_compute; exact I).
    by rewrite Hsave in Hret.
Defined.

(** * More of the probe *)

(** Membership in a list that is written out. *)
Ltac in_list :=
  repeat first [apply list_elem_of_here | apply list_elem_of_further].

(** X5: when the connection attempt ends in a connection or in an
    [OSError], [check_tcp_open] returns one of the five outcomes, and which
    one follows the kind of failure: [OPEN] for a connection, [DNS_FAIL] for
    a [gaierror], [TIMEOUT] for a [TimeoutError], [CLOSED] for a
    [ConnectionRefusedError] and [ERROR] for every other [OSError]. *)
Theorem check_tcp_open_classifies_os_errors (w : Probe.World) host port timeout_seconds :
  (∀ e, Probe.create_connection w host port timeout_seconds = Probe.ConnectRaises e →
        isinstance e OSError = true) →
  ∃ status latency,
    Probe.check_tcp_open w host port timeout_seconds = Return (status, latency)
    ∧ status ∈ Probe.outcomes
    ∧ (status = "OPEN"
       ↔ Probe.create_connection w host port timeout_seconds = Probe.Connected)
    ∧ ∀ e, Probe.create_connection w host port timeout_seconds = Probe.ConnectRaises e →
        (status = "DNS_FAIL" ↔ isinstance e gaierror = true)
        ∧ (status = "TIMEOUT" ↔ isinstance e TimeoutError = true)
        ∧ (status = "CLOSED" ↔ isinstance e ConnectionRefusedError = true)
        ∧ (status = "ERROR"
           ↔ isinstance e gaierror = false ∧ isinstance e TimeoutError = false
             ∧ isinstance e ConnectionRefusedError = false).
Proof.
  intros Hio. unfold Probe.check_tcp_open, Probe.outcomes.
  destruct (Probe.create_connection w host port timeout_seconds) as [|e].
  - eexists _, _. split_and!; [reflexivity|in_list|done|done].
  - specialize (Hio e eq_refl).
    pose proof (ProbeFacts.handlers_exclusive e) as [Hg Ht].
    rewrite Hio.
    destruct (isinstance e gaierror) eqn:E1.
    { destruct (Hg eq_refl) as [E2 E3].
      eexists _, _. split_and!; [reflexivity|in_list|done|].
      intros e' [= <-]. rewrite E1, E2, E3. intuition congruence. }
    destruct (isinstance e TimeoutError) eqn:E2.
    { pose proof (Ht eq_refl) as E3.
      eexists _, _. split_and!; [reflexivity|in_list|done|].
      intros e' [= <-]. rewrite E1, E2, E3. intuition congruence. }
    destruct (isinstance e ConnectionRefusedError) eqn:E3.
    { eexists _, _. split_and!; [reflexivity|in_list|done|].
      intros e' [= <-]. rewrite E1, E2, E3. intuition congruence. }
    eexists _, _. split_and!; [reflexivity|in_list|done|].
    intros e' [= <-]. rewrite E1, E2, E3. intuition congruence.
Qed.

(** A world in which every connection is refused. *)
Lemma check_tcp_open_classifies_os_errors_example :
  Probe.check_tcp_open
    (Probe.mkWorld (float_of_Z 1) (λ _ _ _, Probe.ConnectRaises ConnectionRefusedError)
                   (float_of_Z 2))
    "example.com" 443 (float_of_Z 5)
  = Return ("CLOSED", None).
Proof.
  destruct (check_tcp_open_classifies_os_errors
              (Probe.mkWorld (float_of_Z 1)
                 (λ _ _ _, Probe.ConnectRaises ConnectionRefusedError) (float_of_Z 2))
              "example.com" 443 (float_of_Z 5))
    as (status & latency & Hret & _ & _ & Hkind).
  - intros e [= <-]. reflexivity.
  - destruct (Hkind ConnectionRefusedError eq_refl) as (_ & _ & Hclosed & _).
    rewrite Hret.
    assert (status = "CLOSED") as -> by (apply Hclosed; reflexivity).
    by injection Hret as <-.
Defined.

(** * More of the rows and the target list *)

Section RowProofs.
Context `{!PythonLib}.
Variable INI_PATH : string.

Lemma on_row_dom f (a : App) r : dom (row_heap (on_row f a r)) = dom (row_heap a).
Proof. unfold on_row. simpl. apply dom_alter_L. Qed.

Lemma foldl_on_row_dom f (l : list nat) (a : App) :
  dom (row_heap (foldl (on_row f) a l)) = dom (row_heap a).
Proof.
  revert a. induction l as [|r l IH]; intros a; simpl; [done|].
  by rewrite IH, on_row_dom.
Qed.

(** A method applied to every row of a list has been applied to each of
    them, when it does the same applied twice. *)
Lemma foldl_on_row_lookup f (l : list nat) (a : App) r row :
  (∀ x, f (f x) = f x) →
  row_heap a !! r = Some row →
  row_heap (foldl (on_row f) a l) !! r = Some (if bool_decide (r ∈ l) then f row else row).
Proof.
  intros Hf. revert a row. induction l as [|x l IH]; intros a row Hrow; simpl; [done|].
  destruct (decide (x = r)) as [->|Hne].
  - rewrite (IH _ (f row)) by (unfold on_row; simpl; by rewrite lookup_alter_eq, Hrow).
    rewrite (bool_decide_eq_true_2 (r ∈ r :: l)) by left.
    case_bool_decide; by rewrite ?Hf.
  - rewrite (IH _ row) by (unfold on_row; simpl; by rewrite lookup_alter_ne).
    apply f_equal. destruct (decide (r ∈ l)) as [Hin|Hnin].
    + rewrite !bool_decide_eq_true_2; [done|by right|done].
    + rewrite !bool_decide_eq_false_2; [done| |done].
      by intros [?|?]%elem_of_cons.
Qed.

Lemma append_row_heap (b : App) t : heap (append_row b t) = heap b.
Proof. reflexivity. Qed.

(** The rows that the second loop of [rebuild_rows] adds. *)
Lemma append_rows_spec (ts : list nat) : ∀ b : App,
  (∀ r, r ∈ rows b → r ∈ dom (row_heap b)) → NoDup (rows b) →
  ∃ news,
    rows (foldl append_row b ts) = rows b ++ news
    ∧ length news = length ts
    ∧ NoDup (rows b ++ news)
    ∧ (∀ r, r ∈ news → r ∉ dom (row_heap b))
    ∧ (∀ k r, news !! k = Some r →
         ∃ t, ts !! k = Some t
              ∧ row_heap (foldl append_row b ts) !! r = Some (new_row b t))
    ∧ (∀ r, r ∈ dom (row_heap b) →
         row_heap (foldl append_row b ts) !! r = row_heap b !! r).
Proof.
  induction ts as [|t ts IH]; intros b Hdom Hnd; simpl.
  - exists []. rewrite app_nil_r. split_and!; [done|done|done| | |done].
    + intros r Hr. by apply elem_of_nil in Hr.
    + intros k r Hk. done.
  - set (r0 := fresh (dom (row_heap b))).
    assert (r0 ∉ dom (row_heap b)) as Hfresh by apply is_fresh.
    assert (rows (append_row b t) = rows b ++ [r0]) as Hrows by reflexivity.
    assert (row_heap (append_row b t) = <[r0 := new_row b t]> (row_heap b)) as Hheap
      by reflexivity.
    destruct (IH (append_row b t)) as (news & Hnews & Hlen & Hnd' & Hout & Hnew & Hold).
    { rewrite Hrows, Hheap, dom_insert_L.
      intros r [Hr| ->%list_elem_of_singleton]%elem_of_app.
      - by apply elem_of_union_r, Hdom.
      - by apply elem_of_union_l, elem_of_singleton. }
    { rewrite Hrows. apply NoDup_app. split_and!; [done| |apply NoDup_singleton].
      intros r Hr ->%list_elem_of_singleton. by apply Hfresh, Hdom. }
    assert (r0 ∈ dom (row_heap (append_row b t))) as Hr0
      by (rewrite Hheap, dom_insert_L; by apply elem_of_union_l, elem_of_singleton).
    exists (r0 :: news). rewrite Hrows, <- app_assoc in Hnews, Hnd'. simpl in Hnews, Hnd'.
    split_and!; [done|by rewrite length_cons, Hlen|done| | |].
    + intros r [->|Hr]%elem_of_cons; [done|].
      intros Hin. apply (Hout r Hr). rewrite Hheap, dom_insert_L. by apply elem_of_union_r.
    + intros [|k] r Hk; simpl in Hk.
      * injection Hk as <-. exists t. split; [done|].
        rewrite (Hold r0 Hr0), Hheap. apply lookup_insert_eq.
      * destruct (Hnew k r Hk) as (t' & Ht' & Hrow). exists t'. split; [done|].
        rewrite Hrow. done.
    + intros r Hr. rewrite Hold.
      * rewrite Hheap. apply lookup_insert_ne. by intros <-.
      * rewrite Hheap, dom_insert_L. by apply elem_of_union_r.
Qed.

Lemma filter_all {A} (f : A → bool) (l : list A) :
  (∀ x, x ∈ l → f x = true) → List.filter f l = l.
Proof.
  induction l as [|x l IH]; intros Hall; simpl; [done|].
  rewrite (Hall x) by left. f_equal. apply IH. intros y Hy. apply Hall. by right.
Qed.

(** With distinct names, only a target itself agrees with it in name, host
    and port. *)
Lemma same_target_distinct (a : App) t x :
  NoDup (names a) → t ∈ targets a → x ∈ targets a →
  same_target (heap a !!! x) (heap a !!! t) = bool_decide (x = t).
Proof.
  intros Hnd Ht Hx. case_bool_decide as Heq.
  - subst. unfold same_target. by rewrite !bool_decide_eq_true_2.
  - unfold same_target. rewrite bool_decide_eq_false_2; [done|].
    intros Hname. apply Heq.
    apply list_elem_of_lookup in Ht as [i Hi]. apply list_elem_of_lookup in Hx as [j Hj].
    assert (i = j) as ->; [|congruence].
    eapply (NoDup_lookup (names a)); [done| |].
    + unfold names, target_values. rewrite !list_lookup_fmap, Hi. simpl. reflexivity.
    + unfold names, target_values. rewrite !list_lookup_fmap, Hj. simpl. by rewrite Hname.
Qed.

(** What [rebuild_rows] leaves. *)
Lemma rebuild_rows_spec (a : App) :
  let a' := rebuild_rows a in
  length (rows a') = length (targets a)
  ∧ NoDup (rows a')
  ∧ (∀ k r, rows a' !! k = Some r →
       (r ∉ dom (row_heap a))
       ∧ ∃ t row, targets a !! k = Some t ∧ row_heap a' !! r = Some row
                  ∧ fresh_row a t row)
  ∧ (∀ r row, r ∈ rows a → row_heap a !! r = Some row →
       ∃ row', row_heap a' !! r = Some row' ∧ alive row' = false)
  ∧ heap a' = heap a ∧ targets a' = targets a.
Proof.
  intros a'. unfold a', rebuild_rows.
  set (b0 := foldl (on_row destroy) a (rows a)).
  set (b := with_rows [] b0).
  assert (heap b = heap a) as Hheap by (unfold b, b0; simpl; by rewrite (foldl_keeps heap)).
  assert (targets b = targets a) as Htargets
    by (unfold b, b0; simpl; by rewrite (foldl_keeps targets)).
  assert (dom (row_heap b) = dom (row_heap a)) as Hdom
    by (unfold b, b0; simpl; apply foldl_on_row_dom).
  rewrite Htargets.
  destruct (append_rows_spec (targets a) b)
    as (news & Hrows & Hlen & Hnd & Hout & Hnew & Hold).
  { intros r Hr. by apply elem_of_nil in Hr. }
  { apply NoDup_nil_2. }
  simpl in Hrows, Hnd. rewrite Hrows.
  split_and!.
  - done.
  - done.
  - intros k r Hk. destruct (Hnew k r Hk) as (t & Ht & Hrow).
    split; [rewrite <- Hdom; apply Hout; by eapply list_elem_of_lookup_2|].
    exists t, (new_row b t). split_and!; [done|done|].
    unfold fresh_row, new_row. rewrite Hheap. by split_and!.
  - intros r row Hr Hrow.
    assert (row_heap b !! r = Some (destroy row)) as Hb.
    { unfold b, b0. simpl. rewrite (foldl_on_row_lookup destroy _ _ r row); [|done|done].
      by rewrite bool_decide_eq_true_2. }
    exists (destroy row). split; [|done].
    rewrite Hold; [done|]. rewrite Hdom. by apply elem_of_dom.
  - rewrite (foldl_keeps heap) by done. done.
  - rewrite (foldl_keeps targets) by done. done.
Qed.

End RowProofs.

(** X6: after [rebuild_rows] there is one row for each target, in the
    order of the list; each is a new object that shows the target's name,
    host and port, with the status [—] and an enabled delete button; the
    rows are pairwise distinct; the rows that were listed before are
    destroyed; and neither the targets nor the list have changed. *)
Theorem rebuild_rows_mirrors_targets `{!PythonLib} (a : App) :
  let a' := rebuild_rows a in
  length (rows a') = length (targets a)
  ∧ NoDup (rows a')
  ∧ (∀ k r, rows a' !! k = Some r →
       (r ∉ dom (row_heap a))
       ∧ ∃ t row, targets a !! k = Some t ∧ row_heap a' !! r = Some row
                  ∧ fresh_row a t row)
  ∧ (∀ r row, r ∈ rows a → row_heap a !! r = Some row →
       ∃ row', row_heap a' !! r = Some row' ∧ alive row' = false)
  ∧ heap a' = heap a ∧ targets a' = targets a.
Proof. apply rebuild_rows_spec. Qed.

Lemma rebuild_rows_mirrors_targets_example :
  length (rows (rebuild_rows example_app)) = 2%nat
  ∧ NoDup (rows (rebuild_rows example_app))
  ∧ ∀ r, r ∈ rows (rebuild_rows example_app) → r ∉ dom (row_heap example_app).
Proof.
  destruct (rebuild_rows_mirrors_targets example_app) as (Hlen & Hnd & Hnew & _).
  split_and!; [exact Hlen|exact Hnd|].
  intros r [k Hk]%list_elem_of_lookup. by destruct (Hnew k r Hk).
Defined.

(** X7: with pairwise distinct names and no scan running, [delete_row]
    on a row whose target is in the list removes that one entry and leaves
    the others in their order. *)
Theorem delete_row_removes_one `{!PythonLib} (INI_PATH : string) (a : App) (row t : nat) :
  refresh_in_progress a = false → NoDup (names a) →
  target (row_heap a !!! row) = t → t ∈ targets a →
  ∃ before after,
    targets a = before ++ t :: after
    ∧ targets (exec (delete_row INI_PATH row) a) = before ++ after.
Proof.
  intros Hflag Hnd Hrow Ht.
  assert (NoDup (targets a)) as Hndt.
  { unfold names, target_values in Hnd. by do 2 apply NoDup_fmap_1 in Hnd. }
  destruct (list_elem_of_split _ _ Ht) as (before & after & Hsplit).
  exists before, after. split; [done|].
  unfold delete_row, exec. rewrite Hflag, Hrow.
  set (kept := List.filter _ _).
  assert (kept = before ++ after) as Hkept.
  { unfold kept. rewrite Hsplit, List.filter_app. simpl.
    rewrite (same_target_distinct a t t Hnd Ht Ht), bool_decide_eq_true_2 by done. simpl.
    rewrite Hsplit in Hndt. apply NoDup_app in Hndt as (_ & Hdisj & Hnda).
    apply NoDup_cons in Hnda as [Hnin _].
    rewrite !filter_all; [done| |].
    - intros x Hx. rewrite (same_target_distinct a t x Hnd Ht).
      + rewrite bool_decide_eq_false_2; [done|]. by intros ->.
      + rewrite Hsplit. apply elem_of_app. right. by right.
    - intros x Hx. rewrite (same_target_distinct a t x Hnd Ht).
      + rewrite bool_decide_eq_false_2; [done|]. intros ->. apply (Hdisj t Hx). left.
      + rewrite Hsplit. apply elem_of_app. by left. }
  rewrite Hkept.
  destruct (persist_frame INI_PATH (with_targets (before ++ after) a)) as (_ & Hp & _).
  unfold exec in Hp. unfold bind, lift.
  destruct (persist INI_PATH (with_targets (before ++ after) a)) as [[[]|e] a1]; simpl in *.
  - by destruct (rebuild_rows_frame a1) as (_ & -> & _).
  - done.
Qed.

Lemma delete_row_removes_one_example :
  ∃ before after,
    targets example_app = before ++ 1%nat :: after
    ∧ targets (exec (delete_row "itpo.ini" 1) example_app) = before ++ after.
Proof.
  apply (delete_row_removes_one "itpo.ini" example_app 1 1).
  - reflexivity.
  - apply (bool_decide_unpack _). vm_compute. reflexivity.
  - reflexivity.
  - apply (bool_decide_unpack _). vm_compute. reflexivity.
Defined.

(** X8: when [add_target] raises (the configuration cannot be saved),
    the new target is in the list all the same, while the rows, the files
    and the scan flag are as before; and saving the list as it now is
    raises again. *)
Theorem add_target_raises_after_append `{!PythonLib} (INI_PATH : string) (a : App)
    (t : nat) e a' :
  add_target INI_PATH t a = (Raise e, a') →
  targets a' = targets a ++ [t]
  ∧ rows a' = rows a ∧ row_heap a' = row_heap a ∧ disk a' = disk a
  ∧ refresh_in_progress a' = refresh_in_progress a ∧ workers a' = workers a
  ∧ persist INI_PATH a' = (Raise e, a').
Proof.
  unfold add_target.
  set (a1 := if bool_decide _ then _ else a).
  assert (targets a1 = targets a ∧ rows a1 = rows a ∧ row_heap a1 = row_heap a
          ∧ disk a1 = disk a ∧ refresh_in_progress a1 = refresh_in_progress a
          ∧ workers a1 = workers a) as (Ht & Hr & Hrh & Hd & Hf & Hw).
  { unfold a1. case_bool_decide; [|done].
    by destruct (first_free _ _ _ _). }
  set (a2 := with_targets (targets a1 ++ [t]) a1).
  unfold bind, lift.
  destruct (persist INI_PATH a2) as [[[]|e'] a3] eqn:Hp; [done|].
  intros [= -> ->].
  assert (a' = a2) as ->.
  { unfold persist in Hp. destruct (save_state _ _ _ _ _ _); [done|].
    by injection Hp as _ Ha. }
  unfold a2 at 1 2 3 4 5 6. simpl. rewrite Ht. by split_and!.
Qed.

Lemma add_target_raises_after_append_example :
  ∃ a', add_target "itpo.ini" 2 percent_app = (Raise ValueError, a')
        ∧ targets a' = [0; 1; 2]%nat ∧ rows a' = [0; 1]%nat ∧ disk a' = ∅.
Proof.
  destruct (add_target "itpo.ini" 2 percent_app) as [[[]|e] a'] eqn:Hadd.
  - exfalso.
    assert (match (add_target "itpo.ini" 2 percent_app).1 with
            | Return _ => False
            | Raise e => e = ValueError
            end) as Hraise by (vm_compute; reflexivity).
    by rewrite Hadd in Hraise.
  - assert (e = ValueError) as ->.
    { assert (match (add_target "itpo.ini" 2 percent_app).1 with
              | Return _ => False
              | Raise e => e = ValueError
              end) as Hraise by (vm_compute; reflexivity).
      by rewrite Hadd in Hraise. }
    exists a'. split; [reflexivity|].
    destruct (add_target_raises_after_append "itpo.ini" percent_app 2 ValueError a' Hadd)
      as (-> & -> & _ & -> & _).
    by split_and!.
Defined.

(** * The dialogs *)

Lemma strip_str_int z : strip (str_int z) = str_int z.
Proof. apply strip_forall, str_int_not_space. Qed.

Lemma strip_str_float `{!PythonLib} x : strip (str_float x) = str_float x.
Proof.
  pose proof (str_float_plain x) as Hp. unfold ini_plain_value in Hp.
  apply andb_true_iff in Hp as [Hp _]. by apply bool_decide_eq_true in Hp.
Qed.

Section DialogProofs.
Context `{!PythonLib}.
Variable INI_PATH : string.

(** What the settings are after [apply_settings], whether or not the
    configuration could be saved. *)
Lemma apply_settings_fields new_timeout new_max_workers new_auto_refresh (a : App) :
  let a' := (apply_settings INI_PATH new_timeout new_max_workers new_auto_refresh a).2 in
  timeout a' = new_timeout ∧ max_workers a' = new_max_workers
  ∧ auto_refresh_seconds a' = new_auto_refresh
  ∧ executor a' = (if bool_decide (new_max_workers ≠ max_workers a)
                      && negb (new_max_workers <=? 0)%Z
                   then new_max_workers else executor a)
  ∧ heap a' = heap a ∧ targets a' = targets a.
Proof.
  destruct (apply_settings_cases INI_PATH new_timeout new_max_workers new_auto_refresh a)
    as [(-> & Hw & Hle)|[-> Hw]].
  { simpl. rewrite bool_decide_eq_true_2 by done.
    by rewrite (proj2 (Z.leb_le _ _) Hle). }
  unfold bind, lift. simpl.
  set (a0 := assigned new_timeout new_max_workers new_auto_refresh a).
  assert (timeout a0 = new_timeout ∧ max_workers a0 = new_max_workers
          ∧ auto_refresh_seconds a0 = new_auto_refresh
          ∧ executor a0 = (if bool_decide (new_max_workers ≠ max_workers a)
                              && negb (new_max_workers <=? 0)%Z
                           then new_max_workers else executor a)
          ∧ heap a0 = heap a ∧ targets a0 = targets a)
    as (H1 & H2 & H3 & H4 & H5 & H6).
  { unfold a0, assigned. case_bool_decide as Hne; simpl; [|done].
    destruct Hw as [Hw|Hw]; [done|]. by rewrite (proj2 (Z.leb_gt _ _) Hw). }
  unfold persist. destruct (save_state _ _ _ _ _ _) as [files|e]; simpl; [|done].
  set (a1 := with_disk files a0).
  assert (∀ b : App,
            timeout (refresh_async (_schedule_auto_refresh b)) = timeout b
            ∧ max_workers (refresh_async (_schedule_auto_refresh b)) = max_workers b
            ∧ auto_refresh_seconds (refresh_async (_schedule_auto_refresh b))
              = auto_refresh_seconds b
            ∧ executor (refresh_async (_schedule_auto_refresh b)) = executor b
            ∧ heap (refresh_async (_schedule_auto_refresh b)) = heap b
            ∧ targets (refresh_async (_schedule_auto_refresh b)) = targets b) as Hkeep.
  { intros b.
    assert (timeout (_schedule_auto_refresh b) = timeout b
            ∧ max_workers (_schedule_auto_refresh b) = max_workers b
            ∧ auto_refresh_seconds (_schedule_auto_refresh b) = auto_refresh_seconds b
            ∧ executor (_schedule_auto_refresh b) = executor b
            ∧ heap (_schedule_auto_refresh b) = heap b
            ∧ targets (_schedule_auto_refresh b) = targets b) as (<- & <- & <- & <- & <- & <-).
    { unfold _schedule_auto_refresh.
      destruct (_auto_after_id b); simpl; destruct (negb _ && _); simpl; done. }
    generalize (_schedule_auto_refresh b). intros c.
    unfold refresh_async. destruct (refresh_in_progress c); [done|]. simpl.
    unfold _set_editing_enabled.
    rewrite !(foldl_keeps timeout), !(foldl_keeps max_workers),
      !(foldl_keeps auto_refresh_seconds), !(foldl_keeps executor),
      !(foldl_keeps heap), !(foldl_keeps targets) by done.
    done. }
  destruct (Hkeep a1) as (-> & -> & -> & -> & -> & ->). done.
Qed.

End DialogProofs.

(** X9: after [AddTargetDialog._submit] the error label is not packed,
    whatever has been typed: the call begins by taking the label out of the
    layout and nothing puts it back, so the message it is given (for an
    empty name, [Name is required.]) is set on a label that is not shown. *)
Theorem add_dialog_hides_error `{!PythonLib} (INI_PATH : string)
    (d : AddTargetDialog.widget) (a : App) :
  let out := AddTargetDialog._submit INI_PATH d a in
  AddTargetDialog.error_packed out.1.2 = false
  ∧ (strip (AddTargetDialog.name_entry d) = "" →
     AddTargetDialog.error out.1.2 = "Name is required." ∧ out.2 = a).
Proof.
  unfold AddTargetDialog._submit.
  set (d0 := if AddTargetDialog.error_packed d then _ else d).
  assert (AddTargetDialog.error_packed d0 = false
          ∧ AddTargetDialog.name_entry d0 = AddTargetDialog.name_entry d) as [Hp ->].
  { unfold d0. by destruct (AddTargetDialog.error_packed d) eqn:E. }
  case_bool_decide as Hname; [done|].
  case_bool_decide as Hhost; [done|].
  destruct (py_int _) as [port|]; [|done].
  destruct (negb _); [done|].
  by destruct (add_target _ _ _) as [[[]|e] a'].
Qed.

Lemma add_dialog_hides_error_example :
  AddTargetDialog.error_packed
    (AddTargetDialog._submit "itpo.ini" AddTargetDialog.__init__ example_app).1.2 = false
  ∧ AddTargetDialog.error
      (AddTargetDialog._submit "itpo.ini" AddTargetDialog.__init__ example_app).1.2
    = "Name is required.".
Proof.
  destruct (add_dialog_hides_error "itpo.ini" AddTargetDialog.__init__ example_app)
    as [Hpacked Hname].
  split; [exact Hpacked|]. by destruct (Hname eq_refl).
Defined.

(** X10: [AddTargetDialog._submit] either rejects what was typed, and then
    it returns with the application as it was, the dialog still open and one
    of its three messages set; or it hands [add_target] a new [Target]
    object whose name and host are the entries without the blanks around
    them and not empty, and whose port is the number typed, from 1 to 65535;
    the dialog is destroyed when [add_target] returns and stays when it
    raises. *)
Theorem add_dialog_validates `{!PythonLib} (INI_PATH : string)
    (d : AddTargetDialog.widget) (a : App) :
  let out := AddTargetDialog._submit INI_PATH d a in
  (out.1.1 = Return tt ∧ out.2 = a
   ∧ AddTargetDialog.destroyed out.1.2 = AddTargetDialog.destroyed d
   ∧ AddTargetDialog.error out.1.2 ∈ add_errors)
  ∨ ∃ tg, well_formed tg
      ∧ name tg = strip (AddTargetDialog.name_entry d)
      ∧ host tg = strip (AddTargetDialog.host_entry d)
      ∧ py_int (strip (AddTargetDialog.port_entry d)) = Some (port tg)
      ∧ heap a !! fresh (dom (heap a)) = None
      ∧ (out.1.1, out.2)
        = add_target INI_PATH (fresh (dom (heap a)))
            (with_heap (<[fresh (dom (heap a)) := tg]> (heap a)) a)
      ∧ (out.1.1 = Return tt → AddTargetDialog.destroyed out.1.2 = true)
      ∧ (∀ e, out.1.1 = Raise e →
           AddTargetDialog.destroyed out.1.2 = AddTargetDialog.destroyed d).
Proof.
  unfold AddTargetDialog._submit, add_errors.
  set (d0 := if AddTargetDialog.error_packed d then _ else d).
  assert (AddTargetDialog.name_entry d0 = AddTargetDialog.name_entry d
          ∧ AddTargetDialog.host_entry d0 = AddTargetDialog.host_entry d
          ∧ AddTargetDialog.port_entry d0 = AddTargetDialog.port_entry d
          ∧ AddTargetDialog.destroyed d0 = AddTargetDialog.destroyed d)
    as (-> & -> & -> & Hd).
  { unfold d0. by destruct (AddTargetDialog.error_packed d). }
  case_bool_decide as Hname; [left; split_and!; [done..|in_list]|].
  case_bool_decide as Hhost; [left; split_and!; [done..|in_list]|].
  destruct (py_int _) as [port|] eqn:Hport; [|left; split_and!; [done..|in_list]].
  destruct ((1 <=? port)%Z && (port <=? 65535)%Z) eqn:Hrange; simpl;
    [|left; split_and!; [done..|in_list]].
  right.
  exists (mkTarget (strip (AddTargetDialog.name_entry d))
                   (strip (AddTargetDialog.host_entry d)) port).
  simpl. apply andb_true_iff in Hrange as [?%Z.leb_le ?%Z.leb_le].
  split.
  { unfold well_formed. simpl.
    split_and!; [done|apply strip_idemp|done|apply strip_idemp|lia|lia]. }
  do 3 (split; [done|]). split_and!.
  - apply not_elem_of_dom, is_fresh.
  - by destruct (add_target _ _ _) as [[[]|e] a'].
  - by destruct (add_target _ _ _) as [[[]|e] a'].
  - by destruct (add_target _ _ _) as [[[]|e] a'].
Qed.

(** X11: [SettingsDialog._apply] either rejects what was typed, and then
    it returns with the application as it was, the dialog still open and one
    of its three messages set; or it calls [apply_settings] with a time-out
    that is not [<= 0], a worker count from 1 to 500 and an interval that is
    not negative, and these are the settings of the application afterwards. *)
Theorem settings_dialog_validates `{!PythonLib} (INI_PATH : string)
    (d : SettingsDialog.widget) (a : App) :
  let out := SettingsDialog._apply INI_PATH d a in
  (out.1.1 = Return tt ∧ out.2 = a
   ∧ SettingsDialog.destroyed out.1.2 = SettingsDialog.destroyed d
   ∧ SettingsDialog.error out.1.2 ∈ settings_errors)
  ∨ ∃ new_timeout new_max_workers new_auto_refresh,
      float_of_str (strip (SettingsDialog.timeout_entry d)) = Some new_timeout
      ∧ py_int (strip (SettingsDialog.max_workers_entry d)) = Some new_max_workers
      ∧ py_int (strip (SettingsDialog.auto_refresh_entry d)) = Some new_auto_refresh
      ∧ (out.1.1, out.2)
        = apply_settings INI_PATH new_timeout new_max_workers new_auto_refresh a
      ∧ timeout out.2 = new_timeout ∧ max_workers out.2 = new_max_workers
      ∧ auto_refresh_seconds out.2 = new_auto_refresh
      ∧ settings_in_bounds out.2
      ∧ (out.1.1 = Return tt → SettingsDialog.destroyed out.1.2 = true).
Proof.
  unfold SettingsDialog._apply, settings_errors.
  destruct (float_of_str _) as [x|] eqn:Hx; [|left; split_and!; [done..|in_list]].
  destruct (float_leb x float_zero) eqn:Hle; [left; split_and!; [done..|in_list]|].
  destruct (py_int (strip (SettingsDialog.max_workers_entry d))) as [w|] eqn:Hw;
    [|left; split_and!; [done..|in_list]].
  destruct ((w <? 1)%Z || (500 <? w)%Z) eqn:Hwr; [left; split_and!; [done..|in_list]|].
  destruct (py_int (strip (SettingsDialog.auto_refresh_entry d))) as [r|] eqn:Hr;
    [|left; split_and!; [done..|in_list]].
  destruct (r <? 0)%Z eqn:Hrr; [left; split_and!; [done..|in_list]|].
  right. exists x, w, r.
  apply orb_false_iff in Hwr as [?%Z.ltb_ge ?%Z.ltb_ge]. apply Z.ltb_ge in Hrr.
  destruct (apply_settings_fields INI_PATH x w r a) as (Ht & Hm & Ha & _).
  destruct (apply_settings INI_PATH x w r a) as [[[]|e] a'] eqn:Happ; simpl in *;
    (split_and!; [done..| |done]);
    unfold settings_in_bounds; rewrite Ht, Hm, Ha; split_and!; (done || lia).
Qed.

(** X12: while no scan is running [open_settings] opens a dialog that
    shows the current settings, and applying it as it is calls
    [apply_settings] with these very settings (provided they are within the
    dialog's bounds and the time-out survives printing and reading): the
    settings and the pool are afterwards what they were. *)
Theorem settings_dialog_round_trip `{!PythonLib} (INI_PATH : string) (a : App) :
  refresh_in_progress a = false → settings_in_bounds a →
  float_of_str (str_float (timeout a)) = Some (timeout a) →
  ∃ d, open_settings a = Some d
       ∧ let out := SettingsDialog._apply INI_PATH d a in
         (out.1.1, out.2)
         = apply_settings INI_PATH (timeout a) (max_workers a) (auto_refresh_seconds a) a
         ∧ timeout out.2 = timeout a ∧ max_workers out.2 = max_workers a
         ∧ auto_refresh_seconds out.2 = auto_refresh_seconds a
         ∧ executor out.2 = executor a.
Proof.
  intros Hflag (Hle & Hw & Hr) Hfloat.
  unfold open_settings. rewrite Hflag. eexists. split; [reflexivity|].
  unfold SettingsDialog._apply, SettingsDialog.__init__. simpl.
  rewrite strip_str_float, Hfloat, Hle, !strip_str_int, !py_int_str_int.
  assert ((max_workers a <? 1)%Z || (500 <? max_workers a)%Z = false) as ->
    by (apply orb_false_iff; split; apply Z.ltb_ge; lia).
  assert ((auto_refresh_seconds a <? 0)%Z = false) as -> by (apply Z.ltb_ge; lia).
  destruct (apply_settings_fields INI_PATH (timeout a) (max_workers a)
              (auto_refresh_seconds a) a) as (Ht & Hm & Ha & He & _).
  rewrite bool_decide_eq_false_2 in He by (by intros ?).
  by destruct (apply_settings INI_PATH (timeout a) (max_workers a)
                 (auto_refresh_seconds a) a) as [[[]|e] a'] eqn:Happ.
Qed.

Lemma settings_dialog_round_trip_example :
  ∃ d, @open_settings plain_lib example_app = Some d
       ∧ timeout (SettingsDialog._apply "itpo.ini" d example_app).2 = float_5
       ∧ max_workers (SettingsDialog._apply "itpo.ini" d example_app).2 = 10.
Proof.
  destruct (settings_dialog_round_trip "itpo.ini" example_app)
    as (d & Hopen & _ & Ht & Hm & _).
  - reflexivity.
  - unfold settings_in_bounds. simpl. split_and!; [reflexivity|lia..].
  - reflexivity.
  - exists d. by split_and!.
Defined.

(** * Start-up and shutdown *)

Section LifecycleProofs.
Context `{!PythonLib}.
Variable INI_PATH : string.

(** The objects that [App.__init__] makes of the loaded targets. *)
Lemma map_seq_values (loaded : list Target) :
  (λ t, (map_seq 0 loaded : gmap nat Target) !!! t) <$> seq 0 (length loaded) = loaded.
Proof.
  apply list_eq. intros i. rewrite list_lookup_fmap.
  destruct (loaded !! i) as [tg|] eqn:Hi.
  - rewrite lookup_seq_lt by (by eapply lookup_lt_Some). simpl.
    unfold lookup_total, map_lookup_total. by rewrite lookup_map_seq_0, Hi.
  - rewrite lookup_seq_ge; [done|]. by apply lookup_ge_None.
Qed.

Lemma _schedule_auto_refresh_frame (a : App) :
  let a' := _schedule_auto_refresh a in
  heap a' = heap a ∧ targets a' = targets a ∧ rows a' = rows a
  ∧ row_heap a' = row_heap a ∧ refresh_in_progress a' = refresh_in_progress a
  ∧ workers a' = workers a ∧ timeout a' = timeout a ∧ max_workers a' = max_workers a
  ∧ executor a' = executor a ∧ disk a' = disk a
  ∧ add_btn a' = add_btn a ∧ settings_button a' = settings_button a
  ∧ refresh_button a' = refresh_button a.
Proof.
  unfold _schedule_auto_refresh.
  destruct (_auto_after_id a); simpl; destruct (negb _ && _); simpl; by split_and!.
Qed.

Lemma refresh_async_settings (a : App) :
  let a' := refresh_async a in
  timeout a' = timeout a ∧ max_workers a' = max_workers a ∧ executor a' = executor a
  ∧ disk a' = disk a ∧ rows a' = rows a.
Proof.
  unfold refresh_async. destruct (refresh_in_progress a); [done|]. simpl.
  unfold _set_editing_enabled.
  rewrite !(foldl_keeps timeout), !(foldl_keeps max_workers), !(foldl_keeps executor),
    !(foldl_keeps disk), !(foldl_keeps rows) by done.
  done.
Qed.

Lemma rebuild_rows_settings (a : App) :
  let a' := rebuild_rows a in
  timeout a' = timeout a ∧ max_workers a' = max_workers a ∧ executor a' = executor a
  ∧ disk a' = disk a ∧ workers a' = workers a
  ∧ timer_view a' = timer_view a.
Proof.
  unfold rebuild_rows, timer_view.
  rewrite !(foldl_keeps timeout), !(foldl_keeps max_workers), !(foldl_keeps executor),
    !(foldl_keeps disk), !(foldl_keeps workers), !(foldl_keeps tk_pending),
    !(foldl_keeps _auto_after_id), !(foldl_keeps auto_refresh_seconds),
    !(foldl_keeps tk_now), !(foldl_keeps tk_next_id) by done.
  simpl.
  rewrite !(foldl_keeps timeout), !(foldl_keeps max_workers), !(foldl_keeps executor),
    !(foldl_keeps disk), !(foldl_keeps workers), !(foldl_keeps tk_pending),
    !(foldl_keeps _auto_after_id), !(foldl_keeps auto_refresh_seconds),
    !(foldl_keeps tk_now), !(foldl_keeps tk_next_id) by done.
  done.
Qed.

(** A method that keeps the target of a row keeps the targets behind the
    rows. *)
Lemma foldl_on_row_target f (l : list nat) (a : App) r :
  (∀ x, target (f x) = target x) →
  target (row_heap (foldl (on_row f) a l) !!! r) = target (row_heap a !!! r).
Proof.
  intros Hf. revert a. induction l as [|x l IH]; intros a; simpl; [done|].
  rewrite IH. unfold on_row, lookup_total, map_lookup_total. simpl.
  destruct (decide (x = r)) as [->|Hne].
  - rewrite lookup_alter_eq. destruct (row_heap a !! r); simpl; [apply Hf|done].
  - by rewrite lookup_alter_ne.
Qed.

Lemma refresh_async_row_targets (a : App) : row_targets (refresh_async a) = row_targets a.
Proof.
  unfold row_targets. destruct (refresh_async_settings a) as (_ & _ & _ & _ & ->).
  apply list_fmap_ext. intros i r _.
  unfold refresh_async. destruct (refresh_in_progress a); [done|]. simpl.
  rewrite foldl_on_row_target by done.
  unfold _set_editing_enabled. by rewrite foldl_on_row_target.
Qed.

(** From idle, [refresh_async] leaves every listed row with the text
    [Checking...] and a disabled delete button. *)
Lemma refresh_async_rows (a : App) r row :
  refresh_in_progress a = false → r ∈ rows a → row_heap a !! r = Some row →
  row_heap (refresh_async a) !! r = Some (set_checking (set_delete_enabled false row)).
Proof.
  intros Hflag Hr Hrow. unfold refresh_async. rewrite Hflag. simpl.
  rewrite (foldl_on_row_lookup set_checking _ _ r (set_delete_enabled false row)); [|done|].
  - rewrite bool_decide_eq_true_2; [done|].
    unfold _set_editing_enabled. by rewrite (foldl_keeps rows).
  - unfold _set_editing_enabled. simpl.
    rewrite (foldl_on_row_lookup (set_delete_enabled false) _ _ r row); [|done|done].
    by rewrite bool_decide_eq_true_2.
Qed.

Lemma refresh_async_editing (a : App) :
  refresh_in_progress a = false →
  add_btn (refresh_async a) = false ∧ settings_button (refresh_async a) = false.
Proof.
  intros Hflag. unfold refresh_async. rewrite Hflag. simpl.
  rewrite (foldl_keeps add_btn), (foldl_keeps settings_button) by done.
  unfold _set_editing_enabled.
  by rewrite (foldl_keeps add_btn), (foldl_keeps settings_button).
Qed.

Lemma programmed_one_timer (a : App) now : programmed a now → one_timer a.
Proof.
  unfold programmed, one_timer. case_bool_decide.
  - intros (id & Hid & Hall) id' due Htick. apply Hall in Htick as [-> _]. done.
  - intros [_ Hnone] id due Htick. by apply Hnone in Htick.
Qed.

(** Saving and loading give back what was saved. *)
Lemma load_saved timeout max_workers auto_refresh saved path (files : Disk) :
  float_of_str (str_float timeout) = Some timeout →
  NoDup (name <$> saved) →
  Forall (λ t, storable t = true) saved →
  ∃ files', save_state timeout max_workers auto_refresh saved path files = Return files'
            ∧ load_state path files' = Return (timeout, max_workers, auto_refresh, saved).
Proof.
  intros Hfloat Hnd Hst. unfold save_state.
  rewrite set_targets_stored by done. rewrite app_nil_l.
  eexists. split; [reflexivity|].
  unfold load_state, _read_ini. rewrite disk_after_save.
  rewrite saved_config_eq, ini_read_write by by apply saved_config_plain.
  destruct (saved_config_get timeout max_workers auto_refresh (stored saved))
    as (Ht & Hw & Hr & Hsec).
  unfold getfloat, getint, load_targets. rewrite Ht, Hw, Hr.
  rewrite Hfloat, !py_int_str_int. cbv iota. rewrite Hsec.
  by rewrite load_stored.
Qed.

(** What [App.__init__] builds of what was loaded. *)
Lemma __init___returns now (files : Disk) loaded_timeout loaded_workers loaded_refresh loaded :
  load_state INI_PATH files
    = Return (loaded_timeout, loaded_workers, loaded_refresh, loaded) →
  (0 < loaded_workers)%Z →
  ∃ a, __init__ INI_PATH now files = Return a
       ∧ timeout a = loaded_timeout ∧ max_workers a = loaded_workers
       ∧ executor a = loaded_workers ∧ auto_refresh_seconds a = loaded_refresh
       ∧ target_values a = loaded ∧ disk a = files.
Proof.
  intros Hload Hpos. unfold __init__. rewrite Hload.
  rewrite (proj2 (Z.leb_gt _ _)) by done.
  eexists. split; [reflexivity|].
  set (a0 := mkApp _ _ _ _ _ _ _ _ _ _ _ _ _ _ _ _ _ _ _ _ _ _).
  destruct (_schedule_auto_refresh_frame (refresh_async (rebuild_rows a0)))
    as (Hh & Ht & _ & _ & _ & _ & Hto & Hmw & Hex & Hd & _).
  destruct (refresh_async_settings (rebuild_rows a0)) as (Hto' & Hmw' & Hex' & Hd' & _).
  destruct (refresh_async_frame (rebuild_rows a0)) as (Hh' & Ht').
  destruct (rebuild_rows_settings a0) as (Hto'' & Hmw'' & Hex'' & Hd'' & _ & Hview).
  destruct (rebuild_rows_frame a0) as (Hh'' & Ht'' & _).
  apply timer_view_inv in Hview as (_ & _ & Har & _).
  rewrite Hto, Hto', Hto'', Hmw, Hmw', Hmw'', Hex, Hex', Hex'', Hd, Hd', Hd''.
  split_and!; try done.
  - destruct (_schedule_auto_refresh_keeps (refresh_async (rebuild_rows a0))) as [-> _].
    pose proof (refresh_async_timer (rebuild_rows a0)) as Hv.
    apply timer_view_inv in Hv as (_ & _ & -> & _). by rewrite Har.
  - unfold target_values. rewrite Hh, Hh', Hh'', Ht, Ht', Ht''. simpl.
    apply map_seq_values.
Qed.

(** What [App.__init__] leaves when it returns. *)
Lemma __init___spec now (files : Disk) (a : App) :
  __init__ INI_PATH now files = Return a →
  load_state INI_PATH files
    = Return (timeout a, max_workers a, auto_refresh_seconds a, target_values a)
  ∧ (0 < max_workers a)%Z ∧ executor a = max_workers a
  ∧ Forall well_formed (target_values a)
  ∧ row_targets a = targets a
  ∧ (∀ r, r ∈ rows a →
       status_label (row_heap a !!! r) = Checking ∧ delete_btn (row_heap a !!! r) = false
       ∧ alive (row_heap a !!! r) = true)
  ∧ refresh_in_progress a = true ∧ workers a = 1%nat
  ∧ add_btn a = false ∧ settings_button a = false ∧ refresh_button a = false
  ∧ programmed a now
  ∧ disk a = files.
Proof.
  intros Hinit.
  destruct (load_state INI_PATH files) as [[[[lt lw] lr] loaded]|e] eqn:Hload;
    [|by unfold __init__ in Hinit; rewrite Hload in Hinit].
  destruct (decide (0 < lw)%Z) as [Hpos|Hneg];
    [|by unfold __init__ in Hinit; rewrite Hload, (proj2 (Z.leb_le _ _)) in Hinit by lia].
  destruct (__init___returns now files lt lw lr loaded Hload Hpos)
    as (a' & Hinit' & Ht & Hw & He & Har & Hv & Hd).
  rewrite Hinit in Hinit'. injection Hinit' as <-.
  rewrite Ht, Hw, Har, Hv, He.
  split; [done|]. split; [done|]. split; [done|].
  split; [apply load_state_inv in Hload as (cfg & _ & -> & _); apply load_targets_well_formed|].
  unfold __init__ in Hinit. rewrite Hload, (proj2 (Z.leb_gt _ _)) in Hinit by done.
  injection Hinit as Ha.
  set (a0 := mkApp _ _ _ _ _ _ _ _ _ _ _ _ _ _ _ _ _ _ _ _ _ _) in Ha.
  set (a1 := rebuild_rows a0) in Ha.
  assert (refresh_in_progress a1 = false) as Hflag1
    by (unfold a1; by destruct (rebuild_rows_frame a0) as (_ & _ & ->)).
  destruct (_schedule_auto_refresh_frame (refresh_async a1))
    as (Hh & Htg & Hrows & Hrh & Hflag & Hwk & _ & _ & _ & _ & Hab & Hsb & Hrb).
  cbv zeta in Hh, Htg, Hrows, Hrh, Hflag, Hwk, Hab, Hsb, Hrb.
  rewrite Ha in Hh, Htg, Hrows, Hrh, Hflag, Hwk, Hab, Hsb, Hrb.
  split_and!.
  - unfold row_targets. rewrite Hrows, Hrh, Htg.
    fold (row_targets (refresh_async a1)).
    rewrite refresh_async_row_targets. unfold a1.
    rewrite rebuild_rows_targets.
    destruct (refresh_async_frame (rebuild_rows a0)) as (_ & ->).
    by destruct (rebuild_rows_frame a0) as (_ & -> & _).
  - intros r Hr. rewrite Hrows in Hr. rewrite Hrh. clear Ht Hw.
    destruct (refresh_async_settings a1) as (_ & _ & _ & _ & Hrows1).
    rewrite Hrows1 in Hr.
    destruct (rebuild_rows_spec a0) as (_ & _ & Hnew & _).
    apply list_elem_of_lookup in Hr as [k Hk].
    destruct (Hnew k r Hk) as (_ & t & row & _ & Hrow & Hfresh).
    assert (r ∈ rows a1) as Hin by by eapply list_elem_of_lookup_2.
    unfold lookup_total, map_lookup_total.
    rewrite (refresh_async_rows a1 r row Hflag1 Hin Hrow). simpl.
    by destruct Hfresh as (_ & _ & _ & _ & _ & _ & ->).
  - rewrite Hflag. by destruct (refresh_async_starts a1 Hflag1) as (-> & _).
  - rewrite Hwk. destruct (refresh_async_starts a1 Hflag1) as (_ & -> & _).
    unfold a1. by destruct (rebuild_rows_settings a0) as (_ & _ & _ & _ & -> & _).
  - rewrite Hab. by destruct (refresh_async_editing a1 Hflag1) as [-> _].
  - rewrite Hsb. by destruct (refresh_async_editing a1 Hflag1) as [_ ->].
  - rewrite Hrb. by destruct (refresh_async_starts a1 Hflag1) as (_ & _ & ->).
  - rewrite <- Ha.
    assert (timer_view (refresh_async a1) = timer_view a0) as Hview.
    { rewrite refresh_async_timer. unfold a1.
      by destruct (rebuild_rows_settings a0) as (_ & _ & _ & _ & _ & ->). }
    pose proof Hview as Hview'. apply timer_view_inv in Hview' as (_ & _ & _ & Hnow & _).
    replace now with (tk_now (refresh_async a1)) by (by rewrite Hnow).
    apply _schedule_auto_refresh_programmed.
    apply (one_timer_view a0); [done|].
    intros id due Htick. unfold tick_pending in Htick. simpl in Htick.
    by rewrite lookup_empty in Htick.
  - done.
Qed.

End LifecycleProofs.

(** X13: when [App.__init__] returns, the application holds what
    [load_state] has read, with a pool of that many workers; there is one
    row for each target, each reading [Checking...] with its delete button
    disabled; a scan is in progress with one worker thread started; and the
    timer is programmed for the loaded interval, counted from the start. *)
Theorem init_loads_and_scans `{!PythonLib} (INI_PATH : string) now (files : Disk) (a : App) :
  __init__ INI_PATH now files = Return a →
  load_state INI_PATH files
    = Return (timeout a, max_workers a, auto_refresh_seconds a, target_values a)
  ∧ (0 < max_workers a)%Z ∧ executor a = max_workers a
  ∧ Forall well_formed (target_values a)
  ∧ row_targets a = targets a
  ∧ (∀ r, r ∈ rows a →
       status_label (row_heap a !!! r) = Checking ∧ delete_btn (row_heap a !!! r) = false
       ∧ alive (row_heap a !!! r) = true)
  ∧ refresh_in_progress a = true ∧ workers a = 1%nat
  ∧ add_btn a = false ∧ settings_button a = false ∧ refresh_button a = false
  ∧ programmed a now
  ∧ disk a = files.
Proof. apply __init___spec. Qed.

Lemma init_loads_and_scans_example :
  ∃ a, @__init__ plain_lib "itpo.ini" 0 ∅ = Return a
       ∧ refresh_in_progress a = true ∧ workers a = 1%nat ∧ max_workers a = 10.
Proof.
  destruct (@__init__ plain_lib "itpo.ini" 0 ∅) as [a|e] eqn:Hinit.
  - exists a. split; [reflexivity|].
    destruct (init_loads_and_scans "itpo.ini" 0 ∅ a Hinit)
      as (Hload & _ & _ & _ & _ & _ & Hflag & Hworkers & _).
    split_and!; [done..|].
    assert (@load_state plain_lib "itpo.ini" ∅ = Return (float_5, 10, 0, [])) as Hreal
      by reflexivity.
    rewrite Hreal in Hload. by injection Hload as _ <- _ _.
  - exfalso.
    assert (match @__init__ plain_lib "itpo.ini" 0 ∅ with
            | Return _ => True
            | Raise _ => False
            end) as Hret by (vm_compute; exact I).
    by rewrite Hinit in Hret.
Defined.

(** X14: [App.__init__] returns exactly when [load_state] returns and the
    worker count it has read is positive.  It raises what [load_state]
    raises, and [ValueError] for a worker count of zero or less, which
    [load_state] takes from the file unchecked. *)
Theorem init_returns_iff `{!PythonLib} (INI_PATH : string) now (files : Disk) :
  match load_state INI_PATH files with
  | Raise e => __init__ INI_PATH now files = Raise e
  | Return (_, loaded_workers, _, _) =>
      if decide (0 < loaded_workers)%Z
      then ∃ a : App, __init__ INI_PATH now files = Return a
      else __init__ INI_PATH now files = Raise ValueError
  end.
Proof.
  destruct (load_state INI_PATH files) as [[[[lt lw] lr] loaded]|e] eqn:Hload.
  - case_decide as Hpos.
    + destruct (__init___returns INI_PATH now files lt lw lr loaded Hload Hpos)
        as (a & Hinit & _).
      by exists a.
    + unfold __init__. rewrite Hload. by rewrite (proj2 (Z.leb_le _ _)) by lia.
  - unfold __init__. by rewrite Hload.
Qed.

(** X15: what [on_close] saves is what the next start finds: when the
    names are pairwise distinct, every target is storable, the time-out
    survives printing and reading and the worker count is positive,
    [App.__init__] on the files that [on_close] leaves returns an
    application with the same settings and the same targets. *)
Theorem restart_restores_state `{!PythonLib} (INI_PATH : string) now (a : App) :
  NoDup (names a) →
  Forall (λ t, storable t = true) (target_values a) →
  float_of_str (str_float (timeout a)) = Some (timeout a) →
  (0 < max_workers a)%Z →
  ∃ a', __init__ INI_PATH now (disk (on_close INI_PATH a)) = Return a'
        ∧ target_values a' = target_values a
        ∧ timeout a' = timeout a ∧ max_workers a' = max_workers a
        ∧ auto_refresh_seconds a' = auto_refresh_seconds a.
Proof.
  intros Hnd Hst Hfloat Hpos.
  destruct (load_saved (timeout a) (max_workers a) (auto_refresh_seconds a)
              (target_values a) INI_PATH (disk a) Hfloat Hnd Hst)
    as (files' & Hsave & Hload).
  assert (disk (on_close INI_PATH a) = files') as ->.
  { unfold on_close, exec, persist. by rewrite Hsave. }
  destruct (__init___returns INI_PATH now files' _ _ _ _ Hload Hpos)
    as (a' & Hinit & Ht & Hw & _ & Hr & Hv & _).
  exists a'. by split_and!.
Qed.

Lemma restart_restores_state_example :
  ∃ a', @__init__ plain_lib "itpo.ini" 0 (disk (on_close "itpo.ini" example_app)) = Return a'
        ∧ target_values a' = [web; db].
Proof.
  destruct (restart_restores_state "itpo.ini" 0 example_app)
    as (a' & Hinit & Hv & _).
  - apply (bool_decide_unpack _). vm_compute. reflexivity.
  - repeat constructor.
  - reflexivity.
  - reflexivity.
  - exists a'. split; [exact Hinit|]. rewrite Hv. reflexivity.
Defined.

(** * A scan from start to end *)

Section CycleProofs.
Context `{!PythonLib}.
Variable INI_PATH : string.
Variable env : WorkerEnv.

(** The first loop of the worker while the Tk thread is idle: only the
    pool changes. *)
Lemma submit_all_quiet snapshot : ∀ i futures (b : App),
  (∀ fut, submit_raises env fut = None) →
  ∃ futures' subs,
    submit_all INI_PATH env (λ _, []) i snapshot futures b
    = (Return futures',
       with_next_future (next_future b + length snapshot) (with_submitted subs b))
    ∧ (∀ k row, snapshot !! k = Some row →
         futures' !! (next_future b + k)%nat = Some row
         ∧ subs !! (next_future b + k)%nat
           = Some ((endpoint b row).1, (endpoint b row).2, timeout b))
    ∧ (∀ fut, (fut < next_future b ∨ next_future b + length snapshot ≤ fut)%nat →
         futures' !! fut = futures !! fut)
    ∧ (∀ fut, (fut < next_future b)%nat → subs !! fut = submitted b !! fut).
Proof.
  induction snapshot as [|row rest IH]; intros i futures b Hok.
  - exists futures, (submitted b). simpl. split_and!; [|by intros k row [=]|done|done].
    unfold ret. f_equal. destruct b. simpl. by rewrite Nat.add_0_r.
  - simpl. unfold bind at 1, submit_row. rewrite Hok.
    set (value := (host _, port _, timeout b)).
    set (b1 := with_next_future (S (next_future b))
                 (with_submitted (<[next_future b := value]> (submitted b)) b)).
    destruct (IH (S i) (<[next_future b := row]> futures) b1 Hok)
      as (futures' & subs & Heq & Htags & Hothers & Hold).
    exists futures', subs. rewrite Heq. split_and!.
    + f_equal. unfold with_next_future, with_submitted. simpl. f_equal. lia.
    + intros [|k] row' Hk; simpl in Hk.
      * injection Hk as <-. rewrite Nat.add_0_r. split.
        -- rewrite Hothers by (simpl; lia). apply lookup_insert_eq.
        -- rewrite Hold by (simpl; lia). simpl. apply lookup_insert_eq.
      * replace (next_future b + S k)%nat with (next_future b1 + k)%nat by (simpl; lia).
        apply (Htags k row' Hk).
    + intros fut Hfut. rewrite Hothers by (simpl in *; lia).
      apply lookup_insert_ne. lia.
    + intros fut Hfut. rewrite Hold by (simpl; lia). simpl.
      apply lookup_insert_ne. lia.
Qed.

(** The entries of a batch land on their rows. *)
Lemma set_results_lookup (results : list result) : ∀ (c : App) row st lat rec,
  NoDup (results.*1.*1) → (row, st, lat) ∈ results →
  row_heap c !! row = Some rec →
  row_heap (foldl (λ a (r : result), on_row (set_result r.1.2 r.2) a r.1.1) c results) !! row
  = Some (set_result st lat rec).
Proof.
  induction results as [|[[row0 st0] lat0] results IH]; intros c row st lat rec Hnd Hin Hrec.
  - by apply elem_of_nil in Hin.
  - simpl in *. apply NoDup_cons in Hnd as [Hnin Hnd].
    apply elem_of_cons in Hin as [[= -> -> ->]|Hin].
    + assert (∀ (l : list result) (c' : App),
                row0 ∉ l.*1.*1 →
                row_heap (foldl (λ a (r : result), on_row (set_result r.1.2 r.2) a r.1.1) c' l)
                  !! row0 = row_heap c' !! row0) as Hkeep.
      { clear. induction l as [|[[r s] l0] l IH]; intros c' Hnin; simpl; [done|].
        simpl in Hnin. apply not_elem_of_cons in Hnin as [Hne Hnin].
        rewrite IH by done. unfold on_row. simpl. by apply lookup_alter_ne. }
      rewrite Hkeep by done. unfold on_row. simpl. by rewrite lookup_alter_eq, Hrec.
    + apply (IH _ row st lat rec); [done|done|].
      unfold on_row. simpl. rewrite lookup_alter_ne; [done|].
      intros ->. apply Hnin.
      apply list_elem_of_fmap. exists (row, st). split; [done|].
      apply list_elem_of_fmap. by exists (row, st, lat).
Qed.

Lemma set_results_frame (results : list result) (c : App) :
  let c' := foldl (λ a (r : result), on_row (set_result r.1.2 r.2) a r.1.1) c results in
  rows c' = rows c ∧ workers c' = workers c ∧ tk_now c' = tk_now c.
Proof.
  simpl. by rewrite (foldl_keeps rows), (foldl_keeps workers), (foldl_keeps tk_now).
Qed.

(** What [apply_results] leaves. *)
Lemma apply_results_spec (results : list result) (c : App) :
  let c' := apply_results results c in
  refresh_in_progress c' = false ∧ refresh_button c' = true
  ∧ add_btn c' = true ∧ settings_button c' = true
  ∧ meta_label c' = Some (tk_now c) ∧ workers c' = workers c
  ∧ ∀ row st lat rec,
      NoDup (results.*1.*1) → (row, st, lat) ∈ results → row ∈ rows c →
      row_heap c !! row = Some rec →
      row_heap c' !! row = Some (set_delete_enabled true (set_result st lat rec)).
Proof.
  unfold apply_results.
  set (c1 := foldl _ c results).
  destruct (set_results_frame results c) as (Hrows & Hworkers & Hnow). fold c1 in Hrows, Hworkers, Hnow.
  cbv zeta. simpl.
  destruct (_set_editing_enabled_fields true
              (with_refresh_button true (with_meta_label (Some (tk_now c1)) c1)))
    as (-> & -> & -> & _ & ->).
  unfold _set_editing_enabled at 1. rewrite (foldl_keeps meta_label) by done. simpl.
  rewrite Hnow, Hworkers. split_and!; try done.
  intros row st lat rec Hnd Hin Hrow Hrec.
  unfold _set_editing_enabled. simpl.
  rewrite (foldl_on_row_lookup (set_delete_enabled true) _ _ row (set_result st lat rec));
    [|done|].
  - rewrite bool_decide_eq_true_2; [done|]. by rewrite Hrows.
  - simpl. by apply set_results_lookup.
Qed.

End CycleProofs.

Section CycleFacts.
Context `{!PythonLib}.
Variable INI_PATH : string.
Variable env : WorkerEnv.

(** What [refresh_async] leaves alone. *)
Lemma refresh_async_pool (a : App) :
  let a' := refresh_async a in
  next_future a' = next_future a ∧ submitted a' = submitted a
  ∧ timeout a' = timeout a ∧ tk_now a' = tk_now a ∧ tk_next_id a' = tk_next_id a
  ∧ tk_pending a' = tk_pending a ∧ rows a' = rows a ∧ heap a' = heap a.
Proof.
  unfold refresh_async. destruct (refresh_in_progress a); [done|]. simpl.
  unfold _set_editing_enabled.
  rewrite !(foldl_keeps next_future), !(foldl_keeps submitted), !(foldl_keeps timeout),
    !(foldl_keeps tk_now), !(foldl_keeps tk_next_id), !(foldl_keeps tk_pending),
    !(foldl_keeps rows), !(foldl_keeps heap) by done.
  done.
Qed.

(** The worker's [try] block while the Tk thread is idle and nothing
    fails. *)
Lemma try_block_quiet (a : App) :
  (∀ fut, submit_raises env fut = None) →
  (∀ fut, cancelled env fut = false) →
  (∀ fut h p t e,
     Probe.create_connection (probe_world env fut) h p t = Probe.ConnectRaises e →
     isinstance e OSError = true) →
  (∀ futs, as_completed env futs ≡ₚ futs) →
  ∃ results subs,
    try_block INI_PATH env (λ _, []) a
    = (Return results,
       with_next_future (next_future a + length (rows a)) (with_submitted subs a))
    ∧ results.*1.*1 ≡ₚ rows a
    ∧ ∀ k row, rows a !! k = Some row →
        ∃ st lat,
          Probe.check_tcp_open (probe_world env (next_future a + k))
            (endpoint a row).1 (endpoint a row).2 (timeout a) = Return (st, lat)
          ∧ (row, st, lat) ∈ results.
Proof.
  intros Hpool Hcancel Hio Hperm. unfold try_block, bind.
  destruct (submit_all_quiet INI_PATH env (rows a) 0 ∅ a Hpool)
    as (futures & subs & -> & Htags & Hothers & _).
  set (a1 := with_next_future _ (with_submitted subs a)).
  change (run_ops INI_PATH [] a1) with a1.
  destruct (session_futures futures (next_future a) (rows a)) as [Hdom Hrows].
  { intros k row Hk. by destruct (Htags k row Hk). }
  { intros fut Hfut. by rewrite Hothers. }
  set (order := as_completed env (elements (dom futures))).
  assert (order ≡ₚ seq (next_future a) (length (rows a))) as Horder
    by (unfold order; by rewrite Hperm).
  destruct (collect_returns env a1 futures order []) as [results Hcol].
  { intros fut _. apply future_result_returns; [apply Hcancel|apply Hio]. }
  rewrite Hcol. exists results, subs. split; [done|].
  apply collect_spec in Hcol as [-> Hall]. simpl.
  split.
  - rewrite <- !list_fmap_compose.
    rewrite (list_fmap_ext _ (λ fut, futures !!! fut) order)
      by (intros i fut _; simpl; apply entry_row).
    by rewrite Horder, Hrows.
  - intros k row Hk.
    assert (k < length (rows a))%nat as Hlt by by eapply lookup_lt_Some.
    destruct (Htags k row Hk) as [Htag Hsub].
    assert (next_future a + k ∈ order)%nat as Hin
      by (rewrite Horder; apply elem_of_seq; lia).
    destruct (Hall _ Hin) as (st & lat & Hres).
    exists st, lat. split.
    + unfold future_result in Hres. rewrite Hcancel in Hres.
      unfold a1 in Hres. simpl in Hres.
      unfold lookup_total, map_lookup_total in Hres. rewrite Hsub in Hres. exact Hres.
    + apply list_elem_of_fmap. exists (next_future a + k)%nat. split; [|done].
      unfold entry. rewrite Hres.
      unfold lookup_total, map_lookup_total. by rewrite Htag.
Qed.

End CycleFacts.

(** X16: a scan from start to end, while the Tk thread does nothing else,
    the pool takes every probe, no future is cancelled and every connection
    attempt ends in a connection or an [OSError]: once Tk has run the
    callback that the worker posts, every row of the list shows the outcome
    of the probe of its own host and port with the time-out in force (and
    the latency when the outcome is [OPEN]), whatever the order in which
    the probes completed; the delete buttons and the three buttons are
    enabled, the time of the check is shown, and no scan is in progress. *)
Theorem scan_cycle_shows_results `{!PythonLib} (INI_PATH : string) (env : WorkerEnv)
    (a0 : App) :
  refresh_in_progress a0 = false →
  rows_present a0 → NoDup (rows a0) → rows_alive a0 →
  (∀ fut, submit_raises env fut = None) →
  (∀ fut, cancelled env fut = false) →
  (∀ fut h p t e,
     Probe.create_connection (probe_world env fut) h p t = Probe.ConnectRaises e →
     isinstance e OSError = true) →
  (∀ futs, as_completed env futs ≡ₚ futs) →
  let a := refresh_async a0 in
  let a' := _refresh_worker INI_PATH env (λ _, []) a in
  let a'' := fire (tk_next_id a0) a' in
  refresh_in_progress a'' = false ∧ workers a'' = workers a0
  ∧ refresh_button a'' = true ∧ add_btn a'' = true ∧ settings_button a'' = true
  ∧ meta_label a'' = Some (tk_now a0)
  ∧ ∀ k row, rows a0 !! k = Some row →
      ∃ st lat,
        Probe.check_tcp_open (probe_world env (next_future a0 + k))
          (endpoint a0 row).1 (endpoint a0 row).2 (timeout a0) = Return (st, lat)
        ∧ status_label (row_heap a'' !!! row)
          = Shown st (if bool_decide (st = "OPEN") then lat else None)
        ∧ delete_btn (row_heap a'' !!! row) = true.
Proof.
  intros Hflag Hpres Hnd _ Hpool Hcancel Hio Hperm a a' a''.
  destruct (refresh_async_pool a0) as (Hnf & Hsub & Hto & Hnow & Hid & Hpend & Hrows & Hheap).
  fold a in Hnf, Hsub, Hto, Hnow, Hid, Hpend, Hrows, Hheap.
  destruct (refresh_async_starts a0 Hflag) as (_ & Hworkers & _). fold a in Hworkers.
  destruct (try_block_quiet INI_PATH env a Hpool Hcancel Hio Hperm)
    as (results & subs & Htry & Hres_rows & Hres).
  set (a1 := with_next_future _ (with_submitted subs a)) in Htry.
  set (id := tk_next_id a0).
  set (cb := apply_results_cb results).
  assert (a' = with_workers (pred (workers a1))
                 (with_tk_next_id (S id)
                    (with_tk_pending (<[id := ((tk_now a1 + 0)%Z, cb)]> (tk_pending a1)) a1)))
    as Ha'.
  { unfold a', _refresh_worker. rewrite Htry. unfold after. simpl. by rewrite Hid. }
  assert (a'' = apply_results results (after_cancel id a')) as Ha''.
  { unfold a'', fire. fold id. rewrite Ha'. simpl. rewrite lookup_insert_eq.
    by rewrite (proj2 (Z.leb_le _ _)) by lia. }
  set (c := after_cancel id a') in Ha''.
  assert (rows c = rows a0 ∧ row_heap c = row_heap a ∧ workers c = workers a0
          ∧ tk_now c = tk_now a0) as (Hc_rows & Hc_heap & Hc_workers & Hc_now).
  { unfold c. rewrite Ha'. simpl. rewrite Hrows, Hworkers, Hnow. done. }
  destruct (apply_results_spec results c) as (Hf & Hrb & Hab & Hsb & Hmeta & Hw & Hshow).
  rewrite <- Ha'' in Hf, Hrb, Hab, Hsb, Hmeta, Hw, Hshow.
  rewrite Hc_now in Hmeta. rewrite Hc_workers in Hw.
  split_and!; try done.
  intros k row Hk.
  rewrite <- Hrows in Hk. destruct (Hres k row Hk) as (st & lat & Hprobe & Hin).
  rewrite Hrows in Hk.
  assert (row ∈ rows a0) as Hrow by by eapply list_elem_of_lookup_2.
  destruct (Hpres row Hrow) as (rec & tg & Hrec & Htg).
  pose proof (refresh_async_rows a0 row rec Hflag Hrow Hrec) as Hrec_a. fold a in Hrec_a.
  assert (endpoint a row = endpoint a0 row) as Hend.
  { unfold endpoint. rewrite Hheap.
    assert (row_heap a !!! row = set_checking (set_delete_enabled false rec)) as ->
      by (unfold lookup_total, map_lookup_total; by rewrite Hrec_a).
    assert (row_heap a0 !!! row = rec) as ->
      by (unfold lookup_total, map_lookup_total; by rewrite Hrec).
    done. }
  rewrite Hnf, Hend, Hto in Hprobe.
  exists st, lat. split; [done|].
  unfold lookup_total, map_lookup_total.
  rewrite (Hshow row st lat (set_checking (set_delete_enabled false rec))).
  - done.
  - rewrite Hres_rows. by rewrite Hrows.
  - done.
  - by rewrite Hc_rows.
  - by rewrite Hc_heap.
Qed.

Lemma rows_present_example_app : rows_present example_app.
Proof.
  intros r Hr. simpl in Hr.
  apply elem_of_cons in Hr as [->|Hr]; [by eexists _, _|].
  apply elem_of_cons in Hr as [->|Hr]; [by eexists _, _|].
  by apply elem_of_nil in Hr.
Qed.

Lemma scan_cycle_shows_results_example :
  refresh_in_progress
    (fire 0 (_refresh_worker "itpo.ini" reversed_env (λ _, []) (refresh_async example_app)))
  = false
  ∧ ∃ st lat,
      Probe.check_tcp_open Probe.accepting_world "10.0.0.5" 5432 float_5 = Return (st, lat)
      ∧ status_label
          (row_heap
             (fire 0 (_refresh_worker "itpo.ini" reversed_env (λ _, [])
                        (refresh_async example_app))) !!! 1%nat)
        = Shown st (if bool_decide (st = "OPEN") then lat else None).
Proof.
  destruct (scan_cycle_shows_results "itpo.ini" reversed_env example_app)
    as (Hflag & _ & _ & _ & _ & _ & Hrows).
  - reflexivity.
  - apply rows_present_example_app.
  - apply (bool_decide_unpack _). vm_compute. reflexivity.
  - intros r Hr. simpl in Hr.
    apply elem_of_cons in Hr as [->|Hr]; [reflexivity|].
    apply elem_of_cons in Hr as [->|Hr]; [reflexivity|].
    by apply elem_of_nil in Hr.
  - done.
  - done.
  - done.
  - intros futs. apply reverse_Permutation.
  - split; [exact Hflag|].
    destruct (Hrows 1%nat 1%nat eq_refl) as (st & lat & Hprobe & Hshow & _).
    exists st, lat. split; [exact Hprobe|exact Hshow].
Defined.

(** * The timer, through every operation *)

Section TimerProofs.
Context `{!PythonLib}.
Variable INI_PATH : string.

Lemma rebuild_rows_timer (a : App) : timer_view (rebuild_rows a) = timer_view a.
Proof. by destruct (rebuild_rows_settings a) as (_ & _ & _ & _ & _ & ->). Qed.

Lemma add_target_timer t (a : App) : timer_view (add_target INI_PATH t a).2 = timer_view a.
Proof.
  unfold add_target.
  set (a1 := if bool_decide _ then _ else a).
  assert (timer_view a1 = timer_view a) as <-.
  { unfold a1. case_bool_decide; [|done]. by destruct (first_free _ _ _ _). }
  set (a2 := with_targets _ a1).
  change (timer_view a1) with (timer_view a2).
  pose proof (persist_timer INI_PATH a2) as Hp. unfold exec in Hp.
  unfold bind, lift.
  destruct (persist INI_PATH a2) as [[[]|e] a3]; simpl in *; [|done].
  by rewrite refresh_async_timer, rebuild_rows_timer.
Qed.

Lemma delete_row_timer row (a : App) :
  timer_view (exec (delete_row INI_PATH row) a) = timer_view a.
Proof.
  unfold delete_row, exec. destruct (refresh_in_progress a); [done|].
  set (a1 := with_targets _ a).
  change (timer_view a) with (timer_view a1).
  pose proof (persist_timer INI_PATH a1) as Hp. unfold exec in Hp.
  unfold bind, lift.
  destruct (persist INI_PATH a1) as [[[]|e] a2]; simpl in *; [|done].
  by rewrite rebuild_rows_timer.
Qed.

Lemma _submit_timer n h p (a : App) :
  timer_view (exec (_submit INI_PATH n h p) a) = timer_view a.
Proof.
  unfold _submit, exec.
  destruct (negb (add_dialog a)); [done|].
  case_bool_decide; [done|]. case_bool_decide; [done|].
  destruct (py_int (strip p)) as [port|]; [|done].
  destruct (negb _); [done|].
  set (a1 := with_heap _ a).
  change (timer_view a) with (timer_view a1).
  pose proof (add_target_timer (fresh (dom (heap a))) a1) as Hadd.
  unfold bind, lift.
  by destruct (add_target INI_PATH _ a1) as [[[]|e] a2].
Qed.

Lemma one_timer_apply_settings new_timeout new_max_workers new_auto_refresh (a : App) :
  one_timer a →
  one_timer (apply_settings INI_PATH new_timeout new_max_workers new_auto_refresh a).2.
Proof.
  intros Hone.
  destruct (apply_settings_cases INI_PATH new_timeout new_max_workers new_auto_refresh a)
    as [[-> _]|[-> _]]; [done|].
  unfold bind, lift.
  set (a0 := assigned new_timeout new_max_workers new_auto_refresh a).
  assert (one_timer a0) as Hone0.
  { unfold a0, assigned. by case_bool_decide. }
  pose proof (persist_timer INI_PATH a0) as Hp. unfold exec in Hp.
  destruct (persist INI_PATH a0) as [[[]|e] a1]; simpl in *.
  - apply (one_timer_view (_schedule_auto_refresh a1)); [by rewrite refresh_async_timer|].
    eapply programmed_one_timer, _schedule_auto_refresh_programmed.
    by apply (one_timer_view a0).
  - by apply (one_timer_view a0).
Qed.

Lemma timer_view_buttons (a : App) flag button label :
  timer_view (with_refresh_in_progress flag a) = timer_view a
  ∧ timer_view (with_refresh_button button a) = timer_view a
  ∧ timer_view (with_meta_label label a) = timer_view a.
Proof. done. Qed.

Lemma _set_editing_enabled_timer enabled (a : App) :
  timer_view (_set_editing_enabled enabled a) = timer_view a.
Proof. unfold _set_editing_enabled. by rewrite (foldl_keeps timer_view). Qed.

Lemma apply_results_timer results (a : App) :
  timer_view (apply_results results a) = timer_view a.
Proof.
  unfold apply_results. cbv zeta.
  rewrite (proj1 (timer_view_buttons _ false true None)).
  rewrite _set_editing_enabled_timer.
  rewrite (proj1 (proj2 (timer_view_buttons _ false true None))).
  rewrite (proj2 (proj2 (timer_view_buttons _ false true _))).
  by rewrite (foldl_keeps timer_view).
Qed.

Lemma recover_timer (a : App) : timer_view (recover a) = timer_view a.
Proof.
  unfold recover. cbv zeta.
  rewrite (proj1 (timer_view_buttons _ false true None)).
  rewrite _set_editing_enabled_timer.
  by rewrite (proj1 (proj2 (timer_view_buttons _ false true None))).
Qed.

Lemma one_timer_fire id (a : App) : one_timer a → one_timer (fire id a).
Proof.
  intros Hone. unfold fire.
  destruct (tk_pending a !! id) as [[due cb]|]; [|done].
  destruct (due <=? tk_now a); [|done].
  pose proof (one_timer_cancel a id Hone) as Hc.
  destruct cb; simpl.
  - unfold _auto_refresh_tick.
    eapply programmed_one_timer, _schedule_auto_refresh_programmed.
    by apply (one_timer_view (after_cancel id a)); [by rewrite refresh_async_timer|].
  - by apply (one_timer_view (after_cancel id a)); [by rewrite apply_results_timer|].
  - by apply (one_timer_view (after_cancel id a)); [by rewrite recover_timer|].
Qed.

Lemma one_timer_run_op (a : App) op : one_timer a → one_timer (run_op INI_PATH a op).
Proof.
  intros Hone. destruct op; simpl.
  - by apply (one_timer_view a); [by rewrite refresh_async_timer|].
  - by apply (one_timer_view a); [by rewrite delete_row_timer|].
  - unfold open_add_dialog. by destruct (refresh_in_progress a).
  - by apply (one_timer_view a); [by rewrite _submit_timer|].
  - by apply one_timer_apply_settings.
  - by apply one_timer_fire.
  - done.
Qed.

Lemma one_timer_run_ops ops (a : App) : one_timer a → one_timer (run_ops INI_PATH ops a).
Proof.
  unfold run_ops. revert a. induction ops as [|op ops IH]; intros a Hone; simpl; [done|].
  by apply IH, one_timer_run_op.
Qed.

Lemma one_timer_submit_all env sched snapshot : ∀ i futures (a : App),
  one_timer a → one_timer (submit_all INI_PATH env sched i snapshot futures a).2.
Proof.
  induction snapshot as [|row rest IH]; intros i futures a Hone; simpl; [done|].
  unfold bind at 1, submit_row.
  pose proof (one_timer_run_ops (sched i) a Hone) as Hone1.
  destruct (submit_raises env _); [done|].
  by apply IH.
Qed.

Lemma one_timer_try_block env sched (a : App) :
  one_timer a → one_timer (try_block INI_PATH env sched a).2.
Proof.
  intros Hone. unfold try_block, bind.
  pose proof (one_timer_submit_all env sched (rows a) 0 ∅ a Hone) as Hs.
  destruct (submit_all INI_PATH env sched 0 (rows a) ∅ a) as [[futures|e] a1]; simpl in *;
    [|done].
  by apply one_timer_run_ops.
Qed.

Lemma one_timer_worker env sched (a : App) :
  one_timer a → one_timer (_refresh_worker INI_PATH env sched a).
Proof.
  intros Hone. unfold _refresh_worker.
  pose proof (one_timer_try_block env sched a Hone) as Ht.
  destruct (try_block INI_PATH env sched a) as [outcome a1]. simpl in Ht.
  intros id due. unfold tick_pending, after. simpl.
  destruct (decide (id = tk_next_id a1)) as [->|Hne].
  - rewrite lookup_insert_eq. by destruct outcome.
  - rewrite lookup_insert_ne by done. apply Ht.
Qed.

End TimerProofs.

(** X17: at most one firing of the auto-refresh tick is pending, and it is
    the one the application remembers.  This holds when [App.__init__]
    returns, and everything that happens afterwards keeps it: every action
    on the Tk thread (the buttons, the two dialogs, the timers that fire,
    time passing) and the worker thread with whatever the Tk thread does
    beside it. *)
Theorem at_most_one_tick `{!PythonLib} (INI_PATH : string) :
  (∀ now (files : Disk) (a : App), __init__ INI_PATH now files = Return a → one_timer a)
  ∧ ∀ a : App, one_timer a →
      (∀ op, one_timer (run_op INI_PATH a op))
      ∧ (∀ env sched, one_timer (_refresh_worker INI_PATH env sched a))
      ∧ (∀ d, one_timer (AddTargetDialog._submit INI_PATH d a).2)
      ∧ (∀ d, one_timer (SettingsDialog._apply INI_PATH d a).2).
Proof.
  split.
  - intros now files a Hinit.
    destruct (__init___spec INI_PATH now files a Hinit)
      as (_ & _ & _ & _ & _ & _ & _ & _ & _ & _ & _ & Hprog & _).
    by eapply programmed_one_timer.
  - intros a Hone. split_and!.
    + intros op. by apply one_timer_run_op.
    + intros env sched. by apply one_timer_worker.
    + intros d. unfold AddTargetDialog._submit.
      case_bool_decide; [done|]. case_bool_decide; [done|].
      destruct (py_int _) as [port|]; [|done].
      destruct (negb _); [done|].
      set (a1 := with_heap _ a).
      pose proof (add_target_timer INI_PATH (fresh (dom (heap a))) a1) as Hadd.
      destruct (add_target INI_PATH _ a1) as [[[]|e] a2]; simpl in *;
        by apply (one_timer_view a1).
    + intros d. unfold SettingsDialog._apply.
      destruct (float_of_str _) as [x|]; [|done].
      destruct (float_leb x float_zero); [done|].
      destruct (py_int (strip (SettingsDialog.max_workers_entry d))) as [w|]; [|done].
      destruct ((w <? 1)%Z || (500 <? w)%Z); [done|].
      destruct (py_int (strip (SettingsDialog.auto_refresh_entry d))) as [r|]; [|done].
      destruct (r <? 0)%Z; [done|].
      pose proof (one_timer_apply_settings INI_PATH x w r a Hone) as Happ.
      by destruct (apply_settings INI_PATH x w r a) as [[[]|e] a1].
Qed.

Lemma at_most_one_tick_example :
  one_timer ticking_app
  ∧ one_timer (run_op "itpo.ini" ticking_app (settings_apply float_5 10 7))
  ∧ one_timer (run_op "itpo.ini" ticking_app (timer_fires 0)).
Proof.
  assert (one_timer ticking_app) as Hone.
  { intros id due Htick. unfold tick_pending in Htick.
    destruct (decide (id = 0%nat)) as [->|Hne]; [reflexivity|].
    exfalso. revert Htick.
    change (tk_pending ticking_app) with
      (<[0%nat := (5000, auto_refresh_tick_cb)]> (∅ : gmap nat (Z * callback))).
    by rewrite lookup_insert_ne, lookup_empty. }
  destruct (@at_most_one_tick plain_lib "itpo.ini") as [_ Hkeep].
  destruct (Hkeep ticking_app Hone) as (Hop & _).
  split_and!; [exact Hone|apply Hop..].
Defined.

(** * The lock of [refresh_async] is never held for good *)

Module LockFacts.
Import SingleFlight.

(** Whoever holds the lock is one of the callers. *)
Lemma holder_step e s s' :
  (∀ t, lock s = Some t → is_Some (pcs s !! t)) →
  step e s = Some s' →
  ∀ t, lock s' = Some t → is_Some (pcs s' !! t).
Proof.
  intros Hholder Hstep t.
  assert (∀ t0 p, is_Some (pcs s !! t) → is_Some (<[t0 := p]> (pcs s) !! t)) as Hkeep.
  { intros t0 p. rewrite !lookup_lt_is_Some, length_insert. done. }
  destruct e as [t0|]; simpl in Hstep.
  - destruct (pcs s !! t0) as [p|] eqn:Ht0; [|done].
    destruct p; try (injection Hstep as <-; simpl; intros Hl;
                     first [done | by apply Hkeep, Hholder]).
    destruct (lock s) eqn:Hlock; [done|]. injection Hstep as <-. simpl.
    intros [= <-]. apply Hkeep. by rewrite Ht0.
  - destruct (workers s); [done|]. injection Hstep as <-. simpl. apply Hholder.
Qed.

Lemma holder_run trace : ∀ s,
  (∀ t, lock s = Some t → is_Some (pcs s !! t)) →
  ∀ t, lock (run trace s) = Some t → is_Some (pcs (run trace s) !! t).
Proof.
  unfold run. induction trace as [|e trace IH]; intros s Hs; simpl; [done|].
  apply IH. destruct (step e s) as [s'|] eqn:Hstep; simpl; [|done].
  by eapply holder_step.
Qed.

End LockFacts.

(** X18: [refresh_async] cannot deadlock on its lock.  In every state
    that any number of concurrent callers can reach, a caller that cannot
    take its next step is waiting for the lock, another caller holds it, and
    that caller can take its next step (the holder is always inside the
    short [with] block, on its way to releasing the lock). *)
Theorem refresh_async_never_stuck callers trace :
  never_stuck (SingleFlight.run trace (SingleFlight.init callers)).
Proof.
  set (s := SingleFlight.run trace (SingleFlight.init callers)).
  assert (SingleFlight.inv s) as Hinv
    by apply SingleFlightFacts.inv_run, SingleFlightFacts.inv_init.
  assert (∀ t, SingleFlight.lock s = Some t → is_Some (SingleFlight.pcs s !! t)) as Hholder
    by (apply LockFacts.holder_run; intros t; done).
  destruct Hinv as (_ & Hlock & _).
  intros t [p Hp] Hstuck. simpl in Hstuck. rewrite Hp in Hstuck.
  destruct p; try done.
  destruct (SingleFlight.lock s) as [t'|] eqn:Hl; [|done].
  destruct (Hholder t' eq_refl) as [p' Hp'].
  exists t'. split_and!; [done| |].
  - intros ->. by pose proof (proj2 (Hlock t _ Hp) eq_refl).
  - pose proof (proj2 (Hlock t' p' Hp') eq_refl) as Hheld.
    simpl. rewrite Hp'. by destruct p'.
Qed.

(** Two callers: the first is inside the [with] block, the second waits. *)
Lemma refresh_async_never_stuck_example :
  ∃ t', SingleFlight.lock
          (SingleFlight.run
             [SingleFlight.Run 0; SingleFlight.Run 0; SingleFlight.Run 0;
              SingleFlight.Run 1; SingleFlight.Run 1] (SingleFlight.init 2)) = Some t'
        ∧ t' ≠ 1%nat.
Proof.
  destruct (refresh_async_never_stuck 2
              [SingleFlight.Run 0; SingleFlight.Run 0; SingleFlight.Run 0;
               SingleFlight.Run 1; SingleFlight.Run 1] 1%nat)
    as (t' & Hlock & Hne & _).
  - by eexists.
  - reflexivity.
  - by exists t'.
Defined.

(** * The target list stays well formed *)

Lemma numbered_well_formed base n :
  base ≠ "" → strip base = base →
  numbered base n ≠ "" ∧ strip (numbered base n) = numbered base n.
Proof.
  intros Hne Hstrip. unfold numbered. split.
  - destruct base; [done|]. by rewrite append_cons.
  - apply strip_app; [done|done|by rewrite append_cons|].
    apply rstrip_app.
    + destruct (pretty n); by rewrite ?append_cons.
    + by apply rstrip_app.
Qed.

Section TargetsOkProofs.
Context `{!PythonLib}.
Variable INI_PATH : string.

Lemma targets_ok_same (a b : App) :
  heap b = heap a → targets b = targets a → targets_ok a → targets_ok b.
Proof. intros Hh Ht. unfold targets_ok, names, target_values. by rewrite Hh, Ht. Qed.

Lemma apply_results_frame results (a : App) :
  heap (apply_results results a) = heap a ∧ targets (apply_results results a) = targets a.
Proof.
  unfold apply_results. cbv zeta. simpl.
  set (a1 := foldl _ a results).
  destruct (_set_editing_enabled_frame true
              (with_refresh_button true (with_meta_label (Some (tk_now a1)) a1)))
    as (-> & -> & _).
  simpl. unfold a1. by rewrite (foldl_keeps heap), (foldl_keeps targets).
Qed.

Lemma recover_frame (a : App) :
  heap (recover a) = heap a ∧ targets (recover a) = targets a.
Proof.
  unfold recover. cbv zeta. simpl.
  by destruct (_set_editing_enabled_frame true (with_refresh_button true a)) as (-> & -> & _).
Qed.

Lemma fire_frame id (a : App) :
  heap (fire id a) = heap a ∧ targets (fire id a) = targets a.
Proof.
  unfold fire. destruct (tk_pending a !! id) as [[due cb]|]; [|done].
  destruct (due <=? tk_now a); [|done].
  destruct cb; cbn [run_callback].
  - unfold _auto_refresh_tick.
    destruct (_schedule_auto_refresh_frame (refresh_async (after_cancel id a)))
      as (-> & -> & _).
    by destruct (refresh_async_frame (after_cancel id a)) as (-> & ->).
  - by destruct (apply_results_frame results (after_cancel id a)) as (-> & ->).
  - by destruct (recover_frame (after_cancel id a)) as (-> & ->).
Qed.

Lemma targets_ok_delete_row row (a : App) :
  targets_ok a → targets_ok (exec (delete_row INI_PATH row) a).
Proof.
  intros (Hnd & Hheap & Hwf). unfold delete_row, exec.
  destruct (refresh_in_progress a); [done|].
  set (keep := λ t, negb (same_target (heap a !!! t) _)).
  set (a1 := with_targets (List.filter keep (targets a)) a).
  assert (targets_ok a1) as Hok1.
  { assert (sublist (List.filter keep (targets a)) (targets a)) as Hsub.
    { clear. induction (targets a) as [|t l IH]; simpl; [done|].
      destruct (keep t); [by apply sublist_skip|by apply sublist_cons]. }
    unfold targets_ok, names, target_values, a1. simpl. split_and!.
    - apply (sublist_NoDup _ (names a)); [exact Hnd|].
      unfold names, target_values. by do 2 apply fmap_sublist.
    - intros t Ht. apply Hheap. by eapply elem_of_sublist.
    - rewrite Forall_forall in Hwf |- *. intros x Hx. apply Hwf.
      eapply elem_of_sublist; [exact Hx|]. by apply fmap_sublist. }
  destruct (persist_frame INI_PATH a1) as (Hh & Ht & _). unfold exec in Hh, Ht.
  unfold bind, lift.
  destruct (persist INI_PATH a1) as [[[]|e] a2]; simpl in *.
  - destruct (rebuild_rows_frame a2) as (Hh' & Ht' & _).
    apply (targets_ok_same a1); [by rewrite Hh'|by rewrite Ht'|done].
  - by apply (targets_ok_same a1).
Qed.

(** [add_target] on a new object that is well formed. *)
Lemma targets_ok_add (a : App) t tg :
  targets_ok a → heap a !! t = None → well_formed tg →
  targets_ok (add_target INI_PATH t (with_heap (<[t := tg]> (heap a)) a)).2.
Proof.
  intros (Hnd & Hheap & Hwf) Hnew Htg.
  set (a0 := with_heap (<[t := tg]> (heap a)) a).
  assert (t ∉ targets a) as Hnin.
  { intros Hin. destruct (Hheap t Hin) as [x Hx]. congruence. }
  assert (∀ (b : App), targets b = targets a →
            (∀ x, x ≠ t → heap b !! x = heap a !! x) →
            target_values b = target_values a) as Hvals.
  { intros b Ht Hh. unfold target_values. rewrite Ht.
    apply list_fmap_ext. intros i x Hx.
    unfold lookup_total, map_lookup_total. rewrite Hh; [done|].
    intros ->. apply Hnin. by eapply list_elem_of_lookup_2. }
  set (existing := list_to_set (names a0) : gset string).
  set (base := name (heap a0 !!! t)).
  set (a1 := if bool_decide (base ∈ existing) then
               match first_free existing base (S (size existing)) 2 with
               | Some n => rename t (numbered base n) a0
               | None => a0
               end
             else a0).
  assert ((add_target INI_PATH t a0).2
          = exec (persist INI_PATH >>> lift rebuild_rows >>> lift refresh_async)
                 (with_targets (targets a1 ++ [t]) a1)) as -> by reflexivity.
  assert (names a0 = names a) as Hnames0.
  { unfold names. rewrite (Hvals a0); [done|done|].
    intros x Hx. unfold a0. simpl. by apply lookup_insert_ne. }
  assert (name tg = base) as Hbase.
  { unfold base, a0, lookup_total, map_lookup_total. simpl. by rewrite lookup_insert_eq. }
  destruct Htg as (Hn & Hsn & Hh & Hsh & Hp).
  assert (targets a1 = targets a
          ∧ (∀ x, x ≠ t → heap a1 !! x = heap a !! x)
          ∧ ∃ tg', heap a1 !! t = Some tg' ∧ well_formed tg' ∧ name tg' ∉ names a)
    as (Ht1 & Hh1 & tg' & Htg' & Hwf' & Hfresh).
  { unfold a1. case_bool_decide as Hin.
    - destruct (first_free_total existing base 2) as [n Hfree]. rewrite Hfree.
      apply first_free_spec in Hfree as (_ & Hnot & _).
      split_and!; [done| |].
      + intros x Hx. unfold rename, a0. simpl.
        by rewrite lookup_alter_ne, lookup_insert_ne.
      + exists (mkTarget (numbered base n) (host tg) (port tg)). split_and!.
        * unfold rename, a0. simpl. by rewrite lookup_alter_eq, lookup_insert_eq.
        * destruct (numbered_well_formed base n) as [Hne Hst]; [by rewrite <- Hbase..|].
          unfold well_formed. simpl. split_and!; (done || lia).
        * simpl. intros Hc. apply Hnot. apply elem_of_list_to_set. by rewrite Hnames0.
    - split_and!; [done| |].
      + intros x Hx. unfold a0. simpl. by apply lookup_insert_ne.
      + exists tg. split_and!.
        * unfold a0. simpl. apply lookup_insert_eq.
        * unfold well_formed. split_and!; (done || lia).
        * rewrite Hbase. intros Hc. apply Hin. apply elem_of_list_to_set.
          by rewrite Hnames0. }
  set (a2 := with_targets (targets a1 ++ [t]) a1).
  destruct (add_target_tail_frame INI_PATH a2) as [Hheap2 Htargets2].
  cbv zeta in Hheap2, Htargets2.
  apply (targets_ok_same a2); [done|done|].
  assert (target_values a2 = target_values a ++ [tg']) as Hvals2.
  { unfold target_values, a2. simpl. rewrite fmap_app. f_equal.
    - fold (target_values a1). by apply Hvals.
    - simpl. unfold lookup_total, map_lookup_total. by rewrite Htg'. }
  unfold targets_ok, names. rewrite Hvals2. split_and!.
  - rewrite fmap_app. apply NoDup_app. split_and!; [done| |apply NoDup_singleton].
    intros x Hx ->%list_elem_of_singleton. done.
  - unfold a2. simpl. rewrite Ht1.
    intros x [Hx| ->%list_elem_of_singleton]%elem_of_app.
    + rewrite Hh1 by (by intros ->). by apply Hheap.
    + by eexists.
  - apply Forall_app. split; [done|]. by apply Forall_singleton.
Qed.

Lemma targets_ok__submit n h p (a : App) :
  targets_ok a → targets_ok (exec (_submit INI_PATH n h p) a).
Proof.
  intros Hok. unfold _submit, exec.
  destruct (negb (add_dialog a)); [done|].
  case_bool_decide as Hn; [done|]. case_bool_decide as Hh; [done|].
  destruct (py_int (strip p)) as [port|]; [|done].
  destruct ((1 <=? port)%Z && (port <=? 65535)%Z) eqn:Hrange; [|done]. simpl.
  apply andb_true_iff in Hrange as [?%Z.leb_le ?%Z.leb_le].
  pose proof (targets_ok_add a (fresh (dom (heap a))) (mkTarget (strip n) (strip h) port) Hok)
    as Hadd.
  unfold bind, lift.
  destruct (add_target INI_PATH _ _) as [[[]|e] a'] eqn:Hres; simpl in *.
  - apply (targets_ok_same a'); [done|done|]. apply Hadd.
    + apply not_elem_of_dom, is_fresh.
    + unfold well_formed. simpl. split_and!; [done|apply strip_idemp|done|apply strip_idemp|lia..].
  - apply Hadd.
    + apply not_elem_of_dom, is_fresh.
    + unfold well_formed. simpl. split_and!; [done|apply strip_idemp|done|apply strip_idemp|lia..].
Qed.

Lemma targets_ok_apply_settings new_timeout new_max_workers new_auto_refresh (a : App) :
  targets_ok a →
  targets_ok (apply_settings INI_PATH new_timeout new_max_workers new_auto_refresh a).2.
Proof.
  intros Hok.
  destruct (apply_settings_fields INI_PATH new_timeout new_max_workers new_auto_refresh a)
    as (_ & _ & _ & _ & Hh & Ht).
  by apply (targets_ok_same a).
Qed.

Lemma targets_ok_run_op (a : App) op : targets_ok a → targets_ok (run_op INI_PATH a op).
Proof.
  intros Hok. destruct op; simpl.
  - destruct (refresh_async_frame a) as [Hh Ht]. by apply (targets_ok_same a).
  - by apply targets_ok_delete_row.
  - unfold open_add_dialog. by destruct (refresh_in_progress a).
  - by apply targets_ok__submit.
  - by apply targets_ok_apply_settings.
  - destruct (fire_frame id a) as [Hh Ht]. by apply (targets_ok_same a).
  - done.
Qed.

Lemma targets_ok_run_ops ops (a : App) : targets_ok a → targets_ok (run_ops INI_PATH ops a).
Proof.
  unfold run_ops. revert a. induction ops as [|op ops IH]; intros a Hok; simpl; [done|].
  by apply IH, targets_ok_run_op.
Qed.

Lemma targets_ok_submit_all env sched snapshot : ∀ i futures (a : App),
  targets_ok a → targets_ok (submit_all INI_PATH env sched i snapshot futures a).2.
Proof.
  induction snapshot as [|row rest IH]; intros i futures a Hok; simpl; [done|].
  unfold bind at 1, submit_row.
  pose proof (targets_ok_run_ops (sched i) a Hok) as Hok1.
  destruct (submit_raises env _); [done|].
  by apply IH.
Qed.

Lemma targets_ok_worker env sched (a : App) :
  targets_ok a → targets_ok (_refresh_worker INI_PATH env sched a).
Proof.
  intros Hok. unfold _refresh_worker, try_block, bind.
  pose proof (targets_ok_submit_all env sched (rows a) 0 ∅ a Hok) as Hs.
  destruct (submit_all INI_PATH env sched 0 (rows a) ∅ a) as [[futures|e] a1]; simpl in *.
  - by apply (targets_ok_same (run_ops INI_PATH (sched (length (rows a))) a1));
      [..|apply targets_ok_run_ops].
  - by apply (targets_ok_same a1).
Qed.

End TargetsOkProofs.

(** X19: the target list stays well formed.  When the names are pairwise
    distinct, the list refers to objects of the store and every target has
    a name and a host that are not empty, without blanks around them, and a
    port from 1 to 65535, then the same holds after every action on the Tk
    thread (the buttons, the two dialogs, the timers), and after the worker
    thread with whatever the Tk thread does beside it. *)
Theorem targets_stay_well_formed `{!PythonLib} (INI_PATH : string) (a : App) :
  targets_ok a →
  (∀ op, targets_ok (run_op INI_PATH a op))
  ∧ (∀ env sched, targets_ok (_refresh_worker INI_PATH env sched a))
  ∧ (∀ d, targets_ok (AddTargetDialog._submit INI_PATH d a).2)
  ∧ (∀ d, targets_ok (SettingsDialog._apply INI_PATH d a).2).
Proof.
  intros Hok. split_and!.
  - intros op. by apply targets_ok_run_op.
  - intros env sched. by apply targets_ok_worker.
  - intros d. unfold AddTargetDialog._submit.
    case_bool_decide as Hn; [done|]. case_bool_decide as Hh; [done|].
    destruct (py_int _) as [port|]; [|done].
    destruct ((1 <=? port)%Z && (port <=? 65535)%Z) eqn:Hrange; [|done]. simpl.
    apply andb_true_iff in Hrange as [?%Z.leb_le ?%Z.leb_le].
    match goal with
    | |- context [add_target _ ?t (with_heap (<[_ := ?tg]> _) _)] =>
        pose proof (targets_ok_add INI_PATH a t tg Hok) as Hadd
    end.
    destruct (add_target INI_PATH _ _) as [[[]|e] a'] eqn:Hres; simpl in *;
      (apply Hadd; [apply not_elem_of_dom, is_fresh|]);
      unfold well_formed; simpl;
      (split_and!; [done|apply strip_idemp|done|apply strip_idemp|lia..]).
  - intros d. unfold SettingsDialog._apply.
    destruct (float_of_str _) as [x|]; [|done].
    destruct (float_leb x float_zero); [done|].
    destruct (py_int (strip (SettingsDialog.max_workers_entry d))) as [w|]; [|done].
    destruct ((w <? 1)%Z || (500 <? w)%Z); [done|].
    destruct (py_int (strip (SettingsDialog.auto_refresh_entry d))) as [r|]; [|done].
    destruct (r <? 0)%Z; [done|].
    pose proof (targets_ok_apply_settings INI_PATH x w r a Hok) as Happ.
    by destruct (apply_settings INI_PATH x w r a) as [[[]|e] a1].
Qed.

Lemma targets_stay_well_formed_example :
  targets_ok example_app
  ∧ targets_ok (run_op "itpo.ini" example_app (click_delete 0)).
Proof.
  assert (targets_ok example_app) as Hok.
  { split_and!.
    - apply (bool_decide_unpack _). vm_compute. reflexivity.
    - intros t Ht. simpl in Ht.
      apply elem_of_cons in Ht as [->|Ht]; [by eexists|].
      apply elem_of_cons in Ht as [->|Ht]; [by eexists|].
      by apply elem_of_nil in Ht.
    - repeat constructor; (done || lia). }
  split; [exact Hok|].
  by destruct (@targets_stay_well_formed plain_lib "itpo.ini" example_app Hok) as (Hop & _).
Defined.

(** * The file follows the edits *)

Section SavedProofs.
Context `{!PythonLib}.
Variable INI_PATH : string.

(** What the file holds is what the application holds. *)
Lemma saved_after (a1 b : App) files :
  save_state (timeout a1) (max_workers a1) (auto_refresh_seconds a1) (target_values a1)
             INI_PATH (disk a1) = Return files →
  heap b = heap a1 → targets b = targets a1 → timeout b = timeout a1 →
  max_workers b = max_workers a1 → auto_refresh_seconds b = auto_refresh_seconds a1 →
  disk b = files →
  NoDup (names b) → Forall (λ t, storable t = true) (target_values b) →
  float_of_str (str_float (timeout b)) = Some (timeout b) →
  load_state INI_PATH (disk b)
  = Return (timeout b, max_workers b, auto_refresh_seconds b, target_values b).
Proof.
  intros Hsave Hh Ht Hto Hmw Har Hd Hnd Hst Hfloat.
  assert (target_values b = target_values a1) as Hv
    by (unfold target_values; by rewrite Hh, Ht).
  destruct (load_saved (timeout b) (max_workers b) (auto_refresh_seconds b)
              (target_values b) INI_PATH (disk a1) Hfloat Hnd Hst)
    as (files' & Hsave' & Hload).
  rewrite Hto, Hmw, Har, Hv, Hsave in Hsave'. injection Hsave' as <-.
  by rewrite Hd.
Qed.

(** The steps that follow [persist] in the three editing methods leave
    what is saved alone. *)
Lemma rebuild_rows_saved (a : App) :
  let b := rebuild_rows a in
  heap b = heap a ∧ targets b = targets a ∧ timeout b = timeout a
  ∧ max_workers b = max_workers a ∧ auto_refresh_seconds b = auto_refresh_seconds a
  ∧ disk b = disk a.
Proof.
  destruct (rebuild_rows_frame a) as (Hh & Ht & _).
  destruct (rebuild_rows_settings a) as (Hto & Hmw & _ & Hd & _ & Hview).
  apply timer_view_inv in Hview as (_ & _ & Har & _).
  by split_and!.
Qed.

Lemma refresh_async_saved (a : App) :
  let b := refresh_async a in
  heap b = heap a ∧ targets b = targets a ∧ timeout b = timeout a
  ∧ max_workers b = max_workers a ∧ auto_refresh_seconds b = auto_refresh_seconds a
  ∧ disk b = disk a.
Proof.
  destruct (refresh_async_frame a) as (Hh & Ht).
  destruct (refresh_async_settings a) as (Hto & Hmw & _ & Hd & _).
  pose proof (refresh_async_timer a) as Hview.
  apply timer_view_inv in Hview as (_ & _ & Har & _).
  by split_and!.
Qed.

Lemma _schedule_auto_refresh_saved (a : App) :
  let b := _schedule_auto_refresh a in
  heap b = heap a ∧ targets b = targets a ∧ timeout b = timeout a
  ∧ max_workers b = max_workers a ∧ auto_refresh_seconds b = auto_refresh_seconds a
  ∧ disk b = disk a.
Proof.
  destruct (_schedule_auto_refresh_frame a)
    as (Hh & Ht & _ & _ & _ & _ & Hto & Hmw & _ & Hd & _).
  destruct (_schedule_auto_refresh_keeps a) as [Har _].
  by split_and!.
Qed.

Lemma persist_returns (a a' : App) :
  persist INI_PATH a = (Return tt, a') →
  ∃ files,
    save_state (timeout a) (max_workers a) (auto_refresh_seconds a) (target_values a)
               INI_PATH (disk a) = Return files
    ∧ a' = with_disk files a.
Proof.
  unfold persist. destruct (save_state _ _ _ _ _ _) as [files|e]; [|done].
  intros [= <-]. by exists files.
Qed.

End SavedProofs.

(** X20: every edit that returns leaves the file in step with the
    application.  After [delete_row], [add_target] or [apply_settings] has
    returned, [load_state] on the files gives the settings and the targets
    that the application now holds (the names being pairwise distinct, the
    targets storable and the time-out one that survives printing and
    reading). *)
Theorem edits_are_saved `{!PythonLib} (INI_PATH : string) (a a' : App) :
  (∃ row, refresh_in_progress a = false ∧ delete_row INI_PATH row a = (Return tt, a'))
  ∨ (∃ t, add_target INI_PATH t a = (Return tt, a'))
  ∨ (∃ new_timeout new_max_workers new_auto_refresh,
       apply_settings INI_PATH new_timeout new_max_workers new_auto_refresh a
       = (Return tt, a')) →
  NoDup (names a') → Forall (λ t, storable t = true) (target_values a') →
  float_of_str (str_float (timeout a')) = Some (timeout a') →
  load_state INI_PATH (disk a')
  = Return (timeout a', max_workers a', auto_refresh_seconds a', target_values a').
Proof.
  intros Hedit Hnd Hst Hfloat.
  destruct Hedit as [(row & Hflag & Hdel)|[(t & Hadd)|(x & w & r & Happ)]].
  - unfold delete_row in Hdel. rewrite Hflag in Hdel.
    set (a1 := with_targets _ a) in Hdel. unfold bind, lift in Hdel.
    destruct (persist INI_PATH a1) as [[[]|e] a2] eqn:Hp; [|done].
    injection Hdel as <-.
    destruct (persist_returns INI_PATH a1 a2 Hp) as (files & Hsave & ->).
    destruct (rebuild_rows_saved (with_disk files a1)) as (Hh & Ht & Hto & Hmw & Har & Hd).
    by apply (saved_after INI_PATH a1 _ files).
  - unfold add_target in Hadd.
    set (a0 := if bool_decide _ then _ else a) in Hadd.
    set (a1 := with_targets _ a0) in Hadd. unfold bind, lift in Hadd.
    destruct (persist INI_PATH a1) as [[[]|e] a2] eqn:Hp; [|done].
    injection Hadd as <-.
    destruct (persist_returns INI_PATH a1 a2 Hp) as (files & Hsave & ->).
    destruct (rebuild_rows_saved (with_disk files a1)) as (Hh & Ht & Hto & Hmw & Har & Hd).
    destruct (refresh_async_saved (rebuild_rows (with_disk files a1)))
      as (Hh' & Ht' & Hto' & Hmw' & Har' & Hd').
    cbv zeta in *.
    apply (saved_after INI_PATH a1 _ files);
      [done|by rewrite Hh', Hh|by rewrite Ht', Ht|by rewrite Hto', Hto|by rewrite Hmw', Hmw
      |by rewrite Har', Har|by rewrite Hd', Hd|done..].
  - destruct (apply_settings_cases INI_PATH x w r a) as [[Hcase _]|[Hcase _]];
      rewrite Hcase in Happ; [done|].
    set (a1 := assigned x w r a) in Happ. unfold bind, lift in Happ.
    destruct (persist INI_PATH a1) as [[[]|e] a2] eqn:Hp; [|done].
    injection Happ as <-.
    destruct (persist_returns INI_PATH a1 a2 Hp) as (files & Hsave & ->).
    destruct (_schedule_auto_refresh_saved (with_disk files a1))
      as (Hh & Ht & Hto & Hmw & Har & Hd).
    destruct (refresh_async_saved (_schedule_auto_refresh (with_disk files a1)))
      as (Hh' & Ht' & Hto' & Hmw' & Har' & Hd').
    cbv zeta in *.
    apply (saved_after INI_PATH a1 _ files);
      [done|by rewrite Hh', Hh|by rewrite Ht', Ht|by rewrite Hto', Hto|by rewrite Hmw', Hmw
      |by rewrite Har', Har|by rewrite Hd', Hd|done..].
Qed.

Lemma edits_are_saved_example :
  ∃ a', delete_row "itpo.ini" 0 example_app = (Return tt, a')
        ∧ @load_state plain_lib "itpo.ini" (disk a') = Return (float_5, 10, 0, [db]).
Proof.
  destruct (delete_row "itpo.ini" 0 example_app) as [[[]|e] a'] eqn:Hdel.
  - exists a'. split; [reflexivity|].
    assert (timeout a' = float_5 ∧ max_workers a' = 10 ∧ auto_refresh_seconds a' = 0
            ∧ target_values a' = [db]) as (Ht & Hw & Hr & Hv).
    { assert (a' = (delete_row "itpo.ini" 0 example_app).2) as -> by by rewrite Hdel.
      split_and!; vm_compute; reflexivity. }
    pose proof (edits_are_saved "itpo.ini" example_app a') as Hsaved.
    unfold names in Hsaved. rewrite Ht, Hw, Hr, Hv in Hsaved.
    apply Hsaved.
    + left. exists 0%nat. by split.
    + apply (bool_decide_unpack _). vm_compute. reflexivity.
    + repeat constructor.
    + reflexivity.
  - exfalso.
    assert (match (delete_row "itpo.ini" 0 example_app).1 with
            | Return _ => True
            | Raise _ => False
            end) as Hret by (vm_compute; exact I).
    by rewrite Hdel in Hret.
Defined.

(** * The buttons and the pool, through every operation *)

Section ControlsProofs.
Context `{!PythonLib}.
Variable INI_PATH : string.

Lemma controls_view_inv (a b : App) :
  controls_view b = controls_view a →
  refresh_in_progress b = refresh_in_progress a ∧ refresh_button b = refresh_button a
  ∧ add_btn b = add_btn a ∧ settings_button b = settings_button a
  ∧ executor b = executor a ∧ max_workers b = max_workers a.
Proof. unfold controls_view. intros [= ? ? ? ? ? ?]. done. Qed.

Lemma rebuild_rows_controls (a : App) : controls_view (rebuild_rows a) = controls_view a.
Proof.
  unfold rebuild_rows.
  rewrite (foldl_keeps controls_view) by done.
  change (controls_view (with_rows ?l ?x)) with (controls_view x).
  by rewrite (foldl_keeps controls_view).
Qed.

Lemma persist_controls (a : App) : controls_view (persist INI_PATH a).2 = controls_view a.
Proof. unfold persist. by destruct (save_state _ _ _ _ _ _). Qed.

Lemma _schedule_auto_refresh_controls (a : App) :
  controls_view (_schedule_auto_refresh a) = controls_view a.
Proof.
  unfold _schedule_auto_refresh.
  destruct (_auto_after_id a); simpl; destruct (negb _ && _); done.
Qed.

(** A property of the controls that holds of the settings as
    [apply_settings] leaves them, on either way out of it, holds after
    [apply_settings]. *)
Lemma apply_settings_keeps (P : App → Prop) t w r (a : App) :
  (∀ a b : App, controls_view b = controls_view a → P a → P b) →
  (∀ a : App, P a → P (refresh_async a)) →
  (w ≠ max_workers a → (w ≤ 0)%Z → P (settings_assigned t w r a)) →
  (w = max_workers a ∨ (0 < w)%Z → P (assigned t w r a)) →
  P (apply_settings INI_PATH t w r a).2.
Proof.
  intros P_view P_refresh Hraise Hgo.
  destruct (apply_settings_cases INI_PATH t w r a) as [(-> & Hw & Hle)|[-> Hw]];
    [by apply Hraise|].
  specialize (Hgo Hw).
  set (a0 := assigned t w r a) in *.
  pose proof (persist_controls a0) as Hp. unfold bind, lift.
  destruct (persist INI_PATH a0) as [[[]|e] a1]; simpl in *.
  - apply P_refresh. apply (P_view a1); [apply _schedule_auto_refresh_controls|].
    by apply (P_view a0).
  - by apply (P_view a0).
Qed.

(** A property of the controls that the steps which touch them keep is
    kept by everything that happens, as long as the Tk thread does only
    what is [allowed]. *)
Section Invariant.
Variable P : App → Prop.
Variable allowed : MainOp → Prop.
Hypothesis P_view : ∀ a b : App, controls_view b = controls_view a → P a → P b.
Hypothesis P_refresh : ∀ a : App, P a → P (refresh_async a).
Hypothesis P_results : ∀ results (a : App), P a → P (apply_results results a).
Hypothesis P_recover : ∀ a : App, P a → P (recover a).
Hypothesis P_settings : ∀ t w r (a : App),
  allowed (settings_apply t w r) → P a → P (apply_settings INI_PATH t w r a).2.
Hypothesis allowed_positive : ∀ t w r, (0 < w)%Z → allowed (settings_apply t w r).

Lemma kept_by_add_target t (a : App) : P a → P (add_target INI_PATH t a).2.
Proof.
  intros HP. unfold add_target.
  set (a1 := if bool_decide _ then _ else a).
  assert (P a1) as HP1.
  { apply (P_view a); [|done]. unfold a1. case_bool_decide; [|done].
    by destruct (first_free _ _ _ _). }
  set (a2 := with_targets _ a1).
  assert (P a2) as HP2 by by apply (P_view a1).
  pose proof (persist_controls a2) as Hp. unfold bind, lift.
  destruct (persist INI_PATH a2) as [[[]|e] a3]; simpl in *.
  - apply P_refresh. apply (P_view a3); [apply rebuild_rows_controls|].
    by apply (P_view a2).
  - by apply (P_view a2).
Qed.

Lemma kept_by_delete_row row (a : App) : P a → P (exec (delete_row INI_PATH row) a).
Proof.
  intros HP. unfold delete_row, exec. destruct (refresh_in_progress a); [done|].
  set (a1 := with_targets _ a).
  assert (P a1) as HP1 by by apply (P_view a).
  pose proof (persist_controls a1) as Hp. unfold bind, lift.
  destruct (persist INI_PATH a1) as [[[]|e] a2]; simpl in *.
  - apply (P_view a2); [apply rebuild_rows_controls|]. by apply (P_view a1).
  - by apply (P_view a1).
Qed.

Lemma kept_by__submit n h p (a : App) : P a → P (exec (_submit INI_PATH n h p) a).
Proof.
  intros HP. unfold _submit, exec.
  destruct (negb (add_dialog a)); [done|].
  case_bool_decide; [done|]. case_bool_decide; [done|].
  destruct (py_int (strip p)) as [port|]; [|done].
  destruct (negb _); [done|].
  set (a1 := with_heap _ a).
  assert (P a1) as HP1 by by apply (P_view a).
  pose proof (kept_by_add_target (fresh (dom (heap a))) a1 HP1) as Hadd.
  unfold bind, lift.
  destruct (add_target INI_PATH _ a1) as [[[]|e] a2]; simpl in *; [|done].
  by apply (P_view a2).
Qed.

Lemma kept_by_fire id (a : App) : P a → P (fire id a).
Proof.
  intros HP. unfold fire.
  destruct (tk_pending a !! id) as [[due cb]|]; [|done].
  destruct (due <=? tk_now a); [|done].
  assert (P (after_cancel id a)) as HP1 by by apply (P_view a).
  destruct cb; cbn [run_callback].
  - unfold _auto_refresh_tick.
    apply (P_view (refresh_async (after_cancel id a)));
      [apply _schedule_auto_refresh_controls|by apply P_refresh].
  - by apply P_results.
  - by apply P_recover.
Qed.

Lemma kept_by_run_op (a : App) op : allowed op → P a → P (run_op INI_PATH a op).
Proof.
  intros Hop HP. destruct op; simpl.
  - by apply P_refresh.
  - by apply kept_by_delete_row.
  - unfold open_add_dialog. destruct (refresh_in_progress a); [done|].
    by apply (P_view a).
  - by apply kept_by__submit.
  - by apply P_settings.
  - by apply kept_by_fire.
  - by apply (P_view a).
Qed.

Lemma kept_by_run_ops ops (a : App) :
  Forall allowed ops → P a → P (run_ops INI_PATH ops a).
Proof.
  unfold run_ops. intros Hops. revert a.
  induction Hops as [|op ops Hop _ IH]; intros a HP; simpl; [done|].
  by apply IH, kept_by_run_op.
Qed.

Lemma kept_by_submit_all env sched snapshot :
  (∀ i, Forall allowed (sched i)) →
  ∀ i futures (a : App),
  P a → P (submit_all INI_PATH env sched i snapshot futures a).2.
Proof.
  intros Hsched.
  induction snapshot as [|row rest IH]; intros i futures a HP; simpl; [done|].
  unfold bind at 1, submit_row.
  pose proof (kept_by_run_ops (sched i) a (Hsched i) HP) as HP1.
  destruct (submit_raises env _); [done|].
  apply IH. by apply (P_view (run_ops INI_PATH (sched i) a)).
Qed.

Lemma kept_by_worker env sched (a : App) :
  (∀ i, Forall allowed (sched i)) →
  P a → P (_refresh_worker INI_PATH env sched a).
Proof.
  intros Hsched HP. unfold _refresh_worker, try_block, bind.
  pose proof (kept_by_submit_all env sched (rows a) Hsched 0 ∅ a HP) as Hs.
  destruct (submit_all INI_PATH env sched 0 (rows a) ∅ a) as [[futures|e] a1]; simpl in *.
  - by apply (P_view (run_ops INI_PATH (sched (length (rows a))) a1));
      [|apply kept_by_run_ops].
  - by apply (P_view a1).
Qed.

Lemma kept_by_add_dialog d (a : App) : P a → P (AddTargetDialog._submit INI_PATH d a).2.
Proof.
  intros HP. unfold AddTargetDialog._submit.
  case_bool_decide; [done|]. case_bool_decide; [done|].
  destruct (py_int _) as [port|]; [|done].
  destruct (negb _); [done|].
  set (a1 := with_heap _ a).
  assert (P a1) as HP1 by by apply (P_view a).
  pose proof (kept_by_add_target (fresh (dom (heap a))) a1 HP1) as Hadd.
  by destruct (add_target INI_PATH _ a1) as [[[]|e] a2].
Qed.

Lemma kept_by_settings_dialog d (a : App) : P a → P (SettingsDialog._apply INI_PATH d a).2.
Proof.
  intros HP. unfold SettingsDialog._apply.
  destruct (float_of_str _) as [x|]; [|done].
  destruct (float_leb x float_zero); [done|].
  destruct (py_int (strip (SettingsDialog.max_workers_entry d))) as [w|]; [|done].
  destruct ((w <? 1)%Z || (500 <? w)%Z) eqn:Hbounds; [done|].
  destruct (py_int (strip (SettingsDialog.auto_refresh_entry d))) as [r|]; [|done].
  destruct (r <? 0)%Z; [done|].
  assert (0 < w)%Z as Hw.
  { apply orb_false_iff in Hbounds as [Hlow%Z.ltb_ge _]. lia. }
  pose proof (P_settings x w r a (allowed_positive x w r Hw) HP) as Happ.
  by destruct (apply_settings INI_PATH x w r a) as [[[]|e] a1].
Qed.

End Invariant.

(** The steps that touch the controls keep the buttons in step with the
    flag. *)
Lemma controls_ok_view (a b : App) :
  controls_view b = controls_view a → controls_ok a → controls_ok b.
Proof.
  intros (Hf & Hr & Ha & Hs & _)%controls_view_inv. unfold controls_ok.
  by rewrite Hf, Hr, Ha, Hs.
Qed.

Lemma controls_ok_refresh_async (a : App) : controls_ok a → controls_ok (refresh_async a).
Proof.
  intros Hok. destruct (refresh_in_progress a) eqn:Hflag.
  - unfold refresh_async. by rewrite Hflag.
  - destruct (refresh_async_starts a Hflag) as (Hf & _ & Hr).
    destruct (refresh_async_editing a Hflag) as [Ha Hs].
    unfold controls_ok. by rewrite Hf, Hr, Ha, Hs.
Qed.

Lemma controls_ok_apply_results results (a : App) : controls_ok (apply_results results a).
Proof.
  destruct (apply_results_spec results a) as (Hf & Hr & Ha & Hs & _).
  unfold controls_ok. by rewrite Hf, Hr, Ha, Hs.
Qed.

Lemma controls_ok_recover (a : App) : controls_ok (recover a).
Proof.
  destruct (recover_spec a) as (Hf & Hr & Ha & Hs & _).
  unfold controls_ok. by rewrite Hf, Hr, Ha, Hs.
Qed.

Lemma controls_ok_apply_settings t w r (a : App) :
  controls_ok a → controls_ok (apply_settings INI_PATH t w r a).2.
Proof.
  intros Hok. apply apply_settings_keeps;
    [apply controls_ok_view|apply controls_ok_refresh_async|done|].
  intros _. unfold assigned. by case_bool_decide.
Qed.

(** The steps that touch the controls keep the pool in step with the
    worker count. *)
Lemma pool_ok_view (a b : App) : controls_view b = controls_view a → pool_ok a → pool_ok b.
Proof.
  intros (_ & _ & _ & _ & He & Hm)%controls_view_inv. unfold pool_ok. by rewrite He, Hm.
Qed.

Lemma pool_ok_refresh_async (a : App) : pool_ok a → pool_ok (refresh_async a).
Proof.
  destruct (refresh_async_settings a) as (_ & Hm & He & _). unfold pool_ok.
  by rewrite Hm, He.
Qed.

Lemma _set_editing_enabled_pool enabled (a : App) :
  executor (_set_editing_enabled enabled a) = executor a
  ∧ max_workers (_set_editing_enabled enabled a) = max_workers a.
Proof.
  unfold _set_editing_enabled. by rewrite (foldl_keeps executor), (foldl_keeps max_workers).
Qed.

Lemma pool_ok_apply_results results (a : App) : pool_ok a → pool_ok (apply_results results a).
Proof.
  unfold pool_ok, apply_results. cbv zeta. simpl.
  set (a1 := foldl _ a results).
  destruct (_set_editing_enabled_pool true
              (with_refresh_button true (with_meta_label (Some (tk_now a1)) a1)))
    as [-> ->].
  simpl. unfold a1. by rewrite (foldl_keeps executor), (foldl_keeps max_workers).
Qed.

Lemma pool_ok_recover (a : App) : pool_ok a → pool_ok (recover a).
Proof.
  unfold pool_ok, recover. cbv zeta. simpl.
  by destruct (_set_editing_enabled_pool true (with_refresh_button true a)) as [-> ->].
Qed.

(** With a positive worker count [apply_settings] keeps the pool in step. *)
Lemma pool_ok_apply_settings t w r (a : App) :
  (0 < w)%Z → pool_ok a → pool_ok (apply_settings INI_PATH t w r a).2.
Proof.
  intros Hw Hok. apply apply_settings_keeps;
    [apply pool_ok_view|apply pool_ok_refresh_async|lia|].
  intros _. destruct Hok as [He Hm]. unfold pool_ok, assigned.
  case_bool_decide as Hne; simpl; [done|].
  split; [|done]. rewrite He. destruct (decide (w = max_workers a)); [done|by destruct Hne].
Qed.

(** Without one it raises where it makes the pool, when the count is new. *)
Lemma apply_settings_no_pool t w r (a : App) :
  (w ≤ 0)%Z → w ≠ max_workers a →
  apply_settings INI_PATH t w r a = (Raise ValueError, settings_assigned t w r a).
Proof.
  intros Hle Hne.
  destruct (apply_settings_cases INI_PATH t w r a) as [(-> & _)|[_ [Hw|Hw]]]; [done|done|lia].
Qed.

End ControlsProofs.

(** X21: the Refresh, Add and Settings buttons are enabled exactly while
    no scan is in progress.  This holds when [App.__init__] returns, and
    everything that happens afterwards keeps it: every action on the Tk
    thread (the buttons, the two dialogs, the timers that fire, time
    passing) and the worker thread with whatever the Tk thread does beside
    it. *)
Theorem buttons_follow_scan_flag `{!PythonLib} (INI_PATH : string) :
  (∀ now (files : Disk) (a : App), __init__ INI_PATH now files = Return a → controls_ok a)
  ∧ ∀ a : App, controls_ok a →
      (∀ op, controls_ok (run_op INI_PATH a op))
      ∧ (∀ env sched, controls_ok (_refresh_worker INI_PATH env sched a))
      ∧ (∀ d, controls_ok (AddTargetDialog._submit INI_PATH d a).2)
      ∧ (∀ d, controls_ok (SettingsDialog._apply INI_PATH d a).2).
Proof.
  split.
  - intros now files a Hinit.
    destruct (__init___spec INI_PATH now files a Hinit)
      as (_ & _ & _ & _ & _ & _ & Hf & _ & Ha & Hs & Hr & _).
    unfold controls_ok. by rewrite Hf, Ha, Hs, Hr.
  - intros a Hok.
    pose proof controls_ok_view as Hv.
    pose proof controls_ok_refresh_async as Hr.
    assert (∀ results (b : App), controls_ok b → controls_ok (apply_results results b)) as Hres
      by (intros results b _; apply controls_ok_apply_results).
    assert (∀ b : App, controls_ok b → controls_ok (recover b)) as Hrec
      by (intros b _; apply controls_ok_recover).
    assert (∀ t w r (b : App), True → controls_ok b
              → controls_ok (apply_settings INI_PATH t w r b).2) as Hset
      by (intros t w r b _; apply controls_ok_apply_settings).
    split_and!.
    + intros op. by apply (kept_by_run_op INI_PATH controls_ok (λ _, True)).
    + intros env sched.
      apply (kept_by_worker INI_PATH controls_ok (λ _, True)); try done.
      intros i. by apply Forall_true.
    + intros d. by apply (kept_by_add_dialog INI_PATH controls_ok).
    + intros d. by apply (kept_by_settings_dialog INI_PATH controls_ok (λ _, True)).
Qed.

Lemma buttons_follow_scan_flag_example :
  controls_ok example_app
  ∧ controls_ok (run_op "itpo.ini" example_app click_refresh)
  ∧ refresh_button (run_op "itpo.ini" example_app click_refresh) = false.
Proof.
  assert (controls_ok example_app) as Hok by (by split_and!).
  destruct (@buttons_follow_scan_flag plain_lib "itpo.ini") as [_ Hkeep].
  destruct (Hkeep example_app Hok) as (Hop & _).
  split_and!; [exact Hok|apply Hop|reflexivity].
Defined.

(** X22: the pool has as many workers as the settings say, a positive
    number, as long as [apply_settings] is given positive worker counts.
    This holds when [App.__init__] returns; it is kept by every action on
    the Tk thread that asks for no pool without workers, by the worker
    thread beside such actions, and by the two dialogs, whatever is typed
    into them ([SettingsDialog._apply] lets only counts from 1 to 500
    through).  Called with a count that is not positive, [apply_settings]
    raises [ValueError] where it makes the new pool, after it has assigned
    the count: the old pool then stands beside the new count. *)
Theorem pool_follows_worker_count `{!PythonLib} (INI_PATH : string) :
  (∀ now (files : Disk) (a : App), __init__ INI_PATH now files = Return a → pool_ok a)
  ∧ (∀ a : App, pool_ok a →
       (∀ op, pool_takes op → pool_ok (run_op INI_PATH a op))
       ∧ (∀ env sched, (∀ i, Forall pool_takes (sched i)) →
            pool_ok (_refresh_worker INI_PATH env sched a))
       ∧ (∀ d, pool_ok (AddTargetDialog._submit INI_PATH d a).2)
       ∧ (∀ d, pool_ok (SettingsDialog._apply INI_PATH d a).2))
  ∧ (∀ (a : App) new_timeout new_max_workers new_auto_refresh,
       pool_ok a → (new_max_workers ≤ 0)%Z →
       let result := apply_settings INI_PATH new_timeout new_max_workers new_auto_refresh a in
       result.1 = Raise ValueError
       ∧ max_workers result.2 = new_max_workers
       ∧ executor result.2 = executor a
       ∧ ¬ pool_ok result.2).
Proof.
  split_and!.
  - intros now files a Hinit.
    by destruct (__init___spec INI_PATH now files a Hinit) as (_ & Hpos & He & _).
  - intros a Hok.
    pose proof pool_ok_view as Hv.
    pose proof pool_ok_refresh_async as Hr.
    pose proof pool_ok_apply_results as Hres.
    pose proof pool_ok_recover as Hrec.
    assert (∀ t w r (b : App), pool_takes (settings_apply t w r) → pool_ok b
              → pool_ok (apply_settings INI_PATH t w r b).2) as Hset
      by (intros t w r b Hw; by apply pool_ok_apply_settings).
    assert (∀ (t : float) w (r : Z), (0 < w)%Z → pool_takes (settings_apply t w r)) as Hpos
      by done.
    split_and!.
    + intros op Hop. by apply (kept_by_run_op INI_PATH pool_ok pool_takes).
    + intros env sched Hsched. by apply (kept_by_worker INI_PATH pool_ok pool_takes).
    + intros d. by apply (kept_by_add_dialog INI_PATH pool_ok).
    + intros d. by apply (kept_by_settings_dialog INI_PATH pool_ok pool_takes).
  - intros a t w r [He Hm] Hle. cbv zeta.
    rewrite apply_settings_no_pool by lia. simpl.
    split_and!; [done..|]. intros [_ Hpos]. simpl in Hpos. lia.
Qed.

Lemma pool_follows_worker_count_example :
  pool_ok example_app
  ∧ pool_ok (run_op "itpo.ini" example_app (settings_apply float_5 20 0))
  ∧ executor (run_op "itpo.ini" example_app (settings_apply float_5 20 0)) = 20
  ∧ (apply_settings "itpo.ini" float_5 0 0 example_app).1 = Raise ValueError.
Proof.
  assert (pool_ok example_app) as Hok by (split; [reflexivity|simpl; lia]).
  destruct (@pool_follows_worker_count plain_lib "itpo.ini") as (_ & Hkeep & Hbreak).
  destruct (Hkeep example_app Hok) as (Hop & _).
  split_and!; [exact Hok|apply Hop; simpl; lia|vm_compute; reflexivity|].
  apply (Hbreak example_app float_5 0 0 Hok). lia.
Defined.

(** * The rows of the list are live widgets *)

Section RowsOkProofs.
Context `{!PythonLib}.
Variable INI_PATH : string.

Lemma rows_carried_refl (a : App) : rows_carried a a.
Proof. intros r rec Hr. by exists rec. Qed.

Lemma rows_carried_trans (a b c : App) :
  rows_carried a b → rows_carried b c → rows_carried a c.
Proof.
  intros Hab Hbc r rec Hr.
  destruct (Hab r rec Hr) as (rec1 & Hr1 & Ht1 & Ha1).
  destruct (Hbc r rec1 Hr1) as (rec2 & Hr2 & Ht2 & Ha2).
  exists rec2. split_and!; [done|congruence..].
Qed.

Lemma rows_carried_same (a b : App) : row_heap b = row_heap a → rows_carried a b.
Proof. intros Heq r rec Hr. exists rec. by rewrite Heq. Qed.

Lemma on_row_carried f (a : App) r :
  (∀ x, target (f x) = target x ∧ alive (f x) = alive x) →
  rows_carried a (on_row f a r).
Proof.
  intros Hf r' rec Hr'. unfold on_row. simpl.
  destruct (decide (r = r')) as [->|Hne].
  - exists (f rec). rewrite lookup_alter_eq, Hr'. simpl. by destruct (Hf rec).
  - exists rec. by rewrite lookup_alter_ne.
Qed.

Lemma foldl_on_row_carried f (l : list nat) (a : App) :
  (∀ x, target (f x) = target x ∧ alive (f x) = alive x) →
  rows_carried a (foldl (on_row f) a l).
Proof.
  intros Hf. revert a. induction l as [|r l IH]; intros a; simpl; [apply rows_carried_refl|].
  apply (rows_carried_trans _ (on_row f a r)); [by apply on_row_carried|apply IH].
Qed.

Lemma _set_editing_enabled_carried enabled (a : App) :
  rows_carried a (_set_editing_enabled enabled a).
Proof.
  unfold _set_editing_enabled.
  apply (rows_carried_trans _ (with_settings_button enabled (with_add_btn enabled a)));
    [by apply rows_carried_same|by apply foldl_on_row_carried].
Qed.

Lemma refresh_async_carried (a : App) : rows_carried a (refresh_async a).
Proof.
  unfold refresh_async. destruct (refresh_in_progress a); [apply rows_carried_refl|].
  set (a1 := with_refresh_button false (with_refresh_in_progress true a)).
  apply (rows_carried_trans _ a1); [by apply rows_carried_same|].
  apply (rows_carried_trans _ (_set_editing_enabled false a1));
    [apply _set_editing_enabled_carried|].
  set (a2 := _set_editing_enabled false a1).
  apply (rows_carried_trans _ (foldl (on_row set_checking) a2 (rows a2)));
    [by apply foldl_on_row_carried|by apply rows_carried_same].
Qed.

Lemma apply_results_carried results (a : App) : rows_carried a (apply_results results a).
Proof.
  unfold apply_results.
  set (a1 := foldl _ a results).
  assert (rows_carried a a1) as H1.
  { unfold a1. clear. revert a.
    induction results as [|res results IH]; intros a; simpl; [apply rows_carried_refl|].
    apply (rows_carried_trans _ (on_row (set_result res.1.2 res.2) a res.1.1));
      [by apply on_row_carried|apply IH]. }
  cbv zeta.
  set (a2 := with_refresh_button true (with_meta_label (Some (tk_now a1)) a1)).
  apply (rows_carried_trans _ a1); [done|].
  apply (rows_carried_trans _ a2); [by apply rows_carried_same|].
  apply (rows_carried_trans _ (_set_editing_enabled true a2));
    [apply _set_editing_enabled_carried|by apply rows_carried_same].
Qed.

Lemma recover_carried (a : App) : rows_carried a (recover a).
Proof.
  unfold recover. cbv zeta.
  apply (rows_carried_trans _ (with_refresh_button true a)); [by apply rows_carried_same|].
  apply (rows_carried_trans _ (_set_editing_enabled true (with_refresh_button true a)));
    [apply _set_editing_enabled_carried|by apply rows_carried_same].
Qed.

(** What keeps the rows, carries their objects and does not shrink the
    store keeps [rows_ok]. *)
Lemma rows_ok_carried (a b : App) :
  rows b = rows a → rows_carried a b → dom (heap a) ⊆ dom (heap b) →
  (∀ t, t ∈ targets b → t ∈ dom (heap b)) →
  rows_ok a → rows_ok b.
Proof.
  intros Hrows Hcar Hdom Ht (Hnd & Hpres & _). unfold rows_ok. rewrite Hrows.
  split_and!; [done| |done].
  intros r Hr. destruct (Hpres r Hr) as (rec & Hrec & Halive & Htarget).
  destruct (Hcar r rec Hrec) as (rec' & Hrec' & Et & Ea).
  exists rec'. split_and!; [done|congruence|]. rewrite Et. by apply Hdom.
Qed.

Lemma rows_ok_same (a b : App) :
  rows b = rows a → row_heap b = row_heap a → heap b = heap a → targets b = targets a →
  rows_ok a → rows_ok b.
Proof.
  intros Hr Hrh Hh Ht Hok. apply (rows_ok_carried a); [done|by apply rows_carried_same| | |done].
  - by rewrite Hh.
  - rewrite Ht, Hh. by destruct Hok as (_ & _ & ?).
Qed.

(** [rebuild_rows] makes the rows anew; it needs only that the targets are
    in the store. *)
Lemma rows_ok_rebuild_rows (a : App) :
  (∀ t, t ∈ targets a → t ∈ dom (heap a)) → rows_ok (rebuild_rows a).
Proof.
  intros Ht.
  destruct (rebuild_rows_spec a) as (_ & Hnd & Hnew & _ & Hheap & Htargets).
  unfold rows_ok. rewrite Hheap, Htargets. split_and!; [done| |done].
  intros r [k Hk]%list_elem_of_lookup.
  destruct (Hnew k r Hk) as (_ & t & row & Htk & Hrow & Hfresh).
  destruct Hfresh as (Etarget & _ & _ & _ & _ & _ & Ealive).
  exists row. split_and!; [done|done|]. rewrite Etarget. apply Ht.
  by eapply list_elem_of_lookup_2.
Qed.

Lemma rows_ok_refresh_async (a : App) : rows_ok a → rows_ok (refresh_async a).
Proof.
  intros Hok. destruct (refresh_async_pool a) as (_ & _ & _ & _ & _ & _ & Hrows & Hheap).
  destruct (refresh_async_frame a) as (_ & Htargets).
  apply (rows_ok_carried a); [done|apply refresh_async_carried|by rewrite Hheap| |done].
  rewrite Htargets, Hheap. by destruct Hok as (_ & _ & ?).
Qed.

Lemma rows_ok_delete_row row (a : App) : rows_ok a → rows_ok (exec (delete_row INI_PATH row) a).
Proof.
  intros Hok. unfold delete_row, exec. destruct (refresh_in_progress a); [done|].
  set (keep := λ t, negb (same_target (heap a !!! t) _)).
  set (a1 := with_targets (List.filter keep (targets a)) a).
  assert (∀ t, t ∈ targets a1 → t ∈ dom (heap a1)) as Ht1.
  { intros t Ht. unfold a1 in Ht. simpl in Ht.
    apply list_elem_of_In, List.filter_In in Ht as [Ht _]. apply list_elem_of_In in Ht.
    destruct Hok as (_ & _ & Hall). by apply Hall. }
  destruct (persist_frame INI_PATH a1) as (Hh & Ht & Hr & Hrh & _).
  unfold exec in Hh, Ht, Hr, Hrh. unfold bind, lift.
  destruct (persist INI_PATH a1) as [[[]|e] a2]; simpl in *.
  - apply rows_ok_rebuild_rows. by rewrite Ht, Hh.
  - apply (rows_ok_carried a); [done|by apply rows_carried_same|by rewrite Hh|
                                by rewrite Ht, Hh|done].
Qed.

(** [add_target] on an object of the store. *)
Lemma rows_ok_add_target t (a : App) :
  t ∈ dom (heap a) → rows_ok a → rows_ok (add_target INI_PATH t a).2.
Proof.
  intros Hin Hok. unfold add_target.
  set (a1 := if bool_decide _ then _ else a).
  assert (dom (heap a1) = dom (heap a) ∧ rows a1 = rows a ∧ row_heap a1 = row_heap a
          ∧ targets a1 = targets a) as (Hdom1 & Hrows1 & Hrh1 & Ht1).
  { unfold a1. case_bool_decide; [|done].
    destruct (first_free _ _ _ _); [|done]. unfold rename. simpl.
    by rewrite dom_alter_L. }
  set (a2 := with_targets (targets a1 ++ [t]) a1).
  assert (∀ x, x ∈ targets a2 → x ∈ dom (heap a2)) as Ht2.
  { intros x Hx. unfold a2 in *. simpl in *. rewrite Hdom1.
    apply elem_of_app in Hx as [Hx| ->%list_elem_of_singleton]; [|done].
    rewrite Ht1 in Hx. destruct Hok as (_ & _ & Hall). by apply Hall. }
  destruct (persist_frame INI_PATH a2) as (Hh & Ht & Hr & Hrh & _).
  unfold exec in Hh, Ht, Hr, Hrh. unfold bind, lift.
  destruct (persist INI_PATH a2) as [[[]|e] a3]; simpl in *.
  - apply rows_ok_refresh_async, rows_ok_rebuild_rows. by rewrite Ht, Hh.
  - apply (rows_ok_carried a); [by rewrite Hr|by apply rows_carried_same; rewrite Hrh
                               |by rewrite Hh, Hdom1|by rewrite Ht, Hh|done].
Qed.

Lemma rows_ok_insert t tg (a : App) :
  rows_ok a → rows_ok (with_heap (<[t := tg]> (heap a)) a).
Proof.
  intros Hok. apply (rows_ok_carried a); [done|by apply rows_carried_same| | |done].
  - simpl. rewrite dom_insert_L. set_solver.
  - intros x Hx. simpl in *. rewrite dom_insert_L.
    destruct Hok as (_ & _ & Hall). apply elem_of_union_r. by apply Hall.
Qed.

Lemma rows_ok__submit n h p (a : App) : rows_ok a → rows_ok (exec (_submit INI_PATH n h p) a).
Proof.
  intros Hok. unfold _submit, exec.
  destruct (negb (add_dialog a)); [done|].
  case_bool_decide; [done|]. case_bool_decide; [done|].
  destruct (py_int (strip p)) as [port|]; [|done].
  destruct (negb _); [done|].
  set (t := fresh (dom (heap a))).
  set (a1 := with_heap _ a).
  assert (rows_ok (add_target INI_PATH t a1).2) as Hadd.
  { apply rows_ok_add_target; [|by apply rows_ok_insert].
    unfold a1. simpl. rewrite dom_insert_L. set_solver. }
  unfold bind, lift.
  destruct (add_target INI_PATH t a1) as [[[]|e] a2]; simpl in *; [|done].
  by apply (rows_ok_same a2).
Qed.

Lemma rows_ok_apply_settings t w r (a : App) :
  rows_ok a → rows_ok (apply_settings INI_PATH t w r a).2.
Proof.
  intros Hok.
  destruct (apply_settings_cases INI_PATH t w r a) as [[-> _]|[-> _]];
    [by apply (rows_ok_same a)|].
  set (a0 := assigned t w r a).
  assert (rows_ok a0) as Hok0.
  { apply (rows_ok_same a); [..|done]; unfold a0, assigned; by case_bool_decide. }
  destruct (persist_frame INI_PATH a0) as (Hh & Ht & Hr & Hrh & _).
  unfold exec in Hh, Ht, Hr, Hrh. unfold bind, lift.
  destruct (persist INI_PATH a0) as [[[]|e] a1]; simpl in *.
  - apply rows_ok_refresh_async.
    destruct (_schedule_auto_refresh_frame a1) as (Hh' & Ht' & Hr' & Hrh' & _).
    apply (rows_ok_same a1); [done..|]. by apply (rows_ok_same a0).
  - by apply (rows_ok_same a0).
Qed.

Lemma rows_ok_fire id (a : App) : rows_ok a → rows_ok (fire id a).
Proof.
  intros Hok. unfold fire.
  destruct (tk_pending a !! id) as [[due cb]|]; [|done].
  destruct (due <=? tk_now a); [|done].
  assert (rows_ok (after_cancel id a)) as Hok1 by by apply (rows_ok_same a).
  set (a1 := after_cancel id a) in *.
  destruct cb; cbn [run_callback].
  - unfold _auto_refresh_tick.
    destruct (_schedule_auto_refresh_frame (refresh_async a1)) as (Hh & Ht & Hr & Hrh & _).
    apply (rows_ok_same (refresh_async a1)); [done..|]. by apply rows_ok_refresh_async.
  - destruct (apply_results_frame results a1) as [Hh Ht].
    apply (rows_ok_carried a1); [|apply apply_results_carried|by rewrite Hh| |done].
    + unfold apply_results. cbv zeta. simpl.
      destruct (_set_editing_enabled_frame true
                  (with_refresh_button true
                     (with_meta_label
                        (Some (tk_now (foldl (λ a (r : result),
                                               on_row (set_result r.1.2 r.2) a r.1.1) a1 results)))
                        (foldl (λ a (r : result),
                                  on_row (set_result r.1.2 r.2) a r.1.1) a1 results))))
        as (_ & _ & ->).
      simpl. by rewrite (foldl_keeps rows).
    + rewrite Ht, Hh. by destruct Hok1 as (_ & _ & ?).
  - destruct (recover_frame a1) as [Hh Ht].
    apply (rows_ok_carried a1); [|apply recover_carried|by rewrite Hh| |done].
    + unfold recover. cbv zeta. simpl.
      by destruct (_set_editing_enabled_frame true (with_refresh_button true a1))
        as (_ & _ & ->).
    + rewrite Ht, Hh. by destruct Hok1 as (_ & _ & ?).
Qed.

Lemma rows_ok_run_op (a : App) op : rows_ok a → rows_ok (run_op INI_PATH a op).
Proof.
  intros Hok. destruct op; simpl.
  - by apply rows_ok_refresh_async.
  - by apply rows_ok_delete_row.
  - unfold open_add_dialog. destruct (refresh_in_progress a); [done|].
    by apply (rows_ok_same a).
  - by apply rows_ok__submit.
  - by apply rows_ok_apply_settings.
  - by apply rows_ok_fire.
  - by apply (rows_ok_same a).
Qed.

Lemma rows_ok_run_ops ops (a : App) : rows_ok a → rows_ok (run_ops INI_PATH ops a).
Proof.
  unfold run_ops. revert a. induction ops as [|op ops IH]; intros a Hok; simpl; [done|].
  by apply IH, rows_ok_run_op.
Qed.

Lemma rows_ok_submit_all env sched snapshot : ∀ i futures (a : App),
  rows_ok a → rows_ok (submit_all INI_PATH env sched i snapshot futures a).2.
Proof.
  induction snapshot as [|row rest IH]; intros i futures a Hok; simpl; [done|].
  unfold bind at 1, submit_row.
  pose proof (rows_ok_run_ops (sched i) a Hok) as Hok1.
  destruct (submit_raises env _); [done|].
  apply IH. by apply (rows_ok_same (run_ops INI_PATH (sched i) a)).
Qed.

Lemma rows_ok_worker env sched (a : App) :
  rows_ok a → rows_ok (_refresh_worker INI_PATH env sched a).
Proof.
  intros Hok. unfold _refresh_worker, try_block, bind.
  pose proof (rows_ok_submit_all env sched (rows a) 0 ∅ a Hok) as Hs.
  destruct (submit_all INI_PATH env sched 0 (rows a) ∅ a) as [[futures|e] a1]; simpl in *.
  - by apply (rows_ok_same (run_ops INI_PATH (sched (length (rows a))) a1));
      [..|apply rows_ok_run_ops].
  - by apply (rows_ok_same a1).
Qed.

Lemma rows_ok___init__ now (files : Disk) (a : App) :
  __init__ INI_PATH now files = Return a → rows_ok a.
Proof.
  unfold __init__.
  destruct (load_state INI_PATH files) as [[[[lt lw] lr] loaded]|e]; [|done].
  destruct (lw <=? 0)%Z; [done|]. intros [= <-].
  set (a0 := mkApp _ _ _ _ _ _ _ _ _ _ _ _ _ _ _ _ _ _ _ _ _ _).
  destruct (_schedule_auto_refresh_frame (refresh_async (rebuild_rows a0)))
    as (Hh & Ht & Hr & Hrh & _).
  apply (rows_ok_same (refresh_async (rebuild_rows a0))); [done..|].
  apply rows_ok_refresh_async, rows_ok_rebuild_rows.
  intros t Ht0. unfold a0 in *. simpl in *.
  apply elem_of_seq in Ht0. apply elem_of_dom, lookup_map_seq_is_Some; [|lia].
  destruct loaded; [simpl in Ht0; lia|done].
Qed.

End RowsOkProofs.

(** X23: the rows of the list are always pairwise distinct, live widgets
    of the store, and their targets and the targets of the list are objects
    of the store.  This holds when [App.__init__] returns, and everything
    that happens afterwards keeps it: every action on the Tk thread (the
    buttons, the two dialogs, the timers that fire, time passing) and the
    worker thread with whatever the Tk thread does beside it.  So what the
    worker reads when it takes its snapshot is there. *)
Theorem rows_stay_live `{!PythonLib} (INI_PATH : string) :
  (∀ now (files : Disk) (a : App), __init__ INI_PATH now files = Return a → rows_ok a)
  ∧ (∀ a : App, rows_ok a →
       (∀ op, rows_ok (run_op INI_PATH a op))
       ∧ (∀ env sched, rows_ok (_refresh_worker INI_PATH env sched a))
       ∧ (∀ d, rows_ok (AddTargetDialog._submit INI_PATH d a).2)
       ∧ (∀ d, rows_ok (SettingsDialog._apply INI_PATH d a).2))
  ∧ ∀ a : App, rows_ok a → rows_present a ∧ NoDup (rows a) ∧ rows_alive a.
Proof.
  split_and!.
  - intros now files a. apply rows_ok___init__.
  - intros a Hok. split_and!.
    + intros op. by apply rows_ok_run_op.
    + intros env sched. by apply rows_ok_worker.
    + intros d. unfold AddTargetDialog._submit.
      case_bool_decide; [done|]. case_bool_decide; [done|].
      destruct (py_int _) as [port|]; [|done].
      destruct (negb _); [done|].
      set (t := fresh (dom (heap a))).
      set (a1 := with_heap _ a).
      assert (rows_ok (add_target INI_PATH t a1).2) as Hadd.
      { apply rows_ok_add_target; [|by apply rows_ok_insert].
        unfold a1. simpl. rewrite dom_insert_L. set_solver. }
      by destruct (add_target INI_PATH t a1) as [[[]|e] a2].
    + intros d. unfold SettingsDialog._apply.
      destruct (float_of_str _) as [x|]; [|done].
      destruct (float_leb x float_zero); [done|].
      destruct (py_int (strip (SettingsDialog.max_workers_entry d))) as [w|]; [|done].
      destruct ((w <? 1)%Z || (500 <? w)%Z); [done|].
      destruct (py_int (strip (SettingsDialog.auto_refresh_entry d))) as [r|]; [|done].
      destruct (r <? 0)%Z; [done|].
      pose proof (rows_ok_apply_settings INI_PATH x w r a Hok) as Happ.
      by destruct (apply_settings INI_PATH x w r a) as [[[]|e] a1].
  - intros a (Hnd & Hpres & _). split_and!; [|done|].
    + intros r Hr. destruct (Hpres r Hr) as (rec & Hrec & _ & [tg Htg]%elem_of_dom).
      by exists rec, tg.
    + intros r Hr. destruct (Hpres r Hr) as (rec & Hrec & Halive & _).
      unfold lookup_total, map_lookup_total. by rewrite Hrec.
Qed.

Lemma rows_stay_live_example :
  rows_ok example_app
  ∧ rows_ok (run_op "itpo.ini" example_app (click_delete 0))
  ∧ rows_present (run_op "itpo.ini" example_app (click_delete 0)).
Proof.
  assert (rows_ok example_app) as Hok.
  { split_and!.
    - apply (bool_decide_unpack _). vm_compute. reflexivity.
    - intros r Hr. simpl in Hr.
      apply elem_of_cons in Hr as [->|Hr];
        [eexists; split_and!; [reflexivity|reflexivity|]; apply elem_of_dom; by eexists|].
      apply elem_of_cons in Hr as [->|Hr];
        [eexists; split_and!; [reflexivity|reflexivity|]; apply elem_of_dom; by eexists|].
      by apply elem_of_nil in Hr.
    - intros t Ht. simpl in Ht.
      apply elem_of_cons in Ht as [->|Ht]; [apply elem_of_dom; by eexists|].
      apply elem_of_cons in Ht as [->|Ht]; [apply elem_of_dom; by eexists|].
      by apply elem_of_nil in Ht. }
  destruct (@rows_stay_live plain_lib "itpo.ini") as (_ & Hkeep & Himplies).
  destruct (Hkeep example_app Hok) as (Hop & _).
  split_and!; [exact Hok|apply Hop|].
  by destruct (Himplies _ (Hop (click_delete 0))) as (Hpres & _).
Defined.
